(** * Time tracking and monthly archives of claude-terminal

    A shallow embedding of the renderer's time-tracking state module
    (timeTracking state, [src/unnamed/part_004]) and of
    [src/renderer/services/ArchiveService.js], with the properties of the
    session tracker, the boundary detectors, the sanitizer and the archive
    store that the specification states.

    Conventions of the embedding.
    - Timestamps and durations are millisecond counts, as [Z].  They stay far
      below 2^53, where the arithmetic of JavaScript numbers is exact.
    - Every callback of the event loop runs at one instant: [Date.now()] reads
      the field [clock] of the world, which only the event loop advances.
    - A JavaScript [Map], and an object used as a dictionary, is an
      insertion-ordered association list ([JsMap]): the loops of the source
      perform their effects in iteration order.
    - The engine's [Date] and the archive directory form the [Platform]
      class; [fixedOffset] is the instance of a zone at a constant offset
      from UTC. *)

From Stdlib Require Import ZArith List String Ascii Bool Lia DecimalString.
Import ListNotations.
Local Open Scope Z_scope.
Local Open Scope list_scope.

(* ================================================================== *)
(** * JavaScript values *)
(* ================================================================== *)

(** A number as it can sit in a counter or a duration of the persisted
    dataset. *)
Inductive JsNumber : Type :=
| NaN
| Infinity (negative : bool)
| Num (z : Z).

(** A numeric property; [None] is [undefined] or [null]. *)
Definition JsField := option JsNumber.

(** [Number.isFinite(v)] *)
Definition Number_isFinite (v : JsField) : bool :=
  match v with
  | Some (Num _) => true
  | _ => false
  end.

(** [v < 0], [v <= 0] and [v > bound] on numbers ([NaN] compares false). *)
Definition js_ltb (v : JsNumber) (bound : Z) : bool :=
  match v with
  | Num z => z <? bound
  | Infinity negative => negative
  | NaN => false
  end.

Definition js_leb (v : JsNumber) (bound : Z) : bool :=
  match v with
  | Num z => z <=? bound
  | Infinity negative => negative
  | NaN => false
  end.

Definition js_gtb (v : JsNumber) (bound : Z) : bool :=
  match v with
  | Num z => bound <? z
  | Infinity negative => negb negative
  | NaN => false
  end.

(** The same on a property.  The source compares a property only after
    [Number.isFinite] accepted it; an absent one compares false. *)
Definition field_ltb (v : JsField) (bound : Z) : bool :=
  match v with Some n => js_ltb n bound | None => false end.
Definition field_leb (v : JsField) (bound : Z) : bool :=
  match v with Some n => js_leb n bound | None => false end.
Definition field_gtb (v : JsField) (bound : Z) : bool :=
  match v with Some n => js_gtb n bound | None => false end.

(** [v || 0] *)
Definition or_zero (v : JsField) : JsNumber :=
  match v with
  | Some (Num z) => Num z
  | Some (Infinity negative) => Infinity negative
  | Some NaN | None => Num 0
  end.

(** [a + b] on numbers *)
Definition js_add (a b : JsNumber) : JsNumber :=
  match a, b with
  | NaN, _ | _, NaN => NaN
  | Num x, Num y => Num (x + y)
  | Infinity n, Num _ | Num _, Infinity n => Infinity n
  | Infinity n, Infinity m => if Bool.eqb n m then Infinity n else NaN
  end.

(** Truthiness of a timestamp that may be [null] ([0] is falsy). *)
Definition truthy_time (t : option Z) : bool :=
  match t with
  | Some z => negb (z =? 0)
  | None => false
  end.

(** Truthiness of a string that may be [null] or [undefined]. *)
Definition truthy_string (s : option string) : bool :=
  match s with
  | Some s => negb (String.eqb s "")
  | None => false
  end.

(** A number that may be [NaN] (a calendar field of an invalid [Date]). *)
Definition JsInt := option Z.

(** [a === b] and [a !== b] on such numbers. *)
Definition js_strict_eq (a b : JsInt) : bool :=
  match a, b with
  | Some x, Some y => x =? y
  | _, _ => false
  end.

Definition js_strict_neq (a b : JsInt) : bool := negb (js_strict_eq a b).

(** Decimal text of an integer. *)
Definition string_of_Z (z : Z) : string := NilZero.string_of_int (Z.to_int z).

(** [String(n)] *)
Definition js_toString (n : JsInt) : string :=
  match n with
  | Some z => string_of_Z z
  | None => "NaN"
  end.

(** [s.padStart(2, '0')] *)
Definition padStart2 (s : string) : string :=
  match String.length s with
  | O => "00"
  | S O => String "0" s
  | _ => s
  end.

(* ================================================================== *)
(** * Insertion-ordered maps *)
(* ================================================================== *)

Module JsMap.
Section Ops.
Context {V : Type}.

Definition t := list (string * V).

Fixpoint get (k : string) (m : list (string * V)) : option V :=
  match m with
  | [] => None
  | (k', v) :: rest => if String.eqb k k' then Some v else get k rest
  end.

Definition has (k : string) (m : list (string * V)) : bool :=
  match get k m with Some _ => true | None => false end.

(** [m.set(k, v)]: an existing key keeps its place. *)
Fixpoint set (k : string) (v : V) (m : list (string * V)) : list (string * V) :=
  match m with
  | [] => [(k, v)]
  | (k', v') :: rest =>
      if String.eqb k k' then (k, v) :: rest else (k', v') :: set k v rest
  end.

Fixpoint delete (k : string) (m : list (string * V)) : list (string * V) :=
  match m with
  | [] => []
  | (k', v') :: rest =>
      if String.eqb k k' then delete k rest else (k', v') :: delete k rest
  end.

Definition keys (m : list (string * V)) : list string := map fst m.
Definition values (m : list (string * V)) : list V := map snd m.
End Ops.
End JsMap.

(* ================================================================== *)
(** * The platform: the engine's Date and the archive directory *)
(* ================================================================== *)

Class Platform : Type := {
  (** [archivesDir] of [utils/paths] *)
  archivesDir : string;
  (** [new Date(t).toISOString()] *)
  toISOString : Z -> string;
  (** time value of [new Date(s)] for a string; [None] is an invalid Date *)
  Date_parse : string -> option Z;
  (** local calendar fields of the instant [t] *)
  getFullYear : Z -> Z;
  getMonth : Z -> Z;
  getDate : Z -> Z;
  getDay : Z -> Z;
  (** [d.setHours(0, 0, 0, 0)] on the Date of instant [t] *)
  setHoursZero : Z -> Z;
  (** [d.setDate(n)] on the Date of instant [t] *)
  setDate : Z -> Z -> Z
}.

(* ================================================================== *)
(** * Data model *)
(* ================================================================== *)

(** PersistedSession *)
Record Session : Type := {
  id : string;
  startTime : option string;
  endTime : option string;
  duration : JsField
}.

Record ProjectTimeTracking : Type := {
  totalTime : JsField;
  todayTime : JsField;
  lastActiveDate : option string;
  (** [None]: the property is not an array *)
  sessions : option (list Session)
}.

Record GlobalTimeTracking : Type := {
  g_totalTime : JsField;
  g_todayTime : JsField;
  g_weekTime : JsField;
  g_monthTime : JsField;
  g_lastActiveDate : option string;
  g_weekStart : option string;
  g_monthStart : option string;
  g_sessions : option (list Session)
}.

Record Project : Type := {
  p_id : string;
  p_name : string;
  timeTracking : option ProjectTimeTracking
}.

(** The live dataset held by the projects state. *)
Record ProjectsState : Type := {
  projects : list Project;
  globalTimeTracking : option GlobalTimeTracking
}.

Record ProjectArchive : Type := {
  projectName : string;
  pa_sessions : list Session
}.

Record Archive : Type := {
  version : Z;
  month_key : string;
  createdAt : string;
  lastModifiedAt : string;
  globalSessions : list Session;
  projectSessions : list (string * ProjectArchive)
}.

(** Content of a file of the archive directory: the JSON text of an archive,
    or text that [JSON.parse] rejects (blank text included). *)
Inductive FileContent : Type :=
| Unparseable (text : string)
| ArchiveDoc (a : Archive).

(** The file system: its files, and the paths on which a write or a rename
    fails. *)
Record FileSystem : Type := {
  files : list (string * FileContent);
  unwritable : string -> bool
}.

Record CacheEntry : Type := {
  data : Archive;
  loadedAt : Z
}.

(** RuntimeInterval of an entity *)
Record ActiveSession : Type := {
  sessionStartTime : option Z;
  lastActivityTime : Z;
  isIdle : bool
}.

Record TrackingState : Type := {
  activeSessions : list (string * ActiveSession);
  globalSessionStartTime : option Z;
  globalLastActivityTime : option Z;
  globalIsIdle : bool
}.

Inductive Callback : Type :=
| CheckAndPauseTracking (projectId : string)
| CheckAndPauseGlobalTimer.

(** A pending [setTimeout]. *)
Record Timeout : Type := {
  due : Z;
  callback : Callback
}.

Record GlobalTimesCache : Type := {
  sessionsToday : Z;
  sessionsWeek : Z;
  sessionsMonth : Z
}.

(** The world of the renderer process: the environment (clock, random
    source, timers, file system, projects state and its save function) and
    the variables of the two modules. *)
Record World : Type := {
  clock : Z;
  random : nat -> string;
  random_pos : nat;
  timers : list (nat * Timeout);
  next_timer : nat;
  disk : FileSystem;
  projectsState : ProjectsState;
  save_calls : nat;
  archiveCache : list (string * CacheEntry);
  trackingState : TrackingState;
  lastHeartbeat : Z;
  idleTimers : list (string * nat);
  lastOutputTimes : list (string * Z);
  globalLastOutputTime : Z;
  globalIdleTimer : option nat;
  lastKnownDate : option string;
  projectsStateRef : bool;
  saveProjectsRef : bool;
  globalTimesCache : option GlobalTimesCache
}.

Definition with_clock (v : Z) (w : World) : World :=
  {| clock := v; random := random w; random_pos := random_pos w;
     timers := timers w; next_timer := next_timer w; disk := disk w;
     projectsState := projectsState w; save_calls := save_calls w;
     archiveCache := archiveCache w; trackingState := trackingState w;
     lastHeartbeat := lastHeartbeat w; idleTimers := idleTimers w;
     lastOutputTimes := lastOutputTimes w;
     globalLastOutputTime := globalLastOutputTime w;
     globalIdleTimer := globalIdleTimer w; lastKnownDate := lastKnownDate w;
     projectsStateRef := projectsStateRef w;
     saveProjectsRef := saveProjectsRef w;
     globalTimesCache := globalTimesCache w |}.

Definition with_random_pos (v : nat) (w : World) : World :=
  {| clock := clock w; random := random w; random_pos := v;
     timers := timers w; next_timer := next_timer w; disk := disk w;
     projectsState := projectsState w; save_calls := save_calls w;
     archiveCache := archiveCache w; trackingState := trackingState w;
     lastHeartbeat := lastHeartbeat w; idleTimers := idleTimers w;
     lastOutputTimes := lastOutputTimes w;
     globalLastOutputTime := globalLastOutputTime w;
     globalIdleTimer := globalIdleTimer w; lastKnownDate := lastKnownDate w;
     projectsStateRef := projectsStateRef w;
     saveProjectsRef := saveProjectsRef w;
     globalTimesCache := globalTimesCache w |}.

Definition with_timers (v : list (nat * Timeout)) (n : nat) (w : World) : World :=
  {| clock := clock w; random := random w; random_pos := random_pos w;
     timers := v; next_timer := n; disk := disk w;
     projectsState := projectsState w; save_calls := save_calls w;
     archiveCache := archiveCache w; trackingState := trackingState w;
     lastHeartbeat := lastHeartbeat w; idleTimers := idleTimers w;
     lastOutputTimes := lastOutputTimes w;
     globalLastOutputTime := globalLastOutputTime w;
     globalIdleTimer := globalIdleTimer w; lastKnownDate := lastKnownDate w;
     projectsStateRef := projectsStateRef w;
     saveProjectsRef := saveProjectsRef w;
     globalTimesCache := globalTimesCache w |}.

Definition with_disk (v : FileSystem) (w : World) : World :=
  {| clock := clock w; random := random w; random_pos := random_pos w;
     timers := timers w; next_timer := next_timer w; disk := v;
     projectsState := projectsState w; save_calls := save_calls w;
     archiveCache := archiveCache w; trackingState := trackingState w;
     lastHeartbeat := lastHeartbeat w; idleTimers := idleTimers w;
     lastOutputTimes := lastOutputTimes w;
     globalLastOutputTime := globalLastOutputTime w;
     globalIdleTimer := globalIdleTimer w; lastKnownDate := lastKnownDate w;
     projectsStateRef := projectsStateRef w;
     saveProjectsRef := saveProjectsRef w;
     globalTimesCache := globalTimesCache w |}.

Definition with_projectsState (v : ProjectsState) (w : World) : World :=
  {| clock := clock w; random := random w; random_pos := random_pos w;
     timers := timers w; next_timer := next_timer w; disk := disk w;
     projectsState := v; save_calls := save_calls w;
     archiveCache := archiveCache w; trackingState := trackingState w;
     lastHeartbeat := lastHeartbeat w; idleTimers := idleTimers w;
     lastOutputTimes := lastOutputTimes w;
     globalLastOutputTime := globalLastOutputTime w;
     globalIdleTimer := globalIdleTimer w; lastKnownDate := lastKnownDate w;
     projectsStateRef := projectsStateRef w;
     saveProjectsRef := saveProjectsRef w;
     globalTimesCache := globalTimesCache w |}.

Definition with_save_calls (v : nat) (w : World) : World :=
  {| clock := clock w; random := random w; random_pos := random_pos w;
     timers := timers w; next_timer := next_timer w; disk := disk w;
     projectsState := projectsState w; save_calls := v;
     archiveCache := archiveCache w; trackingState := trackingState w;
     lastHeartbeat := lastHeartbeat w; idleTimers := idleTimers w;
     lastOutputTimes := lastOutputTimes w;
     globalLastOutputTime := globalLastOutputTime w;
     globalIdleTimer := globalIdleTimer w; lastKnownDate := lastKnownDate w;
     projectsStateRef := projectsStateRef w;
     saveProjectsRef := saveProjectsRef w;
     globalTimesCache := globalTimesCache w |}.

Definition with_archiveCache (v : list (string * CacheEntry)) (w : World) : World :=
  {| clock := clock w; random := random w; random_pos := random_pos w;
     timers := timers w; next_timer := next_timer w; disk := disk w;
     projectsState := projectsState w; save_calls := save_calls w;
     archiveCache := v; trackingState := trackingState w;
     lastHeartbeat := lastHeartbeat w; idleTimers := idleTimers w;
     lastOutputTimes := lastOutputTimes w;
     globalLastOutputTime := globalLastOutputTime w;
     globalIdleTimer := globalIdleTimer w; lastKnownDate := lastKnownDate w;
     projectsStateRef := projectsStateRef w;
     saveProjectsRef := saveProjectsRef w;
     globalTimesCache := globalTimesCache w |}.

Definition with_trackingState (v : TrackingState) (w : World) : World :=
  {| clock := clock w; random := random w; random_pos := random_pos w;
     timers := timers w; next_timer := next_timer w; disk := disk w;
     projectsState := projectsState w; save_calls := save_calls w;
     archiveCache := archiveCache w; trackingState := v;
     lastHeartbeat := lastHeartbeat w; idleTimers := idleTimers w;
     lastOutputTimes := lastOutputTimes w;
     globalLastOutputTime := globalLastOutputTime w;
     globalIdleTimer := globalIdleTimer w; lastKnownDate := lastKnownDate w;
     projectsStateRef := projectsStateRef w;
     saveProjectsRef := saveProjectsRef w;
     globalTimesCache := globalTimesCache w |}.

Definition with_lastHeartbeat (v : Z) (w : World) : World :=
  {| clock := clock w; random := random w; random_pos := random_pos w;
     timers := timers w; next_timer := next_timer w; disk := disk w;
     projectsState := projectsState w; save_calls := save_calls w;
     archiveCache := archiveCache w; trackingState := trackingState w;
     lastHeartbeat := v; idleTimers := idleTimers w;
     lastOutputTimes := lastOutputTimes w;
     globalLastOutputTime := globalLastOutputTime w;
     globalIdleTimer := globalIdleTimer w; lastKnownDate := lastKnownDate w;
     projectsStateRef := projectsStateRef w;
     saveProjectsRef := saveProjectsRef w;
     globalTimesCache := globalTimesCache w |}.

Definition with_idleTimers (v : list (string * nat)) (w : World) : World :=
  {| clock := clock w; random := random w; random_pos := random_pos w;
     timers := timers w; next_timer := next_timer w; disk := disk w;
     projectsState := projectsState w; save_calls := save_calls w;
     archiveCache := archiveCache w; trackingState := trackingState w;
     lastHeartbeat := lastHeartbeat w; idleTimers := v;
     lastOutputTimes := lastOutputTimes w;
     globalLastOutputTime := globalLastOutputTime w;
     globalIdleTimer := globalIdleTimer w; lastKnownDate := lastKnownDate w;
     projectsStateRef := projectsStateRef w;
     saveProjectsRef := saveProjectsRef w;
     globalTimesCache := globalTimesCache w |}.

Definition with_lastOutputTimes (v : list (string * Z)) (w : World) : World :=
  {| clock := clock w; random := random w; random_pos := random_pos w;
     timers := timers w; next_timer := next_timer w; disk := disk w;
     projectsState := projectsState w; save_calls := save_calls w;
     archiveCache := archiveCache w; trackingState := trackingState w;
     lastHeartbeat := lastHeartbeat w; idleTimers := idleTimers w;
     lastOutputTimes := v;
     globalLastOutputTime := globalLastOutputTime w;
     globalIdleTimer := globalIdleTimer w; lastKnownDate := lastKnownDate w;
     projectsStateRef := projectsStateRef w;
     saveProjectsRef := saveProjectsRef w;
     globalTimesCache := globalTimesCache w |}.

Definition with_globalLastOutputTime (v : Z) (w : World) : World :=
  {| clock := clock w; random := random w; random_pos := random_pos w;
     timers := timers w; next_timer := next_timer w; disk := disk w;
     projectsState := projectsState w; save_calls := save_calls w;
     archiveCache := archiveCache w; trackingState := trackingState w;
     lastHeartbeat := lastHeartbeat w; idleTimers := idleTimers w;
     lastOutputTimes := lastOutputTimes w;
     globalLastOutputTime := v;
     globalIdleTimer := globalIdleTimer w; lastKnownDate := lastKnownDate w;
     projectsStateRef := projectsStateRef w;
     saveProjectsRef := saveProjectsRef w;
     globalTimesCache := globalTimesCache w |}.

Definition with_globalIdleTimer (v : option nat) (w : World) : World :=
  {| clock := clock w; random := random w; random_pos := random_pos w;
     timers := timers w; next_timer := next_timer w; disk := disk w;
     projectsState := projectsState w; save_calls := save_calls w;
     archiveCache := archiveCache w; trackingState := trackingState w;
     lastHeartbeat := lastHeartbeat w; idleTimers := idleTimers w;
     lastOutputTimes := lastOutputTimes w;
     globalLastOutputTime := globalLastOutputTime w;
     globalIdleTimer := v; lastKnownDate := lastKnownDate w;
     projectsStateRef := projectsStateRef w;
     saveProjectsRef := saveProjectsRef w;
     globalTimesCache := globalTimesCache w |}.

Definition with_lastKnownDate (v : option string) (w : World) : World :=
  {| clock := clock w; random := random w; random_pos := random_pos w;
     timers := timers w; next_timer := next_timer w; disk := disk w;
     projectsState := projectsState w; save_calls := save_calls w;
     archiveCache := archiveCache w; trackingState := trackingState w;
     lastHeartbeat := lastHeartbeat w; idleTimers := idleTimers w;
     lastOutputTimes := lastOutputTimes w;
     globalLastOutputTime := globalLastOutputTime w;
     globalIdleTimer := globalIdleTimer w; lastKnownDate := v;
     projectsStateRef := projectsStateRef w;
     saveProjectsRef := saveProjectsRef w;
     globalTimesCache := globalTimesCache w |}.

Definition with_globalTimesCache (v : option GlobalTimesCache) (w : World) : World :=
  {| clock := clock w; random := random w; random_pos := random_pos w;
     timers := timers w; next_timer := next_timer w; disk := disk w;
     projectsState := projectsState w; save_calls := save_calls w;
     archiveCache := archiveCache w; trackingState := trackingState w;
     lastHeartbeat := lastHeartbeat w; idleTimers := idleTimers w;
     lastOutputTimes := lastOutputTimes w;
     globalLastOutputTime := globalLastOutputTime w;
     globalIdleTimer := globalIdleTimer w; lastKnownDate := lastKnownDate w;
     projectsStateRef := projectsStateRef w;
     saveProjectsRef := saveProjectsRef w;
     globalTimesCache := v |}.

(* ================================================================== *)
(** * ArchiveService.js *)
(* ================================================================== *)

(** ** The file system calls of the service *)

Definition fs_existsSync (path : string) (fs : FileSystem) : bool :=
  JsMap.has path (files fs).

Definition fs_readFileSync (path : string) (fs : FileSystem) : option FileContent :=
  JsMap.get path (files fs).

(** [fs.writeFileSync]; [None] when it throws. *)
Definition fs_writeFileSync (path : string) (content : FileContent)
    (fs : FileSystem) : option FileSystem :=
  if unwritable fs path then None
  else Some {| files := JsMap.set path content (files fs);
               unwritable := unwritable fs |}.

(** [fs.renameSync]; [None] when it throws. *)
Definition fs_renameSync (oldPath newPath : string) (fs : FileSystem)
    : option FileSystem :=
  if unwritable fs newPath then None
  else match JsMap.get oldPath (files fs) with
       | None => None
       | Some content =>
           Some {| files := JsMap.set newPath content
                              (JsMap.delete oldPath (files fs));
                   unwritable := unwritable fs |}
       end.

Definition fs_unlinkSync (path : string) (fs : FileSystem) : FileSystem :=
  {| files := JsMap.delete path (files fs); unwritable := unwritable fs |}.

(** ** JSON *)

(** What [JSON.parse (JSON.stringify s)] gives back: a duration that is not
    a finite number is written as [null]. *)
Definition json_session (s : Session) : Session :=
  {| id := id s; startTime := startTime s; endTime := endTime s;
     duration := if Number_isFinite (duration s) then duration s else None |}.

Definition json_projectArchive (e : ProjectArchive) : ProjectArchive :=
  {| projectName := projectName e;
     pa_sessions := map json_session (pa_sessions e) |}.

Definition json_archive (a : Archive) : Archive :=
  {| version := version a; month_key := month_key a; createdAt := createdAt a;
     lastModifiedAt := lastModifiedAt a;
     globalSessions := map json_session (globalSessions a);
     projectSessions :=
       map (fun kv => (fst kv, json_projectArchive (snd kv))) (projectSessions a) |}.

(** [JSON.stringify(archiveData, null, 2)] *)
Definition JSON_stringify (a : Archive) : FileContent := ArchiveDoc (json_archive a).

(** [JSON.parse(content)], for content that is not blank; [None] when it
    throws. *)
Definition JSON_parse (content : FileContent) : option Archive :=
  match content with
  | ArchiveDoc a => Some a
  | Unparseable _ => None
  end.

Section ArchiveService.
Context {P : Platform}.

Definition MONTH_NAMES : list string :=
  ["january"; "february"; "march"; "april"; "may"; "june";
   "july"; "august"; "september"; "october"; "november"; "december"]%string.

Definition MAX_CACHE_SIZE : nat := 3.

Definition getCacheKey (year month : JsInt) : string :=
  (js_toString year ++ "-"
     ++ padStart2 (js_toString (option_map (fun m => m + 1) month)))%string.

(** [`${MONTH_NAMES[month]}`] *)
Definition month_name (month : JsInt) : string :=
  match month with
  | Some m =>
      if (0 <=? m) && (m <? 12)
      then nth (Z.to_nat m) MONTH_NAMES "undefined"%string
      else "undefined"%string
  | None => "undefined"%string
  end.

Definition getArchiveFilename (year month : JsInt) : string :=
  (month_name month ++ "_" ++ js_toString year ++ ".json")%string.

(** [path.join(archivesDir, name)] *)
Definition getArchiveFilePath (year month : JsInt) : string :=
  (archivesDir ++ "/" ++ getArchiveFilename year month)%string.

Definition createEmptyArchive (year month : JsInt) (w : World) : Archive :=
  {| version := 1;
     month_key := getCacheKey year month;
     createdAt := toISOString (clock w);
     lastModifiedAt := toISOString (clock w);
     globalSessions := [];
     projectSessions := [] |}.

Definition readArchiveFromDisk (filePath : string) (w : World) : option Archive :=
  match fs_readFileSync filePath (disk w) with
  | None => None
  | Some content => JSON_parse content
  end.

(** The scan of [loadArchive] for the entry loaded longest ago; the
    accumulator is [(oldestKey, oldestTime)], [None] being [null] and
    [Infinity]. *)
Definition oldest_entry (cache : list (string * CacheEntry))
    : option string * option Z :=
  fold_left
    (fun acc kv =>
       let older := match snd acc with
                    | None => true
                    | Some oldestTime => loadedAt (snd kv) <? oldestTime
                    end in
       if older then (Some (fst kv), Some (loadedAt (snd kv))) else acc)
    cache (None, None).

Definition loadArchive (year month : JsInt) (w : World) : option Archive * World :=
  let key := getCacheKey year month in
  match JsMap.get key (archiveCache w) with
  | Some entry => (Some (data entry), w)
  | None =>
      let filePath := getArchiveFilePath year month in
      match readArchiveFromDisk filePath w with
      | Some a =>
          let cache :=
            if (MAX_CACHE_SIZE <=? List.length (archiveCache w))%nat
            then match fst (oldest_entry (archiveCache w)) with
                 | Some oldestKey =>
                     if truthy_string (Some oldestKey)
                     then JsMap.delete oldestKey (archiveCache w)
                     else archiveCache w
                 | None => archiveCache w
                 end
            else archiveCache w in
          (Some a,
           with_archiveCache
             (JsMap.set key {| data := a; loadedAt := clock w |} cache) w)
      | None => (None, w)
      end
  end.

(** [writeArchive]: write to a temporary file, then rename it over the
    target; on a failure remove the temporary file and return. *)
Definition writeArchive (year month : JsInt) (archiveData : Archive) (w : World)
    : World :=
  let filePath := getArchiveFilePath year month in
  let tempFile := (filePath ++ ".tmp")%string in
  match fs_writeFileSync tempFile (JSON_stringify archiveData) (disk w) with
  | Some fs1 =>
      match fs_renameSync tempFile filePath fs1 with
      | Some fs2 => with_disk fs2 w
      | None =>
          if fs_existsSync tempFile fs1
          then with_disk (fs_unlinkSync tempFile fs1) w
          else with_disk fs1 w
      end
  | None =>
      if fs_existsSync tempFile (disk w)
      then with_disk (fs_unlinkSync tempFile (disk w)) w
      else w
  end.

Definition invalidateArchiveCache (year month : JsInt) (w : World) : World :=
  with_archiveCache (JsMap.delete (getCacheKey year month) (archiveCache w)) w.

(** The deduplicating loop: [existingIds] is the set of ids of the stored
    list, taken before the loop; every incoming session whose id is not in
    it is pushed. *)
Definition push_new (existing incoming : list Session) : list Session :=
  let existingIds := map id existing in
  existing
    ++ filter (fun s => negb (existsb (String.eqb (id s)) existingIds)) incoming.

Definition merge_project (stored : list (string * ProjectArchive))
    (entry : string * ProjectArchive) : list (string * ProjectArchive) :=
  let projectId := fst entry in
  let data := snd entry in
  let current :=
    match JsMap.get projectId stored with
    | Some e => e
    | None =>
        {| projectName :=
             if truthy_string (Some (projectName data))
             then projectName data else "Unknown"%string;
           pa_sessions := [] |}
    end in
  let pushed := push_new (pa_sessions current) (pa_sessions data) in
  JsMap.set projectId
    {| projectName :=
         if truthy_string (Some (projectName data))
         then projectName data else projectName current;
       pa_sessions := pushed |}
    stored.

(** The archive object of [appendToArchive] just before it is written. *)
Definition merged_archive (year month : JsInt) (globals : list Session)
    (projectSessionsMap : list (string * ProjectArchive)) (w : World) : Archive :=
  let filePath := getArchiveFilePath year month in
  let archive :=
    match readArchiveFromDisk filePath w with
    | Some a => a
    | None => createEmptyArchive year month w
    end in
  {| version := version archive;
     month_key := month_key archive;
     createdAt := createdAt archive;
     lastModifiedAt := toISOString (clock w);
     globalSessions :=
       match globals with
       | [] => globalSessions archive
       | _ :: _ => push_new (globalSessions archive) globals
       end;
     projectSessions :=
       fold_left merge_project projectSessionsMap (projectSessions archive) |}.

Definition appendToArchive (year month : JsInt) (globals : list Session)
    (projectSessionsMap : list (string * ProjectArchive)) (w : World) : World :=
  let archive := merged_archive year month globals projectSessionsMap w in
  invalidateArchiveCache year month (writeArchive year month archive w).

End ArchiveService.

(* ================================================================== *)
(** * The time-tracking state module *)
(* ================================================================== *)

(** Modelled from the spec: the [State] container of [./State], which is not
    among the sources.  [get] returns the current snapshot and [set]
    replaces it ("reads a full snapshot of state, computes a new snapshot,
    and replaces it atomically"); every caller passes a complete snapshot.
    [trackingState.get()] is the field [trackingState] of the world and
    [trackingState.set(s)] is [with_trackingState s]; the projects state is
    held the same way in [projectsState]. *)
Definition State_set_tracking (s : TrackingState) (w : World) : World :=
  with_trackingState s w.

Definition State_set_projects (s : ProjectsState) (w : World) : World :=
  with_projectsState s w.

(** [saveProjectsRef()] *)
Definition saveProjects (w : World) : World :=
  with_save_calls (S (save_calls w)) w.

(** The timers of the event loop. *)
Definition setTimeout (cb : Callback) (delay : Z) (w : World) : nat * World :=
  (next_timer w,
   with_timers (timers w ++ [(next_timer w, {| due := clock w + delay; callback := cb |})])
               (S (next_timer w)) w).

Definition clearTimeout (timer : option nat) (w : World) : World :=
  match timer with
  | None => w
  | Some i =>
      with_timers (filter (fun e => negb (Nat.eqb (fst e) i)) (timers w))
                  (next_timer w) w
  end.

(** Spread updates of the tracking state. *)
Definition with_activeSessions (m : list (string * ActiveSession))
    (s : TrackingState) : TrackingState :=
  {| activeSessions := m;
     globalSessionStartTime := globalSessionStartTime s;
     globalLastActivityTime := globalLastActivityTime s;
     globalIsIdle := globalIsIdle s |}.

Definition with_global (start lastActivity : option Z) (idle : bool)
    (s : TrackingState) : TrackingState :=
  {| activeSessions := activeSessions s;
     globalSessionStartTime := start;
     globalLastActivityTime := lastActivity;
     globalIsIdle := idle |}.

(** [session.sessionStartTime && !session.isIdle] *)
Definition session_running (s : ActiveSession) : bool :=
  truthy_time (sessionStartTime s) && negb (isIdle s).

(** [state.globalSessionStartTime && !state.globalIsIdle] *)
Definition global_running (s : TrackingState) : bool :=
  truthy_time (globalSessionStartTime s) && negb (globalIsIdle s).

(** [a !== b] between a property that may be [null] and a string *)
Definition string_neq (a : option string) (b : string) : bool :=
  match a with
  | Some a => negb (String.eqb a b)
  | None => true
  end.

(** [s.split('T')[0]] *)
Fixpoint before_T (s : string) : string :=
  match s with
  | EmptyString => EmptyString
  | String c rest => if Ascii.eqb c "T" then EmptyString else String c (before_T rest)
  end.

Section TimeTracking.
Context {P : Platform}.

Definition IDLE_TIMEOUT : Z := 15 * 60 * 1000.
Definition OUTPUT_IDLE_TIMEOUT : Z := 2 * 60 * 1000.
Definition SLEEP_GAP_THRESHOLD : Z := 2 * 60 * 1000.

Definition getTodayString (w : World) : string :=
  (string_of_Z (getFullYear (clock w)) ++ "-"
     ++ padStart2 (string_of_Z (getMonth (clock w) + 1)) ++ "-"
     ++ padStart2 (string_of_Z (getDate (clock w))))%string.

Definition getWeekStartString (w : World) : string :=
  let now := clock w in
  let day := getDay now in
  let diff := if day =? 0 then 6 else day - 1 in
  let monday := setDate now (getDate now - diff) in
  let monday := setHoursZero monday in
  before_T (toISOString monday).

Definition getMonthString (w : World) : string :=
  (string_of_Z (getFullYear (clock w)) ++ "-"
     ++ padStart2 (string_of_Z (getMonth (clock w) + 1)))%string.

(** [`sess-${Date.now()}-${Math.random().toString(36).substr(2, 9)}`] *)
Definition session_id (now : Z) (rnd : string) : string :=
  ("sess-" ++ string_of_Z now ++ "-" ++ rnd)%string.

Definition generateSessionId (w : World) : string * World :=
  (session_id (clock w) (random w (random_pos w)),
   with_random_pos (S (random_pos w)) w).

Definition newSession (sessionId : string) (startTime endTime duration : Z) : Session :=
  {| id := sessionId;
     startTime := Some (toISOString startTime);
     endTime := Some (toISOString endTime);
     duration := Some (Num duration) |}.

(** [sessionDate.getFullYear() === now.getFullYear()
     && sessionDate.getMonth() === now.getMonth()] *)
Definition isCurrentMonthSession (startTime : Z) (w : World) : bool :=
  (getFullYear startTime =? getFullYear (clock w))
  && (getMonth startTime =? getMonth (clock w)).

Definition getActiveNonIdleCount (w : World) : nat :=
  List.length (filter (fun e => session_running (snd e))
                 (activeSessions (trackingState w))).

Definition emptyGlobalTracking : GlobalTimeTracking :=
  {| g_totalTime := Some (Num 0); g_todayTime := Some (Num 0);
     g_weekTime := Some (Num 0); g_monthTime := Some (Num 0);
     g_lastActiveDate := None; g_weekStart := None; g_monthStart := None;
     g_sessions := Some [] |}.

Definition or_empty (l : option (list Session)) : list Session :=
  match l with Some l => l | None => [] end.

Definition saveGlobalSession (startTime endTime duration : Z) (w : World) : World :=
  if negb (projectsStateRef w) || negb (saveProjectsRef w) then w
  else
    let today := getTodayString w in
    let weekStart := getWeekStartString w in
    let monthStart := getMonthString w in
    let currentState := projectsState w in
    let prev := match globalTimeTracking currentState with
                | Some g => g
                | None => emptyGlobalTracking
                end in
    let today_time :=
      js_add (if string_neq (g_lastActiveDate prev) today then Num 0
              else or_zero (g_todayTime prev)) (Num duration) in
    let week_time :=
      js_add (if string_neq (g_weekStart prev) weekStart then Num 0
              else or_zero (g_weekTime prev)) (Num duration) in
    let month_time :=
      js_add (if string_neq (g_monthStart prev) monthStart then Num 0
              else or_zero (g_monthTime prev)) (Num duration) in
    let (sessionId, w1) := generateSessionId w in
    let session := newSession sessionId startTime endTime duration in
    let (sessions_now, w2) :=
      if isCurrentMonthSession startTime w1
      then (or_empty (g_sessions prev) ++ [session], w1)
      else (or_empty (g_sessions prev),
            appendToArchive (Some (getFullYear startTime))
              (Some (getMonth startTime)) [session] [] w1) in
    let globalTracking :=
      {| g_totalTime := Some (js_add (or_zero (g_totalTime prev)) (Num duration));
         g_todayTime := Some today_time;
         g_weekTime := Some week_time;
         g_monthTime := Some month_time;
         g_lastActiveDate := Some today;
         g_weekStart := Some weekStart;
         g_monthStart := Some monthStart;
         g_sessions := Some sessions_now |} in
    let w3 := with_globalTimesCache None w2 in
    saveProjects
      (State_set_projects
         {| projects := projects currentState;
            globalTimeTracking := Some globalTracking |} w3).

Definition emptyTracking : ProjectTimeTracking :=
  {| totalTime := Some (Num 0); todayTime := Some (Num 0);
     lastActiveDate := None; sessions := Some [] |}.

(** The callback of [currentState.projects.map] in [saveSession], with its
    call of the archive service. *)
Definition saveSession_project (projectId : string) (today : string)
    (session : Session) (startTime duration : Z) (p : Project) (w : World)
    : Project * World :=
  if negb (String.eqb (p_id p) projectId) then (p, w)
  else
    let tracking := match timeTracking p with
                    | Some t => t
                    | None => emptyTracking
                    end in
    let today0 :=
      if string_neq (lastActiveDate tracking) today then Some (Num 0)
      else todayTime tracking in
    let (sessions_now, w1) :=
      if isCurrentMonthSession startTime w
      then (Some (or_empty (sessions tracking) ++ [session]), w)
      else (sessions tracking,
            appendToArchive (Some (getFullYear startTime))
              (Some (getMonth startTime)) []
              [(projectId, {| projectName := p_name p; pa_sessions := [session] |})]
              w) in
    ({| p_id := p_id p; p_name := p_name p;
        timeTracking :=
          Some {| totalTime := Some (js_add (or_zero (totalTime tracking)) (Num duration));
                  todayTime := Some (js_add (or_zero today0) (Num duration));
                  lastActiveDate := Some today;
                  sessions := sessions_now |} |},
     w1).

Fixpoint saveSession_projects (projectId : string) (today : string)
    (session : Session) (startTime duration : Z) (ps : list Project) (w : World)
    : list Project * World :=
  match ps with
  | [] => ([], w)
  | p :: rest =>
      let (p', w1) := saveSession_project projectId today session startTime duration p w in
      let (rest', w2) := saveSession_projects projectId today session startTime duration rest w1 in
      (p' :: rest', w2)
  end.

Definition saveSession (projectId : string) (startTime endTime duration : Z)
    (w : World) : World :=
  if negb (projectsStateRef w) || negb (saveProjectsRef w) then w
  else
    let today := getTodayString w in
    let (sessionId, w1) := generateSessionId w in
    let session := newSession sessionId startTime endTime duration in
    let currentState := projectsState w1 in
    let (projects_now, w2) :=
      saveSession_projects projectId today session startTime duration
        (projects currentState) w1 in
    saveProjects
      (State_set_projects
         {| projects := projects_now;
            globalTimeTracking := globalTimeTracking currentState |} w2).

(** ** The global timer *)

Definition startGlobalTimer (w : World) : World :=
  let state := trackingState w in
  if global_running state then w
  else
    let now := clock w in
    let w1 := State_set_tracking (with_global (Some now) (Some now) false state) w in
    let w2 := clearTimeout (globalIdleTimer w1) w1 in
    let (timer, w3) := setTimeout CheckAndPauseGlobalTimer IDLE_TIMEOUT w2 in
    with_globalIdleTimer (Some timer) w3.

Definition pauseGlobalTimer (w : World) : World :=
  let state := trackingState w in
  if negb (truthy_time (globalSessionStartTime state)) || globalIsIdle state then w
  else
    let now := clock w in
    let start := match globalSessionStartTime state with Some s => s | None => 0 end in
    let duration := now - start in
    let w1 := if duration >? 1000 then saveGlobalSession start now duration w else w in
    State_set_tracking
      (with_global None (globalLastActivityTime state) true state) w1.

Definition resumeGlobalTimer (w : World) : World :=
  let state := trackingState w in
  if negb (globalIsIdle state) then w
  else
    let now := clock w in
    let w1 := State_set_tracking (with_global (Some now) (Some now) false state) w in
    let w2 := clearTimeout (globalIdleTimer w1) w1 in
    let (timer, w3) := setTimeout CheckAndPauseGlobalTimer IDLE_TIMEOUT w2 in
    with_globalIdleTimer (Some timer) w3.

Definition stopGlobalTimer (w : World) : World :=
  let state := trackingState w in
  let w1 :=
    if global_running state
    then
      let now := clock w in
      let start := match globalSessionStartTime state with Some s => s | None => 0 end in
      let duration := now - start in
      if duration >? 1000 then saveGlobalSession start now duration w else w
    else w in
  let w2 := clearTimeout (globalIdleTimer w1) w1 in
  State_set_tracking (with_global None None false state) w2.

Definition resetGlobalIdleTimer (w : World) : World :=
  let state := trackingState w in
  if globalIsIdle state then resumeGlobalTimer w
  else if truthy_time (globalSessionStartTime state)
  then
    let w1 := clearTimeout (globalIdleTimer w) w in
    let (timer, w2) := setTimeout CheckAndPauseGlobalTimer IDLE_TIMEOUT w1 in
    let w3 := with_globalIdleTimer (Some timer) w2 in
    State_set_tracking
      (with_global (globalSessionStartTime state) (Some (clock w)) (globalIsIdle state) state)
      w3
  else w.

(** ** Tracking of a project *)

(** [clearTimeout(idleTimers.get(projectId));
     idleTimers.set(projectId, setTimeout(() => checkAndPauseTracking(projectId), delay))] *)
Definition restartIdleTimer (projectId : string) (delay : Z) (w : World) : World :=
  let w1 := clearTimeout (JsMap.get projectId (idleTimers w)) w in
  let (timer, w2) := setTimeout (CheckAndPauseTracking projectId) delay w1 in
  with_idleTimers (JsMap.set projectId timer (idleTimers w2)) w2.

Definition resumeTracking (projectId : string) (w : World) : World :=
  let state := trackingState w in
  match JsMap.get projectId (activeSessions state) with
  | None => w
  | Some session =>
      if negb (isIdle session) then w
      else
        let wasAllIdle := Nat.eqb (getActiveNonIdleCount w) 0 in
        let now := clock w in
        let activeSessions_now :=
          JsMap.set projectId
            {| sessionStartTime := Some now; lastActivityTime := now; isIdle := false |}
            (activeSessions state) in
        let w1 := State_set_tracking
                    (with_activeSessions activeSessions_now (trackingState w)) w in
        let w2 := if wasAllIdle then resumeGlobalTimer w1 else w1 in
        restartIdleTimer projectId IDLE_TIMEOUT w2
  end.

Definition startTracking (projectId : string) (w : World) : World :=
  if String.eqb projectId "" then w
  else
    let state := trackingState w in
    let existingSession := JsMap.get projectId (activeSessions state) in
    let already := match existingSession with
                   | Some s => session_running s
                   | None => false
                   end in
    let idle := match existingSession with
                | Some s => isIdle s
                | None => false
                end in
    if already then w
    else if idle then resumeTracking projectId w
    else
      let wasEmpty := Nat.eqb (getActiveNonIdleCount w) 0 in
      let now := clock w in
      let activeSessions_now :=
        JsMap.set projectId
          {| sessionStartTime := Some now; lastActivityTime := now; isIdle := false |}
          (activeSessions state) in
      let w1 := State_set_tracking
                  (with_activeSessions activeSessions_now (trackingState w)) w in
      let w2 := if wasEmpty then startGlobalTimer w1 else w1 in
      restartIdleTimer projectId IDLE_TIMEOUT w2.

Definition stopTracking (projectId : string) (w : World) : World :=
  let state := trackingState w in
  let untracked :=
    match JsMap.get projectId (activeSessions state) with
    | Some s => negb (truthy_time (sessionStartTime s))
    | None => true
    end in
  if untracked
  then State_set_tracking
         (with_activeSessions (JsMap.delete projectId (activeSessions state))
            (trackingState w)) w
  else
    let start := match JsMap.get projectId (activeSessions state) with
                 | Some {| sessionStartTime := Some s |} => s
                 | _ => 0
                 end in
    let now := clock w in
    let duration := now - start in
    let w1 := if duration >? 1000 then saveSession projectId start now duration w else w in
    let w2 := clearTimeout (JsMap.get projectId (idleTimers w1)) w1 in
    let w3 := with_idleTimers (JsMap.delete projectId (idleTimers w2)) w2 in
    let w4 := with_lastOutputTimes (JsMap.delete projectId (lastOutputTimes w3)) w3 in
    let w5 := State_set_tracking
                (with_activeSessions (JsMap.delete projectId (activeSessions state))
                   (trackingState w4)) w4 in
    if Nat.eqb (getActiveNonIdleCount w5) 0 then stopGlobalTimer w5 else w5.

Definition recordActivity (projectId : string) (w : World) : World :=
  if String.eqb projectId "" then w
  else
    let state := trackingState w in
    match JsMap.get projectId (activeSessions state) with
    | None => startTracking projectId w
    | Some session =>
        if isIdle session then resumeTracking projectId w
        else
          let w1 := restartIdleTimer projectId IDLE_TIMEOUT w in
          let w2 := resetGlobalIdleTimer w1 in
          let activeSessions_now :=
            JsMap.set projectId
              {| sessionStartTime := sessionStartTime session;
                 lastActivityTime := clock w;
                 isIdle := isIdle session |}
              (activeSessions state) in
          State_set_tracking
            (with_activeSessions activeSessions_now (trackingState w2)) w2
    end.

Definition pauseTracking (projectId : string) (w : World) : World :=
  let state := trackingState w in
  match JsMap.get projectId (activeSessions state) with
  | None => w
  | Some session =>
      if negb (truthy_time (sessionStartTime session)) || isIdle session then w
      else
        let start := match sessionStartTime session with Some s => s | None => 0 end in
        let now := clock w in
        let duration := now - start in
        let w1 := if duration >? 1000
                  then saveSession projectId start now duration w else w in
        let activeSessions_now :=
          JsMap.set projectId
            {| sessionStartTime := None;
               lastActivityTime := lastActivityTime session;
               isIdle := true |}
            (activeSessions state) in
        let w2 := State_set_tracking
                    (with_activeSessions activeSessions_now (trackingState w1)) w1 in
        if Nat.eqb (getActiveNonIdleCount w2) 0 then pauseGlobalTimer w2 else w2
  end.

(** [lastOutputTimes.get(projectId) || 0] *)
Definition lastOutput (projectId : string) (w : World) : Z :=
  match JsMap.get projectId (lastOutputTimes w) with
  | Some t => t
  | None => 0
  end.

Definition checkAndPauseTracking (projectId : string) (w : World) : World :=
  let timeSinceOutput := clock w - lastOutput projectId w in
  if timeSinceOutput <? OUTPUT_IDLE_TIMEOUT
  then
    let delay := OUTPUT_IDLE_TIMEOUT - timeSinceOutput + 100 in
    restartIdleTimer projectId delay w
  else pauseTracking projectId w.

Definition checkAndPauseGlobalTimer (w : World) : World :=
  let timeSinceOutput := clock w - globalLastOutputTime w in
  if timeSinceOutput <? OUTPUT_IDLE_TIMEOUT
  then
    let delay := OUTPUT_IDLE_TIMEOUT - timeSinceOutput + 100 in
    let w1 := clearTimeout (globalIdleTimer w) w in
    let (timer, w2) := setTimeout CheckAndPauseGlobalTimer delay w1 in
    with_globalIdleTimer (Some timer) w2
  else pauseGlobalTimer w.

Definition recordOutputActivity (projectId : string) (w : World) : World :=
  if String.eqb projectId "" then w
  else
    match JsMap.get projectId (activeSessions (trackingState w)) with
    | None => w
    | Some session =>
        if isIdle session then w
        else
          let w1 := with_lastOutputTimes
                      (JsMap.set projectId (clock w) (lastOutputTimes w)) w in
          with_globalLastOutputTime (clock w1) w1
    end.

End TimeTracking.

(* ================================================================== *)
(** * The boundary detectors *)
(* ================================================================== *)

(** [key.split('-')] *)
Fixpoint split_dash_aux (s : string) (piece : string) : list string :=
  match s with
  | EmptyString => [piece]
  | String c rest =>
      if Ascii.eqb c "-" then piece :: split_dash_aux rest EmptyString
      else split_dash_aux rest (piece ++ String c EmptyString)%string
  end.

Definition split_dash (s : string) : list string := split_dash_aux s EmptyString.

(** [Number(piece)] for the pieces of a month key: the empty string is [0],
    a string of digits its value, anything else [NaN]. *)
Definition js_Number (piece : string) : JsInt :=
  match NilEmpty.uint_of_string piece with
  | Some u => Some (Z.of_uint u)
  | None => None
  end.

(** [const [year, month] = key.split('-').map(Number)] *)
Definition parse_month_key (key : string) : JsInt * JsInt :=
  match split_dash key with
  | y :: m :: _ => (js_Number y, js_Number m)
  | [y] => (js_Number y, None)
  | [] => (None, None)
  end.

Section BoundaryDetectors.
Context {P : Platform}.

(** The loop over the active sessions that [handleSleepWake] and
    [splitSessionsAtMidnight] both have: a running session is closed at
    [boundary] (saved when longer than one second) and restarted with the
    given start and activity times.  The two loops of the source differ
    only in these three values. *)
Definition cut_session (boundary restart activity : Z)
    (entry : string * ActiveSession) (w : World) : (string * ActiveSession) * World :=
  let projectId := fst entry in
  let session := snd entry in
  if session_running session
  then
    let start := match sessionStartTime session with Some s => s | None => 0 end in
    let duration := boundary - start in
    let w1 := if duration >? 1000
              then saveSession projectId start boundary duration w else w in
    ((projectId,
      {| sessionStartTime := Some restart;
         lastActivityTime := activity;
         isIdle := isIdle session |}), w1)
  else (entry, w).

Fixpoint cut_sessions (boundary restart activity : Z)
    (entries : list (string * ActiveSession)) (w : World)
    : list (string * ActiveSession) * World :=
  match entries with
  | [] => ([], w)
  | entry :: rest =>
      let (entry', w1) := cut_session boundary restart activity entry w in
      let (rest', w2) := cut_sessions boundary restart activity rest w1 in
      (entry' :: rest', w2)
  end.

(** The cut of the global session, shared in the same way. *)
Definition cut_global (boundary restart activity : Z) (w : World) : World :=
  let state := trackingState w in
  if global_running state
  then
    let start := match globalSessionStartTime state with Some s => s | None => 0 end in
    let duration := boundary - start in
    let w1 := if duration >? 1000
              then saveGlobalSession start boundary duration w else w in
    State_set_tracking
      (with_global (Some restart) (Some activity) (globalIsIdle (trackingState w1))
         (trackingState w1)) w1
  else w.

Definition handleSleepWake (sleepStart wakeTime : Z) (w : World) : World :=
  let w1 := cut_global sleepStart wakeTime wakeTime w in
  let (activeSessions_now, w2) :=
    cut_sessions sleepStart wakeTime wakeTime (activeSessions (trackingState w1)) w1 in
  State_set_tracking (with_activeSessions activeSessions_now (trackingState w2)) w2.

Definition checkSleepWake (w : World) : World :=
  let now := clock w in
  let elapsed := now - lastHeartbeat w in
  let w1 := with_lastHeartbeat now w in
  if elapsed >? SLEEP_GAP_THRESHOLD
  then handleSleepWake (now - elapsed) now w1
  else w1.

Definition splitSessionsAtMidnight (w : World) : World :=
  let now := clock w in
  let midnightTs := setHoursZero (clock w) in
  let w1 := cut_global midnightTs midnightTs now w in
  let (activeSessions_now, w2) :=
    cut_sessions midnightTs midnightTs now (activeSessions (trackingState w1)) w1 in
  State_set_tracking (with_activeSessions activeSessions_now (trackingState w2)) w2.

(** ** The archival pass *)

(** [new Date(session.startTime)] *)
Definition session_date (s : Session) : option Z :=
  match startTime s with
  | Some text => Date_parse text
  | None => None
  end.

(** [d.getFullYear() === currentYear && d.getMonth() === currentMonth] *)
Definition in_current_month (d : option Z) (w : World) : bool :=
  js_strict_eq (option_map getFullYear d) (Some (getFullYear (clock w)))
  && js_strict_eq (option_map getMonth d) (Some (getMonth (clock w))).

(** [`${d.getFullYear()}-${d.getMonth()}`] *)
Definition month_key_of (d : option Z) : string :=
  (js_toString (option_map getFullYear d) ++ "-"
     ++ js_toString (option_map getMonth d))%string.

(** [if (!pastByMonth[key]) pastByMonth[key] = []; pastByMonth[key].push(session)] *)
Definition push_past (key : string) (s : Session)
    (pastByMonth : list (string * list Session)) : list (string * list Session) :=
  let sofar := match JsMap.get key pastByMonth with Some l => l | None => [] end in
  JsMap.set key (sofar ++ [s]) pastByMonth.

Definition partition_global (w : World) (acc : list Session * list (string * list Session))
    (s : Session) : list Session * list (string * list Session) :=
  let d := session_date s in
  if in_current_month d w then (fst acc ++ [s], snd acc)
  else (fst acc, push_past (month_key_of d) s (snd acc)).

Definition push_past_project (key projectId name : string) (s : Session)
    (past : list (string * list (string * ProjectArchive)))
    : list (string * list (string * ProjectArchive)) :=
  let forKey := match JsMap.get key past with Some m => m | None => [] end in
  let entry := match JsMap.get projectId forKey with
               | Some e => e
               | None => {| projectName := name; pa_sessions := [] |}
               end in
  JsMap.set key
    (JsMap.set projectId
       {| projectName := projectName entry; pa_sessions := pa_sessions entry ++ [s] |}
       forKey)
    past.

Definition partition_project (w : World) (p : Project)
    (acc : list Session * list (string * list (string * ProjectArchive)))
    (s : Session) : list Session * list (string * list (string * ProjectArchive)) :=
  let d := session_date s in
  if in_current_month d w then (fst acc ++ [s], snd acc)
  else (fst acc, push_past_project (month_key_of d) (p_id p) (p_name p) s (snd acc)).

(** The callback of [projects.map] in [archivePastMonthSessions]; the
    accumulator holds [pastProjectsByMonth] and [hasChanges]. *)
Definition archive_project (w : World)
    (acc : list Project * list (string * list (string * ProjectArchive)) * bool)
    (p : Project) : list Project * list (string * list (string * ProjectArchive)) * bool :=
  let '(done, past, hasChanges) := acc in
  match timeTracking p with
  | Some tracking =>
      match sessions tracking with
      | Some (s :: l) =>
          let (currentMonthSessions, past') :=
            fold_left (partition_project w p) (s :: l) ([], past) in
          if negb (Nat.eqb (List.length currentMonthSessions) (List.length (s :: l)))
          then (done ++ [{| p_id := p_id p; p_name := p_name p;
                            timeTracking :=
                              Some {| totalTime := totalTime tracking;
                                      todayTime := todayTime tracking;
                                      lastActiveDate := lastActiveDate tracking;
                                      sessions := Some currentMonthSessions |} |}],
                past', true)
          else (done ++ [p], past', hasChanges)
      | _ => (done ++ [p], past, hasChanges)
      end
  | None => (done ++ [p], past, hasChanges)
  end.

Definition archivePastMonthSessions (w : World) : World :=
  if negb (projectsStateRef w) || negb (saveProjectsRef w) then w
  else
    let currentState := projectsState w in
    (* global sessions *)
    let '(updatedGlobalTracking, hasChanges, w1) :=
      match globalTimeTracking currentState with
      | Some g =>
          match g_sessions g with
          | Some (s :: l) =>
              let (currentMonthGlobal, pastByMonth) :=
                fold_left (partition_global w) (s :: l) ([], []) in
              let updated :=
                match pastByMonth with
                | [] => (Some g, false)
                | _ :: _ =>
                    (Some {| g_totalTime := g_totalTime g; g_todayTime := g_todayTime g;
                             g_weekTime := g_weekTime g; g_monthTime := g_monthTime g;
                             g_lastActiveDate := g_lastActiveDate g;
                             g_weekStart := g_weekStart g;
                             g_monthStart := g_monthStart g;
                             g_sessions := Some currentMonthGlobal |}, true)
                end in
              (fst updated, snd updated,
               fold_left
                 (fun w' entry =>
                    let (year, month) := parse_month_key (fst entry) in
                    appendToArchive year month (snd entry) [] w')
                 pastByMonth w)
          | _ => (Some g, false, w)
          end
      | None => (None, false, w)
      end in
    (* per-project sessions *)
    let '(projects_now, pastProjectsByMonth, hasChanges') :=
      fold_left (archive_project w) (projects currentState) ([], [], hasChanges) in
    let w2 :=
      fold_left
        (fun w' entry =>
           let (year, month) := parse_month_key (fst entry) in
           appendToArchive year month [] (snd entry) w')
        pastProjectsByMonth w1 in
    if hasChanges'
    then saveProjects
           (State_set_projects
              {| projects := projects_now;
                 globalTimeTracking := updatedGlobalTracking |} w2)
    else w2.

(** [new Date(text + 'T00:00:00')] *)
Definition date_at_midnight (text : string) : option Z :=
  Date_parse (text ++ "T00:00:00")%string.

Definition checkMidnightReset (w : World) : World :=
  let today := getTodayString w in
  if truthy_string (lastKnownDate w) && string_neq (lastKnownDate w) today
  then
    let oldDate := match lastKnownDate w with
                   | Some text => date_at_midnight text
                   | None => None
                   end in
    let newDate := date_at_midnight today in
    let monthChanged :=
      js_strict_neq (option_map getMonth oldDate) (option_map getMonth newDate)
      || js_strict_neq (option_map getFullYear oldDate) (option_map getFullYear newDate) in
    let w1 := with_lastKnownDate (Some today) w in
    let w2 := with_globalTimesCache None w1 in
    let w3 := splitSessionsAtMidnight w2 in
    if monthChanged then archivePastMonthSessions w3 else w3
  else w.

End BoundaryDetectors.

(* ================================================================== *)
(** * The sanitizer *)
(* ================================================================== *)

(** How a call ends: it returns, or it throws; either way with the world
    it left behind. *)
Inductive Completion : Type :=
| Returned (w : World)
| Threw (w : World).

Definition world_of (c : Completion) : World :=
  match c with Returned w | Threw w => w end.

Section Sanitizer.
Context {P : Platform}.

Definition maxReasonableDuration : Z := 24 * 60 * 60 * 1000.

(** [new Date(v).getTime()] of a timestamp property *)
Definition time_of (v : option string) : option Z :=
  match v with
  | Some text => Date_parse text
  | None => None
  end.

(** The callback of [sessions.filter]; an element of the list is always an
    object here, so [!s] is false. *)
Definition keep_session (s : Session) : bool :=
  if negb (truthy_string (startTime s)) || negb (truthy_string (endTime s)) then false
  else if negb (Number_isFinite (duration s)) || field_leb (duration s) 0 then false
  else if field_gtb (duration s) maxReasonableDuration then false
  else
    match time_of (startTime s), time_of (endTime s) with
    | Some t0, Some t1 => if t1 <? t0 then false else true
    | _, _ => false
    end.

(** [!Number.isFinite(v) || v < 0] *)
Definition bad_counter (v : JsField) : bool :=
  negb (Number_isFinite v) || field_ltb v 0.

(** The sessions of a record after the filter, and whether they changed. *)
Definition sanitize_sessions (l : option (list Session)) : list Session * bool :=
  match l with
  | Some l =>
      let validSessions := filter keep_session l in
      if negb (Nat.eqb (List.length validSessions) (List.length l))
      then (validSessions, true) else (l, false)
  | None => ([], true)
  end.

(** The callback of [currentState.projects.map]: the project, and whether it
    changed. *)
Definition sanitize_project (now : Z) (p : Project) : Project * bool :=
  match timeTracking p with
  | None => (p, false)
  | Some t =>
      let (total, changed1) :=
        if bad_counter (totalTime t) then (Some (Num 0), true) else (totalTime t, false) in
      let (today, changed2) :=
        if bad_counter (todayTime t) then (Some (Num 0), true) else (todayTime t, changed1) in
      let future :=
        if truthy_string (lastActiveDate t)
        then match lastActiveDate t with
             | Some text =>
                 match date_at_midnight text with
                 | Some lastDate => lastDate >? now + 86400000
                 | None => false
                 end
             | None => false
             end
        else false in
      let '(lastActive, today', changed3) :=
        if future then (None, Some (Num 0), true)
        else (lastActiveDate t, today, changed2) in
      let (valid, changedSessions) := sanitize_sessions (sessions t) in
      let changed := changed3 || changedSessions in
      ({| p_id := p_id p; p_name := p_name p;
          timeTracking :=
            Some {| totalTime := total; todayTime := today';
                    lastActiveDate := lastActive; sessions := Some valid |} |},
       changed)
  end.

(** The block on the global record: the four counters, then the
    sessions. *)
Definition sanitize_global (g : GlobalTimeTracking) : GlobalTimeTracking * bool :=
  let fix_counter (v : JsField) := if bad_counter v then Some (Num 0) else v in
  let countersChanged :=
    bad_counter (g_totalTime g) || bad_counter (g_todayTime g)
    || bad_counter (g_weekTime g) || bad_counter (g_monthTime g) in
  let (valid, changedSessions) := sanitize_sessions (g_sessions g) in
  ({| g_totalTime := fix_counter (g_totalTime g);
      g_todayTime := fix_counter (g_todayTime g);
      g_weekTime := fix_counter (g_weekTime g);
      g_monthTime := fix_counter (g_monthTime g);
      g_lastActiveDate := g_lastActiveDate g;
      g_weekStart := g_weekStart g;
      g_monthStart := g_monthStart g;
      g_sessions := Some valid |},
   countersChanged || changedSessions).

Definition sanitizeTimeTrackingData (w : World) : Completion :=
  if negb (projectsStateRef w) then Returned w
  else
    let currentState := projectsState w in
    let now := clock w in
    let sanitized := map (sanitize_project now) (projects currentState) in
    let projects_now := map fst sanitized in
    let projectsChanged := existsb snd sanitized in
    let (globalTracking, gChanged) :=
      match globalTimeTracking currentState with
      | Some g => let (g', c) := sanitize_global g in (Some g', c)
      | None => (None, false)
      end in
    let needsSave := projectsChanged || gChanged in
    if needsSave
    then
      let w1 := State_set_projects
                  {| projects := projects_now;
                     globalTimeTracking := globalTracking |} w in
      if saveProjectsRef w1 then Returned (saveProjects w1) else Threw w1
    else Returned w.

End Sanitizer.

(* ================================================================== *)
(** * A platform: a zone at a constant offset from UTC *)
(* ================================================================== *)

Module FixedOffset.

Definition msPerDay : Z := 86400000.

(** Civil date [(year, month 1..12, day)] of a day number counted from
    1970-01-01, in the proleptic Gregorian calendar. *)
Definition civil_from_days (days : Z) : Z * Z * Z :=
  let z := days + 719468 in
  let era := z / 146097 in
  let doe := z - era * 146097 in
  let yoe := (doe - doe / 1460 + doe / 36524 - doe / 146096) / 365 in
  let y := yoe + era * 400 in
  let doy := doe - (365 * yoe + yoe / 4 - yoe / 100) in
  let mp := (5 * doy + 2) / 153 in
  let d := doy - (153 * mp + 2) / 5 + 1 in
  let m := if mp <? 10 then mp + 3 else mp - 9 in
  (if m <=? 2 then y + 1 else y, m, d).

Definition days_from_civil (y m d : Z) : Z :=
  let y := if m <=? 2 then y - 1 else y in
  let era := y / 400 in
  let yoe := y - era * 400 in
  let doy := (153 * (if 2 <? m then m - 3 else m + 9) + 2) / 5 + d - 1 in
  let doe := yoe * 365 + yoe / 4 - yoe / 100 + doy in
  era * 146097 + doe - 719468.

Definition year_of (local : Z) : Z := fst (fst (civil_from_days (local / msPerDay))).
Definition month_of (local : Z) : Z := snd (fst (civil_from_days (local / msPerDay))).
Definition day_of (local : Z) : Z := snd (civil_from_days (local / msPerDay)).

(** Left padding with zeros to a width. *)
Fixpoint zeros (n : nat) : string :=
  match n with
  | O => EmptyString
  | S n => String "0" (zeros n)
  end.

Definition pad (width : nat) (z : Z) : string :=
  let s := string_of_Z z in
  (zeros (width - String.length s) ++ s)%string.

Definition iso_year (y : Z) : string :=
  if (0 <=? y) && (y <=? 9999) then pad 4 y
  else if y <? 0 then ("-" ++ pad 6 (- y))%string
  else ("+" ++ pad 6 y)%string.

Definition iso_string (t : Z) : string :=
  let ms := t mod msPerDay in
  (iso_year (year_of t) ++ "-" ++ pad 2 (month_of t) ++ "-" ++ pad 2 (day_of t)
     ++ "T" ++ pad 2 (ms / 3600000) ++ ":" ++ pad 2 (ms / 60000 mod 60)
     ++ ":" ++ pad 2 (ms / 1000 mod 60) ++ "." ++ pad 3 (ms mod 1000) ++ "Z")%string.

(** Value of a non-empty string of digits. *)
Definition digits (s : string) : option Z :=
  match s with
  | EmptyString => None
  | _ => match NilEmpty.uint_of_string s with
         | Some u => Some (Z.of_uint u)
         | None => None
         end
  end.

Definition field (s : string) (from len : nat) : option Z :=
  digits (String.substring from len s).

Definition sep (s : string) (at_ : nat) (c : string) : bool :=
  String.eqb (String.substring at_ 1 s) c.

Definition days_in_month (y m : Z) : Z :=
  days_from_civil (if m =? 12 then y + 1 else y) (if m =? 12 then 1 else m + 1) 1
  - days_from_civil y m 1.

(** The date part [YYYY-MM-DD] at the head of [s], as a day number. *)
Definition parse_day (s : string) : option Z :=
  match field s 0 4, field s 5 2, field s 8 2 with
  | Some y, Some m, Some d =>
      if sep s 4 "-" && sep s 7 "-"
         && (1 <=? m) && (m <=? 12) && (1 <=? d) && (d <=? days_in_month y m)
      then Some (days_from_civil y m d) else None
  | _, _, _ => None
  end.

(** The time part [THH:mm:ss] from position 10, in milliseconds. *)
Definition parse_clock (s : string) : option Z :=
  match field s 11 2, field s 14 2, field s 17 2 with
  | Some h, Some mi, Some sec =>
      if sep s 10 "T" && sep s 13 ":" && sep s 16 ":"
         && (h <? 24) && (mi <? 60) && (sec <? 60)
      then Some (h * 3600000 + mi * 60000 + sec * 1000) else None
  | _, _, _ => None
  end.

(** The date-time strings of ECMAScript that the module writes and reads:
    [YYYY-MM-DD] and [YYYY-MM-DDTHH:mm:ss.sssZ] (UTC) and
    [YYYY-MM-DDTHH:mm:ss] (local time).  What an engine makes of any other
    text is left to it by the standard; this platform rejects it. *)
Definition parse (offset : Z) (s : string) : option Z :=
  match String.length s with
  | 10%nat => option_map (fun d => d * msPerDay) (parse_day s)
  | 19%nat =>
      match parse_day s, parse_clock s with
      | Some d, Some c => Some (d * msPerDay + c - offset)
      | _, _ => None
      end
  | 24%nat =>
      match parse_day s, parse_clock s, field s 20 3 with
      | Some d, Some c, Some ms =>
          if sep s 19 "." && sep s 23 "Z"
          then Some (d * msPerDay + c + ms) else None
      | _, _, _ => None
      end
  | _ => None
  end.

(** [d.setDate(n)]: day [n] of the month of the local date, same local
    time of day. *)
Definition set_date (offset t n : Z) : Z :=
  let local := t + offset in
  (days_from_civil (year_of local) (month_of local) 1 + (n - 1)) * msPerDay
  + local mod msPerDay - offset.

End FixedOffset.

(** The platform of a zone [offset] milliseconds east of UTC, with the
    archive directory of the application. *)
Definition fixedOffset (offset : Z) : Platform :=
  {| archivesDir := "/home/user/.claude-terminal/archives";
     toISOString := FixedOffset.iso_string;
     Date_parse := FixedOffset.parse offset;
     getFullYear := fun t => FixedOffset.year_of (t + offset);
     getMonth := fun t => FixedOffset.month_of (t + offset) - 1;
     getDate := fun t => FixedOffset.day_of (t + offset);
     getDay := fun t => ((t + offset) / FixedOffset.msPerDay + 4) mod 7;
     setHoursZero := fun t => t - (t + offset) mod FixedOffset.msPerDay;
     setDate := FixedOffset.set_date offset |}.

(** The world in which the module is loaded and nothing has run yet. *)
Definition initialTrackingState : TrackingState :=
  {| activeSessions := [];
     globalSessionStartTime := None;
     globalLastActivityTime := None;
     globalIsIdle := false |}.

Definition emptyDisk : FileSystem :=
  {| files := []; unwritable := fun _ => false |}.

Definition loadedWorld (now : Z) (rnd : nat -> string) (fs : FileSystem)
    (dataset : ProjectsState) : World :=
  {| clock := now; random := rnd; random_pos := 0;
     timers := []; next_timer := 1; disk := fs;
     projectsState := dataset; save_calls := 0;
     archiveCache := []; trackingState := initialTrackingState;
     lastHeartbeat := now; idleTimers := []; lastOutputTimes := [];
     globalLastOutputTime := 0; globalIdleTimer := None;
     lastKnownDate := None; projectsStateRef := false;
     saveProjectsRef := false; globalTimesCache := None |}.


(* ================================================================== *)
(** * Vocabulary of the properties *)
(* ================================================================== *)

(** The parts of the world that outlive the process: the live dataset, the
    number of saves asked of the projects state, and the archive files. *)
Definition persisted (w : World) : ProjectsState * nat * FileSystem :=
  (projectsState w, save_calls w, disk w).

Definition initialised (w : World) : bool :=
  projectsStateRef w && saveProjectsRef w.

(** Two worlds that differ at most in the runtime variables of the
    tracker: tracking state, timers and output times. *)
Definition same_store (w w' : World) : Prop :=
  persisted w' = persisted w
  /\ archiveCache w' = archiveCache w
  /\ random_pos w' = random_pos w
  /\ random w' = random w
  /\ clock w' = clock w
  /\ projectsStateRef w' = projectsStateRef w
  /\ saveProjectsRef w' = saveProjectsRef w
  /\ globalTimesCache w' = globalTimesCache w
  /\ lastKnownDate w' = lastKnownDate w
  /\ lastHeartbeat w' = lastHeartbeat w.


(* ================================================================== *)
(** * The rest of the two modules *)
(* ================================================================== *)

(** ** ArchiveService.js: the readers and the cache *)

Section ArchiveReaders.
Context {P : Platform}.

(** [year === now.getFullYear() && month === now.getMonth()] *)
Definition isCurrentMonth (year month : JsInt) (w : World) : bool :=
  js_strict_eq year (Some (getFullYear (clock w)))
  && js_strict_eq month (Some (getMonth (clock w))).

(** [archive?.globalSessions || []] *)
Definition getArchivedGlobalSessions (year month : JsInt) (w : World)
    : list Session * World :=
  let (archive, w1) := loadArchive year month w in
  (match archive with
   | Some a => globalSessions a
   | None => []
   end, w1).

(** [archive?.projectSessions?.[projectId]?.sessions || []] *)
Definition getArchivedProjectSessions (year month : JsInt) (projectId : string)
    (w : World) : list Session * World :=
  let (archive, w1) := loadArchive year month w in
  (match archive with
   | Some a =>
       match JsMap.get projectId (projectSessions a) with
       | Some e => pa_sessions e
       | None => []
       end
   | None => []
   end, w1).

(** [archive?.projectSessions || {}] *)
Definition getArchivedAllProjectSessions (year month : JsInt) (w : World)
    : list (string * ProjectArchive) * World :=
  let (archive, w1) := loadArchive year month w in
  (match archive with
   | Some a => projectSessions a
   | None => []
   end, w1).

Definition clearArchiveCache (w : World) : World := with_archiveCache [] w.

End ArchiveReaders.

(** ** The time-tracking module: checkpoints, shutdown and the readers *)

Section TimeTrackingReaders.
Context {P : Platform}.

(** The body of the loop of [saveCheckpoints] for one entry: the entry as
    the loop leaves it, whether it set [projectsChanged], and the world. *)
Definition checkpoint_session (now : Z) (entry : string * ActiveSession) (w : World)
    : (string * ActiveSession) * bool * World :=
  let projectId := fst entry in
  let session := snd entry in
  if session_running session
  then
    let start := match sessionStartTime session with Some s => s | None => 0 end in
    let duration := now - start in
    if duration >? 1000
    then ((projectId,
           {| sessionStartTime := Some now;
              lastActivityTime := lastActivityTime session;
              isIdle := isIdle session |}),
          true,
          saveSession projectId start now duration w)
    else (entry, false, w)
  else (entry, false, w).

Fixpoint checkpoint_sessions (now : Z) (entries : list (string * ActiveSession))
    (w : World) : list (string * ActiveSession) * bool * World :=
  match entries with
  | [] => ([], false, w)
  | entry :: rest =>
      let '(entry', changed, w1) := checkpoint_session now entry w in
      let '(rest', changed', w2) := checkpoint_sessions now rest w1 in
      (entry' :: rest', changed || changed', w2)
  end.

Definition saveCheckpoints (w : World) : World :=
  let state := trackingState w in
  let now := clock w in
  let '(activeSessions_now, projectsChanged, w1) :=
    checkpoint_sessions now (activeSessions state) w in
  let (globalChanged, w2) :=
    if global_running state
    then
      let start := match globalSessionStartTime state with Some s => s | None => 0 end in
      let duration := now - start in
      if duration >? 1000
      then (true, saveGlobalSession start now duration w1)
      else (false, w1)
    else (false, w1) in
  if projectsChanged || globalChanged
  then
    let newState := trackingState w2 in
    State_set_tracking
      {| activeSessions :=
           if projectsChanged then activeSessions_now else activeSessions newState;
         globalSessionStartTime :=
           if globalChanged then Some now else globalSessionStartTime newState;
         globalLastActivityTime := globalLastActivityTime newState;
         globalIsIdle := globalIsIdle newState |} w2
  else w2.

(** The first loop of [saveAllActiveSessions]: every running session longer
    than one second is saved; the entries are left as they are. *)
Definition save_running (now : Z) (w : World) (entry : string * ActiveSession) : World :=
  let projectId := fst entry in
  let session := snd entry in
  if session_running session
  then
    let start := match sessionStartTime session with Some s => s | None => 0 end in
    let duration := now - start in
    if duration >? 1000 then saveSession projectId start now duration w else w
  else w.

(** [for (const timerId of idleTimers.values()) clearTimeout(timerId)] *)
Definition clear_idle_timers (w : World) : World :=
  fold_left (fun w' timer => clearTimeout (Some timer) w') (JsMap.values (idleTimers w)) w.

(** [projectsStateRef.get().projects.find(p => p.id === projectId)] *)
Definition getProjectById (projectId : string) (w : World) : option Project :=
  if negb (projectsStateRef w) then None
  else find (fun p => String.eqb (p_id p) projectId) (projects (projectsState w)).

(** [sessionDate >= todayStart && sessionDate < todayEnd]; an invalid Date
    compares false. *)
Definition date_within (d : option Z) (from to : Z) : bool :=
  match d with
  | Some t => (from <=? t) && (t <? to)
  | None => false
  end.

(** The pair [{ today, total }] of [getProjectTimes]. *)
Definition getProjectTimes (projectId : string) (w : World) : JsNumber * JsNumber :=
  match getProjectById projectId w with
  | None => (Num 0, Num 0)
  | Some project =>
      match timeTracking project with
      | None => (Num 0, Num 0)
      | Some tracking =>
          let todayStart := setHoursZero (clock w) in
          let todayEnd := setDate todayStart (getDate todayStart + 1) in
          let todayFromSessions :=
            match sessions tracking with
            | Some l =>
                fold_left
                  (fun total session =>
                     if date_within (session_date session) todayStart todayEnd
                     then js_add total (or_zero (duration session))
                     else total)
                  l (Num 0)
            | None => Num 0
            end in
          let state := trackingState w in
          let (currentSessionTime, currentSessionTimeToday) :=
            match JsMap.get projectId (activeSessions state) with
            | Some session =>
                if session_running session
                then
                  let now := clock w in
                  let start := match sessionStartTime session with
                               | Some s => s
                               | None => 0
                               end in
                  let effectiveStart := Z.max start todayStart in
                  (now - start, Z.max 0 (now - effectiveStart))
                else (0, 0)
            | None => (0, 0)
            end in
          (js_add todayFromSessions (Num currentSessionTimeToday),
           js_add (or_zero (totalTime tracking)) (Num currentSessionTime))
      end
  end.

(** [if (newProjectId) startTracking(newProjectId)] *)
Definition switchProject (oldProjectId newProjectId : string) (w : World) : World :=
  if negb (String.eqb newProjectId "") then startTracking newProjectId w else w.

Definition getActiveProjectCount (w : World) : nat :=
  List.length (filter (fun e => session_running (snd e))
                 (activeSessions (trackingState w))).

End TimeTrackingReaders.

(** ** The variables of the module outside the tracker's world

    [saveProjectsImmediateRef], the number of immediate saves it was asked
    for, and the three interval timers (midnight check, heartbeat,
    checkpoint) that are running. *)

Inductive Interval : Type :=
| MidnightCheck
| Heartbeat
| Checkpoint.

Record Shell : Type := {
  world : World;
  saveProjectsImmediateRef : bool;
  immediate_saves : nat;
  intervals : list Interval
}.

Definition Interval_eqb (a b : Interval) : bool :=
  match a, b with
  | MidnightCheck, MidnightCheck | Heartbeat, Heartbeat | Checkpoint, Checkpoint => true
  | _, _ => false
  end.

(** [clearInterval(timer)] of one of the three timers *)
Definition clearInterval (i : Interval) (l : list Interval) : list Interval :=
  filter (fun j => negb (Interval_eqb i j)) l.

Section Shutdown.
Context {P : Platform}.

Definition saveAllActiveSessions (sh : Shell) : Shell :=
  let w := world sh in
  let state := trackingState w in
  let now := clock w in
  let w1 := fold_left (save_running now) (activeSessions state) w in
  let w2 :=
    if global_running state
    then
      let start := match globalSessionStartTime state with Some s => s | None => 0 end in
      let duration := now - start in
      if duration >? 1000 then saveGlobalSession start now duration w1 else w1
    else w1 in
  let w3 := clear_idle_timers w2 in
  let w4 := with_idleTimers [] w3 in
  let w5 := clearTimeout (globalIdleTimer w4) w4 in
  let running :=
    clearInterval Checkpoint
      (clearInterval Heartbeat (clearInterval MidnightCheck (intervals sh))) in
  let w6 := State_set_tracking
              {| activeSessions := [];
                 globalSessionStartTime := None;
                 globalLastActivityTime := None;
                 globalIsIdle := false |} w5 in
  {| world := w6;
     saveProjectsImmediateRef := saveProjectsImmediateRef sh;
     immediate_saves :=
       if saveProjectsImmediateRef sh then S (immediate_saves sh)
       else immediate_saves sh;
     intervals := running |}.

(** [startMidnightCheck], [startHeartbeat] and [startCheckpointTimer]:
    [clearInterval(timer); timer = setInterval(callback, period)]. *)
Definition startMidnightCheck (sh : Shell) : Shell :=
  {| world := world sh;
     saveProjectsImmediateRef := saveProjectsImmediateRef sh;
     immediate_saves := immediate_saves sh;
     intervals := clearInterval MidnightCheck (intervals sh) ++ [MidnightCheck] |}.

Definition startHeartbeat (sh : Shell) : Shell :=
  {| world := with_lastHeartbeat (clock (world sh)) (world sh);
     saveProjectsImmediateRef := saveProjectsImmediateRef sh;
     immediate_saves := immediate_saves sh;
     intervals := clearInterval Heartbeat (intervals sh) ++ [Heartbeat] |}.

Definition startCheckpointTimer (sh : Shell) : Shell :=
  {| world := world sh;
     saveProjectsImmediateRef := saveProjectsImmediateRef sh;
     immediate_saves := immediate_saves sh;
     intervals := clearInterval Checkpoint (intervals sh) ++ [Checkpoint] |}.

End Shutdown.

(* ================================================================== *)
(** * Concrete worlds *)
(* ================================================================== *)

Definition utc : Platform := fixedOffset 0.

(** A random source that never repeats: ["a"], ["ba"], ["bba"], ... *)
Fixpoint demoRandom (k : nat) : string :=
  match k with
  | O => "a"
  | S k => String "b" (demoRandom k)
  end.

Definition demoProject (projectId name : string) : Project :=
  {| p_id := projectId; p_name := name; timeTracking := None |}.

Definition demoDataset : ProjectsState :=
  {| projects := [demoProject "proj-1" "One"; demoProject "proj-2" "Two"];
     globalTimeTracking := None |}.

(** The module just loaded, at 2026-01-31T23:00:00.000Z. *)
Definition demoLoaded : World :=
  loadedWorld 1769900400000 demoRandom emptyDisk demoDataset.

(** The same after [initTimeTracking] stored its three references. *)
Definition with_refs (w : World) : World :=
  {| clock := clock w; random := random w; random_pos := random_pos w;
     timers := timers w; next_timer := next_timer w; disk := disk w;
     projectsState := projectsState w; save_calls := save_calls w;
     archiveCache := archiveCache w; trackingState := trackingState w;
     lastHeartbeat := lastHeartbeat w; idleTimers := idleTimers w;
     lastOutputTimes := lastOutputTimes w;
     globalLastOutputTime := globalLastOutputTime w;
     globalIdleTimer := globalIdleTimer w; lastKnownDate := lastKnownDate w;
     projectsStateRef := true;
     saveProjectsRef := true;
     globalTimesCache := globalTimesCache w |}.

Definition demoReady : World := with_refs demoLoaded.

(** ** Sessions that satisfy the invariants of a PersistedSession *)

(** The duration is a finite number in (0, 24 h], both timestamps parse,
    and the end is not before the start. *)
Definition valid_session {P : Platform} (s : Session) : Prop :=
  exists d t0 t1,
    duration s = Some (Num d)
    /\ 0 < d <= 24 * 60 * 60 * 1000
    /\ time_of (startTime s) = Some t0
    /\ time_of (endTime s) = Some t1
    /\ t0 <= t1.

(** The sessions a project record holds in the live dataset. *)
Definition sessions_of_project (p : Project) : list Session :=
  match timeTracking p with
  | Some t => or_empty (sessions t)
  | None => []
  end.

(** The sessions the global record holds in the live dataset. *)
Definition sessions_of_global (d : ProjectsState) : list Session :=
  match globalTimeTracking d with
  | Some g => or_empty (g_sessions g)
  | None => []
  end.

(** A dataset whose records carry a date far in the future. *)
Definition futureTracking : ProjectTimeTracking :=
  {| totalTime := Some (Num 5000); todayTime := Some (Num 5000);
     lastActiveDate := Some "2999-01-01"%string; sessions := Some [] |}.

Definition futureGlobal : GlobalTimeTracking :=
  {| g_totalTime := Some (Num 5000); g_todayTime := Some (Num 5000);
     g_weekTime := Some (Num 5000); g_monthTime := Some (Num 5000);
     g_lastActiveDate := Some "2999-01-01"%string;
     g_weekStart := Some "2026-01-26"%string;
     g_monthStart := Some "2026-01"%string;
     g_sessions := Some [] |}.

Definition futureWorld : World :=
  with_refs
    (loadedWorld 1769900400000 demoRandom emptyDisk
       {| projects := [{| p_id := "proj-1"; p_name := "One";
                          timeTracking := Some futureTracking |}];
          globalTimeTracking := Some futureGlobal |}).

(** A dataset with sessions that break the invariants. *)
Definition goodSession : Session :=
  {| id := "sess-1"; startTime := Some "2026-01-31T10:00:00.000Z"%string;
     endTime := Some "2026-01-31T10:30:00.000Z"%string;
     duration := Some (Num 1800000) |}.

Definition badSessions : list Session :=
  [ {| id := "sess-2"; startTime := Some "2026-01-31T10:00:00.000Z"%string;
       endTime := Some "2026-01-31T10:30:00.000Z"%string; duration := Some NaN |};
    {| id := "sess-3"; startTime := Some "2026-01-31T10:00:00.000Z"%string;
       endTime := Some "2026-01-31T09:00:00.000Z"%string; duration := Some (Num 5000) |};
    {| id := "sess-4"; startTime := Some "yesterday"%string;
       endTime := Some "2026-01-31T10:30:00.000Z"%string; duration := Some (Num 5000) |};
    {| id := "sess-5"; startTime := Some "2026-01-29T10:00:00.000Z"%string;
       endTime := Some "2026-01-31T10:30:00.000Z"%string;
       duration := Some (Num 90000000) |} ].

Definition dirtyWorld : World :=
  with_refs
    (loadedWorld 1769900400000 demoRandom emptyDisk
       {| projects :=
            [{| p_id := "proj-1"; p_name := "One";
                timeTracking :=
                  Some {| totalTime := Some (Num 1800000); todayTime := Some (Num 0);
                          lastActiveDate := Some "2026-01-31"%string;
                          sessions := Some (goodSession :: badSessions) |} |}];
          globalTimeTracking :=
            Some {| g_totalTime := Some (Num 1800000); g_todayTime := Some (Num 0);
                    g_weekTime := Some (Num 0); g_monthTime := Some (Num 0);
                    g_lastActiveDate := Some "2026-01-31"%string;
                    g_weekStart := Some "2026-01-26"%string;
                    g_monthStart := Some "2026-01"%string;
                    g_sessions := Some (badSessions ++ [goodSession]) |} |}).

(** ** The archive store *)

Definition ids (l : list Session) : list string := map id l.

(** How many sessions of a list carry the id [i]. *)
Definition occurrences (i : string) (l : list Session) : nat :=
  count_occ string_dec (ids l) i.

(** The invariant of an archive: no id twice in the global list, nor in the
    list of any entity. *)
Definition archive_wf (a : Archive) : Prop :=
  NoDup (ids (globalSessions a))
  /\ Forall (fun kv => NoDup (ids (pa_sessions (snd kv)))) (projectSessions a).

(** The lists of a per-entity map have no id twice. *)
Definition distinct_ids (projectSessionsMap : list (string * ProjectArchive)) : Prop :=
  Forall (fun kv => NoDup (ids (pa_sessions (snd kv)))) projectSessionsMap.

(** The archive of a month as it is on disk. *)
Definition stored_archive {P : Platform} (year month : JsInt) (w : World)
    : option Archive :=
  readArchiveFromDisk (getArchiveFilePath year month) w.

Definition stored_global (a : option Archive) : list Session :=
  match a with
  | Some a => globalSessions a
  | None => []
  end.

(** The sessions a per-entity map holds for an entity. *)
Definition sessions_under (projectId : string)
    (m : list (string * ProjectArchive)) : list Session :=
  match JsMap.get projectId m with
  | Some e => pa_sessions e
  | None => []
  end.

Definition stored_project (projectId : string) (a : option Archive) : list Session :=
  match a with
  | Some a => sessions_under projectId (projectSessions a)
  | None => []
  end.

(** The archive that [appendToArchive] starts from. *)
Definition base_archive {P : Platform} (year month : JsInt) (w : World) : Archive :=
  match stored_archive year month w with
  | Some a => a
  | None => createEmptyArchive year month w
  end.

(** The file of the month and its temporary file can be written. *)
Definition can_write {P : Platform} (year month : JsInt) (w : World) : Prop :=
  unwritable (disk w) (getArchiveFilePath year month) = false
  /\ unwritable (disk w) (getArchiveFilePath year month ++ ".tmp")%string = false.

Definition twiceSession : Session :=
  {| id := "sess-7"; startTime := Some "2025-12-31T10:00:00.000Z"%string;
     endTime := Some "2025-12-31T10:30:00.000Z"%string;
     duration := Some (Num 1800000) |}.

Definition otherSession : Session :=
  {| id := "sess-8"; startTime := Some "2025-12-31T11:00:00.000Z"%string;
     endTime := Some "2025-12-31T11:30:00.000Z"%string;
     duration := Some (Num 1800000) |}.

(** ** The event loop *)

(** The runtime variables of the tracker, and what its environment fixes. *)
Definition runtime (w : World) :=
  (trackingState w, timers w, next_timer w, idleTimers w, lastOutputTimes w,
   globalLastOutputTime w, globalIdleTimer w, lastHeartbeat w, lastKnownDate w).

Definition setup (w : World) :=
  (clock w, random w, unwritable (disk w), projectsStateRef w, saveProjectsRef w).

(** What the event loop delivers to the tracker, with the time at which it
    does: terminal output of a project, the callback of a project's idle
    timer, the callback of the global idle timer. *)
Inductive Event : Type :=
| Output (projectId : string)
| IdleTimeout (projectId : string)
| GlobalIdleTimeout.

Definition deliver {P : Platform} (w : World) (e : Z * Event) : World :=
  let w := with_clock (fst e) w in
  match snd e with
  | Output projectId => recordOutputActivity projectId w
  | IdleTimeout projectId => checkAndPauseTracking projectId w
  | GlobalIdleTimeout => checkAndPauseGlobalTimer w
  end.

Definition run {P : Platform} (events : list (Z * Event)) (w : World) : World :=
  fold_left deliver events w.

(** In a schedule of events, every callback of the idle timer of
    [projectId] comes at most [limit] milliseconds after the latest output
    of that project ([last] being the latest one before the schedule). *)
Fixpoint output_within (limit : Z) (projectId : string) (last : Z)
    (events : list (Z * Event)) : Prop :=
  match events with
  | [] => True
  | (t, Output p) :: rest =>
      output_within limit projectId (if String.eqb p projectId then t else last) rest
  | (t, IdleTimeout p) :: rest =>
      (if String.eqb p projectId then t - last <= limit else True)
      /\ output_within limit projectId last rest
  | (_, GlobalIdleTimeout) :: rest => output_within limit projectId last rest
  end.

(** [isTracking(projectId)] *)
Definition isTracking (projectId : string) (w : World) : bool :=
  match JsMap.get projectId (activeSessions (trackingState w)) with
  | Some session => session_running session
  | None => false
  end.

(** The start of the running interval of a project. *)
Definition running_since (projectId : string) (start : Z) (w : World) : Prop :=
  exists session,
    JsMap.get projectId (activeSessions (trackingState w)) = Some session
    /\ sessionStartTime session = Some start
    /\ session_running session = true.

(** The timer that [idleTimers] holds for a project is pending, for the
    callback of that project, at the time [at_]. *)
Definition idle_timer_due (projectId : string) (at_ : Z) (w : World) : Prop :=
  exists timer,
    JsMap.get projectId (idleTimers w) = Some timer
    /\ In (timer, {| due := at_; callback := CheckAndPauseTracking projectId |}) (timers w).

Definition global_timer_due (at_ : Z) (w : World) : Prop :=
  exists timer,
    globalIdleTimer w = Some timer
    /\ In (timer, {| due := at_; callback := CheckAndPauseGlobalTimer |}) (timers w).

(** "proj-1" tracked from 2026-01-31T23:00:00.000Z. *)
Definition demoTracking : World := startTracking "proj-1" demoReady.

(** The invariant of a schedule that keeps the output of [projectId] within
    the grace window: its interval runs, from the same start, and the
    recorded time of its latest output is the one of the schedule. *)
Definition kept_alive (projectId : string) (start last : Z) (w : World) : Prop :=
  running_since projectId start w /\ lastOutput projectId w = last.


(** "proj-1" gets output every two minutes, to the millisecond, from its
    start; the callback of its idle timer, due after 15 minutes, runs at the
    16th minute, just before the output of that instant is delivered. *)
Definition twoMinuteSchedule : list (Z * Event) :=
  [ (1769900400000 + 120000, Output "proj-1");
    (1769900400000 + 240000, Output "proj-1");
    (1769900400000 + 360000, Output "proj-1");
    (1769900400000 + 480000, Output "proj-1");
    (1769900400000 + 600000, Output "proj-1");
    (1769900400000 + 720000, Output "proj-1");
    (1769900400000 + 840000, Output "proj-1");
    (1769900400000 + 960000, IdleTimeout "proj-1");
    (1769900400000 + 960000, Output "proj-1") ]%string.

(** "proj-1" gets output every 90 seconds; the callback of its idle timer
    runs when it is due, after 15 minutes, and again each time it was
    rescheduled for. *)
Definition ninetySecondSchedule : list (Z * Event) :=
  [ (1769900400000 + 90000, Output "proj-1");
    (1769900400000 + 180000, Output "proj-1");
    (1769900400000 + 270000, Output "proj-1");
    (1769900400000 + 360000, Output "proj-1");
    (1769900400000 + 450000, Output "proj-1");
    (1769900400000 + 540000, Output "proj-1");
    (1769900400000 + 630000, Output "proj-1");
    (1769900400000 + 720000, Output "proj-1");
    (1769900400000 + 810000, Output "proj-1");
    (1769900400000 + 900000, IdleTimeout "proj-1");
    (1769900400000 + 900000, GlobalIdleTimeout);
    (1769900400000 + 900000, Output "proj-1");
    (1769900400000 + 930100, IdleTimeout "proj-1");
    (1769900400000 + 930100, GlobalIdleTimeout);
    (1769900400000 + 990000, Output "proj-1");
    (1769900400000 + 1020100, IdleTimeout "proj-1") ]%string.


(** ** Persisted sessions *)

(** The session is the record of the interval from [start] to [finish]. *)
Definition covers {P : Platform} (s : Session) (start finish : Z) : Prop :=
  startTime s = Some (toISOString start)
  /\ endTime s = Some (toISOString finish)
  /\ duration s = Some (Num (finish - start)).

(** The sessions that the live dataset holds for a project id. *)
Definition live_sessions (projectId : string) (w : World) : list Session :=
  flat_map (fun p => if String.eqb (p_id p) projectId then sessions_of_project p else [])
           (projects (projectsState w)).

(** The session of an interval that started at [start] is persisted for
    the project: in the live list of the project, or in the list of the
    project in the archive of the month of [start]. *)
Definition recorded {P : Platform} (projectId : string) (s : Session) (start : Z)
    (w : World) : Prop :=
  In s (live_sessions projectId w)
  \/ In s (stored_project projectId
             (stored_archive (Some (getFullYear start)) (Some (getMonth start)) w)).

(** The same for the global interval. *)
Definition recorded_global {P : Platform} (s : Session) (start : Z) (w : World) : Prop :=
  In s (sessions_of_global (projectsState w))
  \/ In s (stored_global
             (stored_archive (Some (getFullYear start)) (Some (getMonth start)) w)).

Definition has_project (projectId : string) (w : World) : Prop :=
  exists p, In p (projects (projectsState w)) /\ p_id p = projectId.

(** Every path of the disk can be written. *)
Definition storage_writable (w : World) : Prop :=
  forall path, unwritable (disk w) path = false.

(** The ids that [generateSessionId] will give from now on, at the time of
    the world, differ from each other and from every archived id. *)
Definition fresh_ids {P : Platform} (w : World) : Prop :=
  (forall j k, (random_pos w <= j)%nat -> (j < k)%nat -> random w j <> random w k)
  /\ (forall k year month, (random_pos w <= k)%nat ->
        ~ In (session_id (clock w) (random w k))
             (ids (stored_global (stored_archive year month w)))
        /\ forall projectId,
             ~ In (session_id (clock w) (random w k))
                  (ids (stored_project projectId (stored_archive year month w)))).

(** Sessions can be persisted: init has run, the disk can be written and
    the ids to come are fresh. *)
Definition can_persist {P : Platform} (w : World) : Prop :=
  initialised w = true /\ storage_writable w /\ fresh_ids w.

(** The global interval runs since [start]. *)
Definition global_running_since (start : Z) (w : World) : Prop :=
  globalSessionStartTime (trackingState w) = Some start
  /\ global_running (trackingState w) = true.

Fixpoint last_char (s : string) : option ascii :=
  match s with
  | EmptyString => None
  | String c EmptyString => Some c
  | String _ rest => last_char rest
  end.

(** The archives of [w'] hold every session (that JSON keeps as it is) that
    the archives of [w] hold. *)
Definition archive_grows {P : Platform} (w w' : World) : Prop :=
  forall year month s,
    json_session s = s ->
    (In s (stored_global (stored_archive year month w)) ->
     In s (stored_global (stored_archive year month w')))
    /\ forall projectId,
         In s (stored_project projectId (stored_archive year month w)) ->
         In s (stored_project projectId (stored_archive year month w')).

(** Every archived id of [w'] is an archived id of [w], in the same list,
    or one of [extra]. *)
Definition archive_ids_bounded {P : Platform} (extra : list string) (w w' : World) : Prop :=
  forall year month i,
    (In i (ids (stored_global (stored_archive year month w'))) ->
     In i (ids (stored_global (stored_archive year month w))) \/ In i extra)
    /\ forall projectId,
         In i (ids (stored_project projectId (stored_archive year month w'))) ->
         In i (ids (stored_project projectId (stored_archive year month w))) \/ In i extra.

(** The live lists of [w'] hold every session that those of [w] hold. *)
Definition live_grows (w w' : World) : Prop :=
  (forall projectId, incl (live_sessions projectId w) (live_sessions projectId w'))
  /\ incl (sessions_of_global (projectsState w)) (sessions_of_global (projectsState w'))
  /\ (forall projectId, has_project projectId w -> has_project projectId w').

(** The variables that the archive service does not touch. *)
Definition ledger (w : World) :=
  (projectsState w, random_pos w, save_calls w, globalTimesCache w).

(** The id of [s] is not yet in the archived list of the project, or [s]
    itself is there. *)
Definition fresh_or_stored {P : Platform} (projectId : string) (s : Session) (start : Z) (w : World)
    : Prop :=
  ~ In (id s) (ids (stored_project projectId
                      (stored_archive (Some (getFullYear start))
                         (Some (getMonth start)) w)))
  \/ In s (stored_project projectId
             (stored_archive (Some (getFullYear start)) (Some (getMonth start)) w)).


(** What the cut of a boundary detector does to the interval of a
    project. *)
Definition cut_entry (restart activity : Z) (entry : string * ActiveSession)
    : string * ActiveSession :=
  if session_running (snd entry)
  then (fst entry,
        {| sessionStartTime := Some restart;
           lastActivityTime := activity;
           isIdle := isIdle (snd entry) |})
  else entry.

(** A step of the store: sessions can be persisted after it as before, no
    persisted session is lost, and the tracker's variables are untouched. *)
Definition store_step {P : Platform} (w w' : World) : Prop :=
  can_persist w'
  /\ live_grows w w'
  /\ archive_grows w w'.

(** What [handleSleepWake] and [splitSessionsAtMidnight] both do: cut the
    global interval, then the interval of every project, at [boundary]. *)
Definition boundary_cut {P : Platform} (boundary restart activity : Z) (w : World)
    : World :=
  let w1 := cut_global boundary restart activity w in
  let (activeSessions_now, w2) :=
    cut_sessions boundary restart activity (activeSessions (trackingState w1)) w1 in
  State_set_tracking (with_activeSessions activeSessions_now (trackingState w2)) w2.










(** ** The archive cache *)

(** The invariant of the cache of loaded archives: a key occurs once, no
    key is the empty string, and at most [MAX_CACHE_SIZE] archives are
    held. *)
Definition cache_ok (cache : list (string * CacheEntry)) : Prop :=
  NoDup (JsMap.keys cache)
  /\ Forall (fun kv => fst kv <> ""%string) cache
  /\ (List.length cache <= MAX_CACHE_SIZE)%nat.

(** The demo world after one session of December 2025 was archived. *)
Definition archivedWorld : World :=
  @appendToArchive utc (Some 2025) (Some 11) [twiceSession] [] demoReady.

(** ** The pending timers *)

(** The part of the world the timers live in. *)
Definition timer_table (w : World) :=
  (timers w, next_timer w, idleTimers w, globalIdleTimer w).

(** Every pending timer is one the module remembers: a pending idle timer
    of a project is the one [idleTimers] holds for it, a pending global idle
    timer is [globalIdleTimer]; no timer id is pending twice, and every id in
    use is below the next one the event loop will give. *)
Definition timers_ok (w : World) : Prop :=
  NoDup (map fst (timers w))
  /\ (forall e, In e (timers w) -> (fst e < next_timer w)%nat)
  /\ (forall projectId timer,
        JsMap.get projectId (idleTimers w) = Some timer -> (timer < next_timer w)%nat)
  /\ (forall timer, globalIdleTimer w = Some timer -> (timer < next_timer w)%nat)
  /\ (forall e projectId,
        In e (timers w) -> callback (snd e) = CheckAndPauseTracking projectId ->
        JsMap.get projectId (idleTimers w) = Some (fst e))
  /\ (forall e,
        In e (timers w) -> callback (snd e) = CheckAndPauseGlobalTimer ->
        globalIdleTimer w = Some (fst e)).

(** [clearTimeout(globalIdleTimer);
     globalIdleTimer = setTimeout(checkAndPauseGlobalTimer, delay)], the
    statements with which the module arms the global idle timer. *)
Definition arm_global_timer (delay : Z) (w : World) : World :=
  let w1 := clearTimeout (globalIdleTimer w) w in
  let (timer, w2) := setTimeout CheckAndPauseGlobalTimer delay w1 in
  with_globalIdleTimer (Some timer) w2.

(** ** A dataset with time on it *)

(** "proj-1" with two hours in total, one of them today (2026-01-31). *)
Definition workedTracking : ProjectTimeTracking :=
  {| totalTime := Some (Num 7200000); todayTime := Some (Num 3600000);
     lastActiveDate := Some "2026-01-31"%string; sessions := Some [] |}.

Definition workedProject : Project :=
  {| p_id := "proj-1"; p_name := "One"; timeTracking := Some workedTracking |}.

Definition workedWorld : World :=
  with_refs
    (loadedWorld 1769900400000 demoRandom emptyDisk
       {| projects := [workedProject; demoProject "proj-2" "Two"];
          globalTimeTracking := None |}).

(** ** What the sanitizer computes *)

(** A counter that is a finite number and not negative. *)
Definition clean_counter (v : JsField) : Prop :=
  exists z, v = Some (Num z) /\ 0 <= z.

(** A counter after the fix of the sanitizer. *)
Definition fix_counter (v : JsField) : JsField :=
  if bad_counter v then Some (Num 0) else v.

(** The test of the sanitizer on [lastActiveDate]: the date is more than
    one day after [now]. *)
Definition future_date {P : Platform} (now : Z) (t : ProjectTimeTracking) : bool :=
  if truthy_string (lastActiveDate t)
  then match lastActiveDate t with
       | Some text =>
           match date_at_midnight text with
           | Some lastDate => lastDate >? now + 86400000
           | None => false
           end
       | None => false
       end
  else false.

(** A dataset with broken counters: not a number, negative, infinite, and
    a [sessions] property that is not an array. *)
Definition brokenWorld : World :=
  with_refs
    (loadedWorld 1769900400000 demoRandom emptyDisk
       {| projects :=
            [{| p_id := "proj-1"; p_name := "One";
                timeTracking :=
                  Some {| totalTime := Some NaN; todayTime := Some (Num (-5));
                          lastActiveDate := Some "2026-01-31"%string;
                          sessions := None |} |}];
          globalTimeTracking :=
            Some {| g_totalTime := None; g_todayTime := Some (Num 60000);
                    g_weekTime := Some (Infinity false); g_monthTime := Some (Num (-1));
                    g_lastActiveDate := Some "2026-01-31"%string;
                    g_weekStart := Some "2026-01-26"%string;
                    g_monthStart := Some "2026-01"%string;
                    g_sessions := Some [] |} |}).

(** ** Checkpoints *)

(** [session.sessionStartTime] as the arithmetic of the source reads it. *)
Definition start_of (session : ActiveSession) : Z :=
  match sessionStartTime session with Some s => s | None => 0 end.

(** A session is due for a checkpoint at [now]: it runs, and for more than
    one second. *)
Definition checkpoint_due (now : Z) (session : ActiveSession) : bool :=
  session_running session && (now - start_of session >? 1000).

(** What [saveCheckpoints] does to an entry of the table. *)
Definition checkpoint_entry (now : Z) (entry : string * ActiveSession)
    : string * ActiveSession :=
  if checkpoint_due now (snd entry)
  then (fst entry,
        {| sessionStartTime := Some now;
           lastActivityTime := lastActivityTime (snd entry);
           isIdle := isIdle (snd entry) |})
  else entry.

(** ** The archival pass *)

(** The test of the archival pass on a session: it started in the month of
    the clock. *)
Definition session_is_current {P : Platform} (w : World) (s : Session) : bool :=
  in_current_month (session_date s) w.

(** A project record with the sessions of the current month only (a record
    without sessions is as it is). *)
Definition current_only {P : Platform} (w : World) (p : Project) : Project :=
  match timeTracking p with
  | Some tracking =>
      match sessions tracking with
      | Some (s :: l) =>
          {| p_id := p_id p; p_name := p_name p;
             timeTracking :=
               Some {| totalTime := totalTime tracking;
                       todayTime := todayTime tracking;
                       lastActiveDate := lastActiveDate tracking;
                       sessions := Some (filter (session_is_current w) (s :: l)) |} |}
      | _ => p
      end
  | None => p
  end.

(** The same for the global record. *)
Definition current_only_global {P : Platform} (w : World) (g : GlobalTimeTracking)
    : GlobalTimeTracking :=
  match g_sessions g with
  | Some (s :: l) =>
      {| g_totalTime := g_totalTime g; g_todayTime := g_todayTime g;
         g_weekTime := g_weekTime g; g_monthTime := g_monthTime g;
         g_lastActiveDate := g_lastActiveDate g;
         g_weekStart := g_weekStart g;
         g_monthStart := g_monthStart g;
         g_sessions := Some (filter (session_is_current w) (s :: l)) |}
  | _ => g
  end.

(** A project with a session of December 2025 and one of January 2026. *)
Definition pastProject : Project :=
  {| p_id := "proj-1"; p_name := "One";
     timeTracking :=
       Some {| totalTime := Some (Num 3600000); todayTime := Some (Num 0);
               lastActiveDate := Some "2026-01-31"%string;
               sessions := Some [otherSession; goodSession] |} |}.

(** A dataset at 2026-01-31T23:00Z whose global record holds a session of
    January 2026 and two of December 2025. *)
Definition yearEndWorld : World :=
  with_refs
    (loadedWorld 1769900400000 demoRandom emptyDisk
       {| projects := [pastProject];
          globalTimeTracking :=
            Some {| g_totalTime := Some (Num 5400000); g_todayTime := Some (Num 0);
                    g_weekTime := Some (Num 0); g_monthTime := Some (Num 1800000);
                    g_lastActiveDate := Some "2026-01-31"%string;
                    g_weekStart := Some "2026-01-26"%string;
                    g_monthStart := Some "2026-01"%string;
                    g_sessions := Some [twiceSession; goodSession; otherSession] |} |}).




(** The text holds no dash, so [split('-')] leaves it whole. *)
Fixpoint no_dash (s : string) : bool :=
  match s with
  | EmptyString => true
  | String c rest => negb (Ascii.eqb c "-") && no_dash rest
  end.

(** The per-month map of [archivePastMonthSessions] holds the session for
    the project under the key. *)
Definition filed_under (key projectId : string) (s : Session)
    (past : list (string * list (string * ProjectArchive))) : Prop :=
  exists forKey data,
    JsMap.get key past = Some forKey
    /\ JsMap.get projectId forKey = Some data
    /\ In s (pa_sessions data).

(** The two loops of [archivePastMonthSessions] that write the archives. *)
Definition append_global {P : Platform} (w' : World) (entry : string * list Session)
    : World :=
  let (year, month) := parse_month_key (fst entry) in
  appendToArchive year month (snd entry) [] w'.

Definition append_projects {P : Platform} (w' : World)
    (entry : string * list (string * ProjectArchive)) : World :=
  let (year, month) := parse_month_key (fst entry) in
  appendToArchive year month [] (snd entry) w'.
(* ================================================================== *)
(** * Lemmas on the insertion-ordered maps *)
(* ================================================================== *)

Module JsMapFacts.
Section Facts.
Context {V : Type}.
Implicit Types (m : list (string * V)) (k : string) (v : V).

Lemma get_set_eq k v m : JsMap.get k (JsMap.set k v m) = Some v.
Proof.
  induction m as [|[k' v'] m IH]; simpl.
  - now rewrite String.eqb_refl.
  - destruct (String.eqb k k') eqn:E; simpl.
    + now rewrite String.eqb_refl.
    + now rewrite E.
Qed.

Lemma get_set_ne k k' v m :
  k <> k' -> JsMap.get k' (JsMap.set k v m) = JsMap.get k' m.
Proof.
  intros Hne. induction m as [|[k0 v0] m IH]; simpl.
  - destruct (String.eqb k' k) eqn:E; [|reflexivity].
    apply String.eqb_eq in E. congruence.
  - destruct (String.eqb k k0) eqn:E; simpl.
    + apply String.eqb_eq in E. subst k0.
      destruct (String.eqb k' k) eqn:E'; [|reflexivity].
      apply String.eqb_eq in E'. congruence.
    + destruct (String.eqb k' k0); [reflexivity|exact IH].
Qed.

Lemma get_delete_eq k m : JsMap.get k (JsMap.delete k m) = None.
Proof.
  induction m as [|[k' v'] m IH]; simpl; [reflexivity|].
  destruct (String.eqb k k') eqn:E; simpl; [exact IH|].
  now rewrite E.
Qed.

Lemma get_delete_ne k k' m :
  k <> k' -> JsMap.get k' (JsMap.delete k m) = JsMap.get k' m.
Proof.
  intros Hne. induction m as [|[k0 v0] m IH]; simpl; [reflexivity|].
  destruct (String.eqb k k0) eqn:E; simpl.
  - apply String.eqb_eq in E. subst k0.
    destruct (String.eqb k' k) eqn:E'; [|exact IH].
    apply String.eqb_eq in E'. congruence.
  - destruct (String.eqb k' k0); [reflexivity|exact IH].
Qed.

Lemma get_In k v m : JsMap.get k m = Some v -> In (k, v) m.
Proof.
  induction m as [|[k' v'] m IH]; simpl; [discriminate|].
  destruct (String.eqb k k') eqn:E.
  - apply String.eqb_eq in E. intros [= ->]. left. now subst.
  - intros H. right. now apply IH.
Qed.

(** Every entry of [set k v m] is an entry of [m] or the new one. *)
Lemma In_set k v m e : In e (JsMap.set k v m) -> e = (k, v) \/ In e m.
Proof.
  induction m as [|[k' v'] m IH]; simpl.
  - intros [<-|[]]. now left.
  - destruct (String.eqb k k'); simpl.
    + intros [<-|H]; [now left|right; now right].
    + intros [<-|H]; [right; now left|].
      destruct (IH H) as [->|H']; [now left|right; now right].
Qed.

Lemma Forall_set (Q : string * V -> Prop) k v m :
  Forall Q m -> Q (k, v) -> Forall Q (JsMap.set k v m).
Proof.
  intros Hm Hkv. apply Forall_forall. intros e He.
  destruct (In_set _ _ _ _ He) as [->|H]; [exact Hkv|].
  rewrite Forall_forall in Hm. now apply Hm.
Qed.
End Facts.
End JsMapFacts.

(* ================================================================== *)
(** * Frame lemmas on the world *)
(* ================================================================== *)

Lemma same_store_refl w : same_store w w.
Proof. repeat split. Qed.

Lemma same_store_trans w1 w2 w3 :
  same_store w1 w2 -> same_store w2 w3 -> same_store w1 w3.
Proof.
  unfold same_store.
  intros (A1 & A2 & A3 & A4 & A5 & A6 & A7 & A8 & A9 & A10)
         (B1 & B2 & B3 & B4 & B5 & B6 & B7 & B8 & B9 & B10).
  repeat split; congruence.
Qed.

Lemma same_store_clearTimeout timer w : same_store w (clearTimeout timer w).
Proof. destruct timer; repeat split. Qed.

Lemma same_store_restartIdleTimer projectId delay w :
  same_store w (restartIdleTimer projectId delay w).
Proof.
  unfold restartIdleTimer. destruct (JsMap.get projectId (idleTimers w)); repeat split.
Qed.

Lemma trackingState_restartIdleTimer projectId delay w :
  trackingState (restartIdleTimer projectId delay w) = trackingState w.
Proof.
  unfold restartIdleTimer. now destruct (JsMap.get projectId (idleTimers w)).
Qed.

Lemma same_store_startGlobalTimer w : same_store w (startGlobalTimer w).
Proof.
  unfold startGlobalTimer.
  destruct (global_running (trackingState w)); [apply same_store_refl|].
  simpl. destruct (globalIdleTimer w); repeat split.
Qed.

Lemma same_store_resumeGlobalTimer w : same_store w (resumeGlobalTimer w).
Proof.
  unfold resumeGlobalTimer.
  destruct (negb (globalIsIdle (trackingState w))); [apply same_store_refl|].
  simpl. destruct (globalIdleTimer w); repeat split.
Qed.

Lemma same_store_resetGlobalIdleTimer w : same_store w (resetGlobalIdleTimer w).
Proof.
  unfold resetGlobalIdleTimer.
  destruct (globalIsIdle (trackingState w)); [apply same_store_resumeGlobalTimer|].
  destruct (truthy_time (globalSessionStartTime (trackingState w)));
    [|apply same_store_refl].
  simpl. destruct (globalIdleTimer w); repeat split.
Qed.

Lemma same_store_resumeTracking projectId w : same_store w (resumeTracking projectId w).
Proof.
  unfold resumeTracking.
  destruct (JsMap.get projectId (activeSessions (trackingState w))) as [s|];
    [|apply same_store_refl].
  destruct (negb (isIdle s)); [apply same_store_refl|].
  eapply same_store_trans; [|apply same_store_restartIdleTimer].
  destruct (Nat.eqb (getActiveNonIdleCount w) 0).
  - eapply same_store_trans; [|apply same_store_resumeGlobalTimer]. repeat split.
  - repeat split.
Qed.

Lemma same_store_startTracking projectId w : same_store w (startTracking projectId w).
Proof.
  unfold startTracking.
  destruct (String.eqb projectId ""); [apply same_store_refl|].
  destruct (match JsMap.get projectId (activeSessions (trackingState w)) with
            | Some s => session_running s | None => false end);
    [apply same_store_refl|].
  destruct (match JsMap.get projectId (activeSessions (trackingState w)) with
            | Some s => isIdle s | None => false end);
    [apply same_store_resumeTracking|].
  eapply same_store_trans; [|apply same_store_restartIdleTimer].
  destruct (Nat.eqb (getActiveNonIdleCount w) 0).
  - eapply same_store_trans; [|apply same_store_startGlobalTimer]. repeat split.
  - repeat split.
Qed.

Lemma same_store_recordOutputActivity projectId w :
  same_store w (recordOutputActivity projectId w).
Proof.
  unfold recordOutputActivity.
  destruct (String.eqb projectId ""); [apply same_store_refl|].
  destruct (JsMap.get projectId (activeSessions (trackingState w))) as [s|];
    [|apply same_store_refl].
  destruct (isIdle s); [apply same_store_refl|repeat split].
Qed.

Section UninitialisedFrame.
Context {P : Platform}.

Lemma saveSession_uninitialised projectId s e d w :
  initialised w = false -> saveSession projectId s e d w = w.
Proof.
  unfold initialised, saveSession. intros H.
  destruct (projectsStateRef w), (saveProjectsRef w); simpl in *;
    try reflexivity; discriminate.
Qed.

Lemma saveGlobalSession_uninitialised s e d w :
  initialised w = false -> saveGlobalSession s e d w = w.
Proof.
  unfold initialised, saveGlobalSession. intros H.
  destruct (projectsStateRef w), (saveProjectsRef w); simpl in *;
    try reflexivity; discriminate.
Qed.

Lemma initialised_same_store w w' :
  same_store w w' -> initialised w' = initialised w.
Proof.
  unfold same_store, initialised. intros (_ & _ & _ & _ & _ & -> & -> & _). reflexivity.
Qed.

Lemma same_store_stopGlobalTimer w :
  initialised w = false -> same_store w (stopGlobalTimer w).
Proof.
  intros H. unfold stopGlobalTimer.
  assert (E : (if global_running (trackingState w)
               then if clock w - match globalSessionStartTime (trackingState w) with
                                 | Some s => s | None => 0 end >? 1000
                    then saveGlobalSession
                           match globalSessionStartTime (trackingState w) with
                           | Some s => s | None => 0 end
                           (clock w)
                           (clock w - match globalSessionStartTime (trackingState w) with
                                      | Some s => s | None => 0 end) w
                    else w
               else w) = w).
  { destruct (global_running (trackingState w)); [|reflexivity].
    destruct (_ >? 1000); [|reflexivity].
    now apply saveGlobalSession_uninitialised. }
  cbv zeta. rewrite E. destruct (globalIdleTimer w); repeat split.
Qed.

Lemma same_store_stopTracking projectId w :
  initialised w = false -> same_store w (stopTracking projectId w).
Proof.
  intros H. unfold stopTracking.
  destruct (match JsMap.get projectId (activeSessions (trackingState w)) with
            | Some s => negb (truthy_time (sessionStartTime s))
            | None => true end); [repeat split|].
  cbv zeta.
  set (start := match JsMap.get projectId (activeSessions (trackingState w)) with
                | Some {| sessionStartTime := Some s |} => s
                | _ => 0 end).
  assert (E : (if clock w - start >? 1000
               then saveSession projectId start (clock w) (clock w - start) w
               else w) = w).
  { destruct (_ >? 1000); [|reflexivity]. now apply saveSession_uninitialised. }
  rewrite E.
  match goal with
  | |- same_store w (if ?c then stopGlobalTimer ?w5 else ?w5) =>
      assert (S5 : same_store w w5)
        by (destruct (JsMap.get projectId (idleTimers w)); repeat split);
      destruct c; [|exact S5];
      eapply same_store_trans; [exact S5|];
      apply same_store_stopGlobalTimer;
      rewrite (initialised_same_store _ _ S5); exact H
  end.
Qed.

Lemma same_store_recordActivity projectId w :
  same_store w (recordActivity projectId w).
Proof.
  unfold recordActivity.
  destruct (String.eqb projectId ""); [apply same_store_refl|].
  destruct (JsMap.get projectId (activeSessions (trackingState w))) as [s|];
    [|apply same_store_startTracking].
  destruct (isIdle s); [apply same_store_resumeTracking|].
  eapply same_store_trans; [apply same_store_restartIdleTimer|].
  eapply same_store_trans; [apply same_store_resetGlobalIdleTimer|].
  repeat split.
Qed.

End UninitialisedFrame.

(* ================================================================== *)
(** * The archive store: merging and writing *)
(* ================================================================== *)

Lemma string_length_append (a b : string) :
  String.length (a ++ b) = (String.length a + String.length b)%nat.
Proof. induction a as [|c a IH]; simpl; [reflexivity|now rewrite IH]. Qed.

Lemma string_append_assoc (a b c : string) :
  ((a ++ b) ++ c = a ++ (b ++ c))%string.
Proof. induction a as [|x a IH]; simpl; [reflexivity|now rewrite IH]. Qed.

Lemma string_append_inv_head (a b c : string) :
  (a ++ b = a ++ c)%string -> b = c.
Proof. induction a as [|x a IH]; simpl; [auto|]. intros [= H]. auto. Qed.

Lemma temp_path_differs (path : string) : (path ++ ".tmp")%string <> path.
Proof.
  intros H. apply (f_equal String.length) in H.
  rewrite string_length_append in H. simpl in H. lia.
Qed.

Lemma ids_json (l : list Session) : ids (map json_session l) = ids l.
Proof. unfold ids. rewrite map_map. reflexivity. Qed.

Lemma json_session_idempotent (s : Session) :
  json_session (json_session s) = json_session s.
Proof. destruct s as [i a b [[| |d]|]]; reflexivity. Qed.

(** ** The deduplicating push *)

Lemma existsb_id_In (i : string) (l : list Session) :
  existsb (String.eqb i) (ids l) = true <-> In i (ids l).
Proof.
  rewrite existsb_exists. split.
  - intros (x & Hx & E). apply String.eqb_eq in E. now subst.
  - intros H. exists i. split; [exact H|apply String.eqb_refl].
Qed.

Lemma ids_filter_incl (f : Session -> bool) (l : list Session) :
  incl (ids (filter f l)) (ids l).
Proof.
  intros i Hi. apply in_map_iff in Hi. destruct Hi as (s & <- & Hs).
  apply filter_In in Hs. apply in_map. tauto.
Qed.

Lemma ids_filter_NoDup (f : Session -> bool) (l : list Session) :
  NoDup (ids l) -> NoDup (ids (filter f l)).
Proof.
  induction l as [|s l IH]; simpl; [auto|].
  intros H. apply NoDup_cons_iff in H. destruct H as [Hs Hl].
  destruct (f s); simpl; [|auto].
  constructor; [|auto]. intros Hin. apply Hs. now apply (ids_filter_incl f l).
Qed.

Lemma push_new_NoDup (existing incoming : list Session) :
  NoDup (ids existing) -> NoDup (ids incoming) ->
  NoDup (ids (push_new existing incoming)).
Proof.
  intros He Hi. unfold push_new, ids. rewrite map_app.
  apply NoDup_app; [exact He|now apply ids_filter_NoDup|].
  intros i Hin Hnew. apply in_map_iff in Hnew. destruct Hnew as (s & <- & Hs).
  apply filter_In in Hs. destruct Hs as [_ Hs].
  apply negb_true_iff in Hs.
  apply (proj2 (existsb_id_In (id s) existing)) in Hin. unfold ids in Hin. congruence.
Qed.

Lemma push_new_incl (existing incoming : list Session) :
  incl existing (push_new existing incoming).
Proof. intros s Hs. unfold push_new. apply in_or_app. now left. Qed.

Lemma push_new_ids (existing incoming : list Session) (s : Session) :
  In s incoming -> In (id s) (ids (push_new existing incoming)).
Proof.
  intros Hs. unfold push_new, ids. rewrite map_app. apply in_or_app.
  destruct (existsb (String.eqb (id s)) (map id existing)) eqn:E.
  - left. now apply existsb_id_In.
  - right. apply in_map. apply filter_In. split; [exact Hs|].
    now rewrite E.
Qed.

Lemma push_new_fresh (existing incoming : list Session) (s : Session) :
  In s incoming -> ~ In (id s) (ids existing) -> In s (push_new existing incoming).
Proof.
  intros Hs Hfresh. unfold push_new. apply in_or_app. right.
  apply filter_In. split; [exact Hs|].
  apply negb_true_iff. destruct (existsb _ _) eqn:E; [|reflexivity].
  apply existsb_id_In in E. contradiction.
Qed.

(** Pushing sessions whose ids are all stored already adds nothing. *)
Lemma push_new_known (existing incoming : list Session) :
  incl (ids incoming) (ids existing) -> push_new existing incoming = existing.
Proof.
  intros H. unfold push_new.
  assert (E : filter (fun s => negb (existsb (String.eqb (id s)) (map id existing)))
                incoming = []).
  { induction incoming as [|s l IH]; simpl; [reflexivity|].
    assert (Hs : In (id s) (ids existing)) by (apply H; now left).
    apply existsb_id_In in Hs. unfold ids in Hs. rewrite Hs. simpl.
    apply IH. intros i Hi. apply H. now right. }
  rewrite E. apply app_nil_r.
Qed.

Lemma NoDup_occurs_once (i : string) (l : list Session) :
  NoDup (ids l) -> In i (ids l) -> occurrences i l = 1%nat.
Proof.
  intros Hnd Hin. unfold occurrences.
  pose proof (proj1 (NoDup_count_occ string_dec (ids l)) Hnd i) as Hle.
  pose proof (proj1 (count_occ_In string_dec (ids l) i) Hin) as Hpos. lia.
Qed.

(** ** The merge of the per-entity map *)

Definition grows (stored stored' : list (string * ProjectArchive)) : Prop :=
  forall projectId e,
    JsMap.get projectId stored = Some e ->
    exists e', JsMap.get projectId stored' = Some e'
               /\ incl (pa_sessions e) (pa_sessions e').

Lemma grows_refl stored : grows stored stored.
Proof. intros k e H. exists e. split; [exact H|apply incl_refl]. Qed.

Lemma grows_trans a b c : grows a b -> grows b c -> grows a c.
Proof.
  intros Hab Hbc k e H. destruct (Hab k e H) as (e1 & H1 & I1).
  destruct (Hbc k e1 H1) as (e2 & H2 & I2). exists e2. split; [exact H2|].
  eapply incl_tran; eassumption.
Qed.

(** The entry that [merge_project] leaves under the key of the entry it
    merges. *)
Lemma merge_project_get (stored : list (string * ProjectArchive))
    (projectId : string) (data : ProjectArchive) :
  exists name,
    JsMap.get projectId (merge_project stored (projectId, data))
    = Some {| projectName := name;
              pa_sessions :=
                push_new (sessions_under projectId stored)
                         (pa_sessions data) |}.
Proof.
  unfold merge_project, sessions_under; simpl.
  destruct (JsMap.get projectId stored) as [e|]; simpl;
    eexists; apply JsMapFacts.get_set_eq.
Qed.

Lemma merge_project_other (stored : list (string * ProjectArchive))
    (entry : string * ProjectArchive) (k : string) :
  k <> fst entry -> JsMap.get k (merge_project stored entry) = JsMap.get k stored.
Proof.
  intros Hne. unfold merge_project. apply JsMapFacts.get_set_ne. congruence.
Qed.

Lemma merge_project_grows stored entry : grows stored (merge_project stored entry).
Proof.
  intros k e H. destruct (String.eqb k (fst entry)) eqn:E.
  - apply String.eqb_eq in E. subst k. destruct entry as [projectId data]; simpl in *.
    destruct (merge_project_get stored projectId data) as (name & G).
    eexists. split; [exact G|]. simpl. unfold sessions_under. rewrite H.
    apply push_new_incl.
  - apply String.eqb_neq in E. exists e.
    rewrite (merge_project_other stored entry k E). split; [exact H|apply incl_refl].
Qed.

Lemma merge_project_wf stored entry :
  distinct_ids stored -> NoDup (ids (pa_sessions (snd entry))) ->
  distinct_ids (merge_project stored entry).
Proof.
  intros Hst He. unfold merge_project, distinct_ids.
  apply JsMapFacts.Forall_set; [exact Hst|]. simpl.
  apply push_new_NoDup; [|exact He].
  destruct (JsMap.get (fst entry) stored) as [e|] eqn:G; simpl; [|constructor].
  apply JsMapFacts.get_In in G. unfold distinct_ids in Hst.
  rewrite Forall_forall in Hst. exact (Hst _ G).
Qed.

Lemma fold_merge_grows projectSessionsMap stored :
  grows stored (fold_left merge_project projectSessionsMap stored).
Proof.
  revert stored. induction projectSessionsMap as [|entry rest IH]; intros stored; simpl.
  - apply grows_refl.
  - eapply grows_trans; [apply merge_project_grows|apply IH].
Qed.

Lemma fold_merge_wf projectSessionsMap stored :
  distinct_ids stored -> distinct_ids projectSessionsMap ->
  distinct_ids (fold_left merge_project projectSessionsMap stored).
Proof.
  revert stored. induction projectSessionsMap as [|entry rest IH]; intros stored Hs Hm;
    simpl; [exact Hs|].
  inversion Hm; subst. apply IH; [|assumption]. now apply merge_project_wf.
Qed.

(** Every session of the map ends up, by its id, in the list of its
    entity. *)
Lemma fold_merge_ids projectSessionsMap stored projectId data s :
  In (projectId, data) projectSessionsMap -> In s (pa_sessions data) ->
  exists e,
    JsMap.get projectId (fold_left merge_project projectSessionsMap stored) = Some e
    /\ In (id s) (ids (pa_sessions e)).
Proof.
  revert stored. induction projectSessionsMap as [|entry rest IH]; intros stored Hin Hs;
    [destruct Hin|]. simpl.
  destruct Hin as [->|Hin]; [|now apply IH].
  destruct (merge_project_get stored projectId data) as (name & G).
  destruct (fold_merge_grows rest (merge_project stored (projectId, data)) _ _ G)
    as (e' & G' & I'). exists e'. split; [exact G'|].
  simpl in I'. unfold ids. apply in_map_iff.
  pose proof (push_new_ids
                (sessions_under projectId stored)
                (pa_sessions data) s Hs) as Hid.
  apply in_map_iff in Hid. destruct Hid as (s' & Eid & Hs').
  exists s'. split; [exact Eid|]. now apply I'.
Qed.


(** ** Writing and reading back *)

Lemma get_map_values {A B} (f : A -> B) (k : string) (m : list (string * A)) :
  JsMap.get k (map (fun kv => (fst kv, f (snd kv))) m) = option_map f (JsMap.get k m).
Proof.
  induction m as [|[k' v] m IH]; simpl; [reflexivity|].
  destruct (String.eqb k k'); [reflexivity|exact IH].
Qed.

Lemma globalSessions_json (a : Archive) :
  globalSessions (json_archive a) = map json_session (globalSessions a).
Proof. reflexivity. Qed.

Lemma stored_project_json (projectId : string) (a : Archive) :
  stored_project projectId (Some (json_archive a))
  = map json_session (stored_project projectId (Some a)).
Proof.
  unfold stored_project, sessions_under; simpl. rewrite get_map_values.
  now destruct (JsMap.get projectId (projectSessions a)).
Qed.

Lemma archive_wf_json (a : Archive) : archive_wf a -> archive_wf (json_archive a).
Proof.
  intros [Hg Hp]. split; simpl.
  - now rewrite ids_json.
  - apply Forall_map. simpl. eapply Forall_impl; [|exact Hp].
    intros kv H. now rewrite ids_json.
Qed.

Lemma archive_wf_project (a : Archive) (projectId : string) :
  archive_wf a -> NoDup (ids (stored_project projectId (Some a))).
Proof.
  intros [_ Hp]. unfold stored_project, sessions_under.
  destruct (JsMap.get projectId (projectSessions a)) as [e|] eqn:G; [|constructor].
  apply JsMapFacts.get_In in G. rewrite Forall_forall in Hp. exact (Hp _ G).
Qed.

Section ArchiveFacts.
Context {P : Platform}.

Lemma unwritable_writeArchive year month a w :
  unwritable (disk (writeArchive year month a w)) = unwritable (disk w).
Proof.
  unfold writeArchive, fs_writeFileSync, fs_renameSync, fs_existsSync.
  destruct (unwritable (disk w) (getArchiveFilePath year month ++ ".tmp")); simpl.
  - now destruct (JsMap.has _ _).
  - destruct (unwritable (disk w) (getArchiveFilePath year month)); simpl.
    + now destruct (JsMap.has _ _).
    + destruct (JsMap.get _ _); simpl; [reflexivity|].
      now destruct (JsMap.has _ _).
Qed.

(** A file other than the temporary one is, after [writeArchive], what it
    was, or it is the target and holds the archive that was written. *)
Lemma writeArchive_lookup year month a w (q : string) :
  q <> (getArchiveFilePath year month ++ ".tmp")%string ->
  JsMap.get q (files (disk (writeArchive year month a w))) = JsMap.get q (files (disk w))
  \/ (q = getArchiveFilePath year month
      /\ JsMap.get q (files (disk (writeArchive year month a w)))
         = Some (JSON_stringify a)).
Proof.
  intros Hq. set (path := getArchiveFilePath year month) in *.
  assert (Hq' : (path ++ ".tmp")%string <> q) by congruence.
  unfold writeArchive, fs_writeFileSync, fs_renameSync, fs_existsSync, fs_unlinkSync.
  fold path.
  destruct (unwritable (disk w) (path ++ ".tmp")); simpl.
  - destruct (JsMap.has _ _); simpl; [|now left].
    left. now apply JsMapFacts.get_delete_ne.
  - rewrite JsMapFacts.get_set_eq.
    destruct (unwritable (disk w) path); simpl.
    + unfold JsMap.has. rewrite JsMapFacts.get_set_eq. simpl. left.
      rewrite JsMapFacts.get_delete_ne by exact Hq'.
      now apply JsMapFacts.get_set_ne.
    + destruct (String.eqb path q) eqn:E.
      * apply String.eqb_eq in E. subst q. right. split; [reflexivity|].
        apply JsMapFacts.get_set_eq.
      * apply String.eqb_neq in E. left.
        rewrite JsMapFacts.get_set_ne by exact E.
        rewrite JsMapFacts.get_delete_ne by exact Hq'.
        now apply JsMapFacts.get_set_ne.
Qed.

Lemma writeArchive_written year month a w :
  can_write year month w ->
  readArchiveFromDisk (getArchiveFilePath year month) (writeArchive year month a w)
  = Some (json_archive a).
Proof.
  intros [Hpath Htemp]. unfold readArchiveFromDisk, fs_readFileSync.
  unfold writeArchive, fs_writeFileSync, fs_renameSync.
  rewrite Htemp. simpl. rewrite Hpath. rewrite JsMapFacts.get_set_eq. simpl.
  rewrite JsMapFacts.get_set_eq. reflexivity.
Qed.

Lemma readArchiveFromDisk_invalidate path year month w :
  readArchiveFromDisk path (invalidateArchiveCache year month w)
  = readArchiveFromDisk path w.
Proof. reflexivity. Qed.

(** What [appendToArchive] leaves on disk for its month: the merged
    archive, or, when the write failed, what was there. *)
Lemma appendToArchive_stored year month globals projectSessionsMap w :
  stored_archive year month (appendToArchive year month globals projectSessionsMap w)
  = Some (json_archive (merged_archive year month globals projectSessionsMap w))
  \/ stored_archive year month (appendToArchive year month globals projectSessionsMap w)
     = stored_archive year month w.
Proof.
  unfold stored_archive, appendToArchive. rewrite readArchiveFromDisk_invalidate.
  unfold readArchiveFromDisk, fs_readFileSync.
  destruct (writeArchive_lookup year month
              (merged_archive year month globals projectSessionsMap w) w
              (getArchiveFilePath year month)) as [E|[_ E]].
  - intros H. symmetry in H. exact (temp_path_differs _ H).
  - right. now rewrite E.
  - left. now rewrite E.
Qed.

Lemma appendToArchive_written year month globals projectSessionsMap w :
  can_write year month w ->
  stored_archive year month (appendToArchive year month globals projectSessionsMap w)
  = Some (json_archive (merged_archive year month globals projectSessionsMap w)).
Proof.
  intros H. unfold stored_archive, appendToArchive.
  rewrite readArchiveFromDisk_invalidate. now apply writeArchive_written.
Qed.

Lemma can_write_appendToArchive year month y' m' globals projectSessionsMap w :
  can_write year month w ->
  can_write year month (appendToArchive y' m' globals projectSessionsMap w).
Proof.
  unfold can_write, appendToArchive, invalidateArchiveCache; simpl.
  now rewrite unwritable_writeArchive.
Qed.

Lemma merged_archive_global year month globals projectSessionsMap w :
  globalSessions (merged_archive year month globals projectSessionsMap w)
  = push_new (globalSessions (base_archive year month w)) globals.
Proof.
  unfold merged_archive, base_archive, stored_archive; simpl.
  destruct globals; [|reflexivity].
  unfold push_new; simpl. now rewrite app_nil_r.
Qed.

Lemma merged_archive_projects year month globals projectSessionsMap w :
  projectSessions (merged_archive year month globals projectSessionsMap w)
  = fold_left merge_project projectSessionsMap
      (projectSessions (base_archive year month w)).
Proof. reflexivity. Qed.

Lemma base_archive_wf year month w :
  (forall a, stored_archive year month w = Some a -> archive_wf a) ->
  archive_wf (base_archive year month w).
Proof.
  intros H. unfold base_archive.
  destruct (stored_archive year month w) as [a|]; [now apply H|].
  split; simpl; constructor.
Qed.

Lemma merged_archive_wf year month globals projectSessionsMap w :
  (forall a, stored_archive year month w = Some a -> archive_wf a) ->
  NoDup (ids globals) -> distinct_ids projectSessionsMap ->
  archive_wf (merged_archive year month globals projectSessionsMap w).
Proof.
  intros Hst Hg Hp. destruct (base_archive_wf year month w Hst) as [Bg Bp].
  split.
  - rewrite merged_archive_global. now apply push_new_NoDup.
  - rewrite merged_archive_projects. now apply fold_merge_wf.
Qed.

(** [appendToArchive] keeps the invariant of the archive of its month. *)
Lemma appendToArchive_wf year month globals projectSessionsMap w :
  (forall a, stored_archive year month w = Some a -> archive_wf a) ->
  NoDup (ids globals) -> distinct_ids projectSessionsMap ->
  forall a,
    stored_archive year month (appendToArchive year month globals projectSessionsMap w)
    = Some a ->
    archive_wf a.
Proof.
  intros Hst Hg Hp a Ha.
  destruct (appendToArchive_stored year month globals projectSessionsMap w) as [E|E];
    rewrite E in Ha.
  - injection Ha as <-. apply archive_wf_json. now apply merged_archive_wf.
  - now apply Hst.
Qed.

(** After a successful [appendToArchive], every session handed to it is, by
    its id, in the list it was meant for. *)
Lemma merged_archive_has_global year month globals projectSessionsMap w s :
  In s globals ->
  In (id s) (ids (globalSessions
                    (json_archive (merged_archive year month globals projectSessionsMap w)))).
Proof.
  intros Hs. rewrite globalSessions_json, ids_json, merged_archive_global.
  now apply push_new_ids.
Qed.

Lemma merged_archive_has_project year month globals projectSessionsMap w
    projectId data s :
  In (projectId, data) projectSessionsMap -> In s (pa_sessions data) ->
  In (id s)
     (ids (stored_project projectId
             (Some (json_archive
                      (merged_archive year month globals projectSessionsMap w))))).
Proof.
  intros Hin Hs. rewrite stored_project_json, ids_json.
  unfold stored_project, sessions_under. rewrite merged_archive_projects.
  destruct (fold_merge_ids projectSessionsMap
              (projectSessions (base_archive year month w)) projectId data s Hin Hs)
    as (e & G & I).
  now rewrite G.
Qed.

(** [loadArchive] reads the disk when the cache has no entry for the
    month, as after [appendToArchive]. *)
Lemma loadArchive_uncached year month w :
  JsMap.get (getCacheKey year month) (archiveCache w) = None ->
  fst (loadArchive year month w) = stored_archive year month w.
Proof.
  intros H. unfold loadArchive, stored_archive. rewrite H.
  now destruct (readArchiveFromDisk (getArchiveFilePath year month) w).
Qed.


End ArchiveFacts.

Section ArchiveBase.
Context {P : Platform}.

Lemma base_archive_global year month w :
  globalSessions (base_archive year month w)
  = stored_global (stored_archive year month w).
Proof. unfold base_archive. now destruct (stored_archive year month w). Qed.

Lemma base_archive_project year month w projectId :
  sessions_under projectId (projectSessions (base_archive year month w))
  = stored_project projectId (stored_archive year month w).
Proof. unfold base_archive. now destruct (stored_archive year month w). Qed.

End ArchiveBase.

(* ================================================================== *)
(** * What persisting a session leaves alone *)
(* ================================================================== *)

Lemma session_running_not_idle (s : ActiveSession) :
  session_running s = true -> isIdle s = false.
Proof.
  unfold session_running. intros H. apply andb_true_iff in H.
  destruct H as [_ H]. now apply negb_true_iff in H.
Qed.

Section RuntimeFrame.
Context {P : Platform}.

Lemma runtime_writeArchive year month a w :
  runtime (writeArchive year month a w) = runtime w
  /\ setup (writeArchive year month a w) = setup w.
Proof.
  unfold setup. rewrite unwritable_writeArchive.
  unfold writeArchive.
  destruct (fs_writeFileSync _ _ _) as [fs1|].
  - destruct (fs_renameSync _ _ _); [now split|].
    destruct (fs_existsSync _ _); now split.
  - destruct (fs_existsSync _ _); now split.
Qed.

Lemma runtime_appendToArchive year month globals projectSessionsMap w :
  runtime (appendToArchive year month globals projectSessionsMap w) = runtime w
  /\ setup (appendToArchive year month globals projectSessionsMap w) = setup w.
Proof.
  unfold appendToArchive, invalidateArchiveCache.
  destruct (runtime_writeArchive year month
              (merged_archive year month globals projectSessionsMap w) w) as [R S].
  split; [rewrite <- R|rewrite <- S]; reflexivity.
Qed.

Lemma runtime_saveSession_project projectId today session start duration p w :
  runtime (snd (saveSession_project projectId today session start duration p w)) = runtime w
  /\ setup (snd (saveSession_project projectId today session start duration p w)) = setup w.
Proof.
  unfold saveSession_project.
  destruct (negb (String.eqb (p_id p) projectId)); [now split|].
  destruct (isCurrentMonthSession start w); [now split|].
  simpl. apply runtime_appendToArchive.
Qed.

Lemma runtime_saveSession_projects projectId today session start duration ps w :
  runtime (snd (saveSession_projects projectId today session start duration ps w)) = runtime w
  /\ setup (snd (saveSession_projects projectId today session start duration ps w)) = setup w.
Proof.
  revert w. induction ps as [|p ps IH]; intros w; simpl; [now split|].
  destruct (runtime_saveSession_project projectId today session start duration p w)
    as [R1 S1].
  destruct (saveSession_project projectId today session start duration p w) as [p' w1].
  simpl in *. destruct (IH w1) as [R2 S2].
  destruct (saveSession_projects projectId today session start duration ps w1)
    as [ps' w2].
  simpl in *. split; congruence.
Qed.

Lemma runtime_saveSession projectId start finish duration w :
  runtime (saveSession projectId start finish duration w) = runtime w
  /\ setup (saveSession projectId start finish duration w) = setup w.
Proof.
  unfold saveSession.
  destruct (negb (projectsStateRef w) || negb (saveProjectsRef w)); [now split|].
  simpl.
  destruct (runtime_saveSession_projects projectId (getTodayString w)
              (newSession (session_id (clock w) (random w (random_pos w)))
                 start finish duration)
              start duration (projects (projectsState w))
              (with_random_pos (S (random_pos w)) w)) as [R S].
  destruct (saveSession_projects _ _ _ _ _ _ _) as [ps' w2].
  split; [exact R|exact S].
Qed.

Lemma runtime_saveGlobalSession start finish duration w :
  runtime (saveGlobalSession start finish duration w) = runtime w
  /\ setup (saveGlobalSession start finish duration w) = setup w.
Proof.
  unfold saveGlobalSession.
  destruct (negb (projectsStateRef w) || negb (saveProjectsRef w)); [now split|].
  simpl. destruct (isCurrentMonthSession start _); simpl; [now split|].
  match goal with
  | |- context [appendToArchive ?y ?m ?g ?p ?w0] =>
      destruct (runtime_appendToArchive y m g p w0) as [R S]
  end.
  split; [exact R|exact S].
Qed.

Lemma trackingState_saveSession projectId start finish duration w :
  trackingState (saveSession projectId start finish duration w) = trackingState w.
Proof.
  destruct (runtime_saveSession projectId start finish duration w) as [R _].
  unfold runtime in R. congruence.
Qed.

Lemma trackingState_saveGlobalSession start finish duration w :
  trackingState (saveGlobalSession start finish duration w) = trackingState w.
Proof.
  destruct (runtime_saveGlobalSession start finish duration w) as [R _].
  unfold runtime in R. congruence.
Qed.

Lemma lastOutputTimes_saveSession projectId start finish duration w :
  lastOutputTimes (saveSession projectId start finish duration w) = lastOutputTimes w.
Proof.
  destruct (runtime_saveSession projectId start finish duration w) as [R _].
  unfold runtime in R. congruence.
Qed.

Lemma lastOutputTimes_saveGlobalSession start finish duration w :
  lastOutputTimes (saveGlobalSession start finish duration w) = lastOutputTimes w.
Proof.
  destruct (runtime_saveGlobalSession start finish duration w) as [R _].
  unfold runtime in R. congruence.
Qed.

Lemma clock_saveSession projectId start finish duration w :
  clock (saveSession projectId start finish duration w) = clock w.
Proof.
  destruct (runtime_saveSession projectId start finish duration w) as [_ S].
  unfold setup in S. congruence.
Qed.

Lemma clock_saveGlobalSession start finish duration w :
  clock (saveGlobalSession start finish duration w) = clock w.
Proof.
  destruct (runtime_saveGlobalSession start finish duration w) as [_ S].
  unfold setup in S. congruence.
Qed.

(** A pause of the global timer touches no project. *)
Lemma activeSessions_pauseGlobalTimer w :
  activeSessions (trackingState (pauseGlobalTimer w)) = activeSessions (trackingState w)
  /\ lastOutputTimes (pauseGlobalTimer w) = lastOutputTimes w.
Proof.
  unfold pauseGlobalTimer.
  destruct (negb (truthy_time (globalSessionStartTime (trackingState w)))
            || globalIsIdle (trackingState w)); [now split|].
  cbv zeta. destruct (_ >? 1000); simpl; [|now split].
  split; [reflexivity|apply lastOutputTimes_saveGlobalSession].
Qed.

(** A pause of a project touches no other project. *)
Lemma pauseTracking_other projectId other w :
  projectId <> other ->
  JsMap.get other (activeSessions (trackingState (pauseTracking projectId w)))
  = JsMap.get other (activeSessions (trackingState w))
  /\ lastOutputTimes (pauseTracking projectId w) = lastOutputTimes w.
Proof.
  intros Hne. unfold pauseTracking.
  destruct (JsMap.get projectId (activeSessions (trackingState w))) as [session|];
    [|now split].
  destruct (negb (truthy_time (sessionStartTime session)) || isIdle session);
    [now split|].
  cbv zeta.
  set (start := match sessionStartTime session with Some s => s | None => 0 end).
  set (w1 := if clock w - start >? 1000
             then saveSession projectId start (clock w) (clock w - start) w else w).
  assert (T1 : trackingState w1 = trackingState w)
    by (subst w1; destruct (_ >? 1000); [apply trackingState_saveSession|reflexivity]).
  assert (L1 : lastOutputTimes w1 = lastOutputTimes w)
    by (subst w1; destruct (_ >? 1000); [apply lastOutputTimes_saveSession|reflexivity]).
  match goal with
  | |- context [if ?c then pauseGlobalTimer ?w2 else ?w2] =>
      destruct (activeSessions_pauseGlobalTimer w2) as [A2 L2];
      assert (G2 : JsMap.get other (activeSessions (trackingState w2))
                   = JsMap.get other (activeSessions (trackingState w)))
        by (simpl; now apply JsMapFacts.get_set_ne);
      destruct c
  end.
  - rewrite A2, L2. split; [exact G2|exact L1].
  - split; [exact G2|exact L1].
Qed.

End RuntimeFrame.

(* ================================================================== *)
(** * Persisting a session *)
(* ================================================================== *)

Lemma last_char_append (a b : string) :
  b <> EmptyString -> last_char (a ++ b) = last_char b.
Proof.
  intros Hb. induction a as [|c a IH]; simpl; [reflexivity|].
  destruct (a ++ b)%string eqn:E; [|exact IH].
  destruct a; simpl in E; [contradiction|discriminate].
Qed.

Lemma append_nonempty (a b : string) : b <> EmptyString -> (a ++ b)%string <> EmptyString.
Proof. destruct a; simpl; [auto|discriminate]. Qed.

Lemma json_newSession {P : Platform} sessionId start finish d :
  json_session (newSession sessionId start finish d) = newSession sessionId start finish d.
Proof. reflexivity. Qed.

Lemma session_id_inj now r r' : session_id now r = session_id now r' -> r = r'.
Proof.
  unfold session_id. intros H.
  apply string_append_inv_head in H. apply string_append_inv_head in H.
  now apply string_append_inv_head in H.
Qed.

Section Emission.
Context {P : Platform}.

Lemma archive_path_last_char year month :
  last_char (getArchiveFilePath year month) = Some "n"%char.
Proof.
  unfold getArchiveFilePath, getArchiveFilename.
  repeat (rewrite last_char_append;
          [|repeat (apply append_nonempty); discriminate]).
  reflexivity.
Qed.

Lemma archive_path_not_temp year month y' m' :
  getArchiveFilePath year month <> (getArchiveFilePath y' m' ++ ".tmp")%string.
Proof.
  intros H. apply (f_equal last_char) in H.
  rewrite archive_path_last_char in H.
  rewrite last_char_append in H by discriminate. discriminate.
Qed.

(** The archive of a month after an append to a month: what it was, or,
    when both months have the same file, the merged archive. *)
Lemma appendToArchive_keeps year month y' m' globals projectSessionsMap w :
  stored_archive year month (appendToArchive y' m' globals projectSessionsMap w)
  = stored_archive year month w
  \/ (stored_archive year month w = stored_archive y' m' w
      /\ stored_archive year month (appendToArchive y' m' globals projectSessionsMap w)
         = Some (json_archive (merged_archive y' m' globals projectSessionsMap w))).
Proof.
  unfold stored_archive at 1 3 5, appendToArchive.
  rewrite !readArchiveFromDisk_invalidate.
  unfold readArchiveFromDisk at 1 3, fs_readFileSync.
  destruct (writeArchive_lookup y' m'
              (merged_archive y' m' globals projectSessionsMap w) w
              (getArchiveFilePath year month)
              (archive_path_not_temp year month y' m')) as [E|[Epath E]].
  - left. rewrite E. reflexivity.
  - right. split.
    + unfold stored_archive. now rewrite Epath.
    + now rewrite E.
Qed.

(** Archived sessions stay archived. *)
Lemma appendToArchive_keeps_project year month y' m' globals projectSessionsMap w
    projectId s :
  json_session s = s ->
  In s (stored_project projectId (stored_archive year month w)) ->
  In s (stored_project projectId
          (stored_archive year month
             (appendToArchive y' m' globals projectSessionsMap w))).
Proof.
  intros Hjson Hin.
  destruct (appendToArchive_keeps year month y' m' globals projectSessionsMap w)
    as [E|[Esame E]]; rewrite E; [exact Hin|].
  rewrite Esame in Hin. rewrite stored_project_json, <- Hjson. apply in_map.
  unfold stored_project. rewrite merged_archive_projects.
  rewrite <- base_archive_project in Hin. unfold sessions_under in *.
  destruct (JsMap.get projectId (projectSessions (base_archive y' m' w)))
    as [e|] eqn:G; [|destruct Hin].
  destruct (fold_merge_grows projectSessionsMap _ _ _ G) as (e' & G' & I').
  rewrite G'. now apply I'.
Qed.

Lemma appendToArchive_keeps_global year month y' m' globals projectSessionsMap w s :
  json_session s = s ->
  In s (stored_global (stored_archive year month w)) ->
  In s (stored_global
          (stored_archive year month
             (appendToArchive y' m' globals projectSessionsMap w))).
Proof.
  intros Hjson Hin.
  destruct (appendToArchive_keeps year month y' m' globals projectSessionsMap w)
    as [E|[Esame E]]; rewrite E; [exact Hin|].
  rewrite Esame in Hin. unfold stored_global.
  rewrite globalSessions_json, <- Hjson. apply in_map.
  rewrite merged_archive_global. apply push_new_incl.
  now rewrite base_archive_global.
Qed.

(** The ids of an archive after an append: ids it had, or ids handed to
    the append. *)
Lemma push_new_ids_bound (existing incoming : list Session) (i : string) :
  In i (ids (push_new existing incoming)) -> In i (ids existing) \/ In i (ids incoming).
Proof.
  unfold push_new, ids. rewrite map_app. intros H. apply in_app_or in H.
  destruct H as [H|H]; [now left|right].
  exact (ids_filter_incl _ incoming i H).
Qed.

Lemma merge_project_ids_bound stored entry projectId i :
  In i (ids (sessions_under projectId (merge_project stored entry))) ->
  In i (ids (sessions_under projectId stored))
  \/ (fst entry = projectId /\ In i (ids (pa_sessions (snd entry)))).
Proof.
  destruct entry as [k data]. simpl. destruct (String.eqb projectId k) eqn:E.
  - apply String.eqb_eq in E. subst k.
    destruct (merge_project_get stored projectId data) as (name & G).
    unfold sessions_under at 1. rewrite G. simpl. intros H.
    apply push_new_ids_bound in H. destruct H as [H|H]; [now left|right; now split].
  - apply String.eqb_neq in E. unfold sessions_under at 1.
    rewrite (merge_project_other stored (k, data) projectId E). now left.
Qed.

Lemma fold_merge_ids_bound projectSessionsMap stored projectId i :
  In i (ids (sessions_under projectId (fold_left merge_project projectSessionsMap stored))) ->
  In i (ids (sessions_under projectId stored))
  \/ exists data, In (projectId, data) projectSessionsMap /\ In i (ids (pa_sessions data)).
Proof.
  revert stored. induction projectSessionsMap as [|entry rest IH]; intros stored; simpl;
    [now left|].
  intros H. destruct (IH _ H) as [H1|(data & Hin & Hi)].
  - destruct (merge_project_ids_bound stored entry projectId i H1) as [H2|[Ek H2]];
      [now left|right].
    exists (snd entry). split; [left|exact H2]. destruct entry; simpl in *. now subst.
  - right. exists data. split; [now right|exact Hi].
Qed.

Lemma appendToArchive_ids_project year month y' m' globals projectSessionsMap w
    projectId i :
  In i (ids (stored_project projectId
               (stored_archive year month
                  (appendToArchive y' m' globals projectSessionsMap w)))) ->
  In i (ids (stored_project projectId (stored_archive year month w)))
  \/ exists data, In (projectId, data) projectSessionsMap /\ In i (ids (pa_sessions data)).
Proof.
  destruct (appendToArchive_keeps year month y' m' globals projectSessionsMap w)
    as [E|[Esame E]]; rewrite E; [now left|].
  rewrite stored_project_json, ids_json. unfold stored_project.
  rewrite merged_archive_projects. intros H.
  apply fold_merge_ids_bound in H. rewrite base_archive_project in H.
  now rewrite Esame.
Qed.

Lemma appendToArchive_ids_global year month y' m' globals projectSessionsMap w i :
  In i (ids (stored_global
               (stored_archive year month
                  (appendToArchive y' m' globals projectSessionsMap w)))) ->
  In i (ids (stored_global (stored_archive year month w))) \/ In i (ids globals).
Proof.
  destruct (appendToArchive_keeps year month y' m' globals projectSessionsMap w)
    as [E|[Esame E]]; rewrite E; [now left|].
  unfold stored_global at 1. rewrite globalSessions_json, ids_json.
  rewrite merged_archive_global. intros H.
  apply push_new_ids_bound in H. rewrite base_archive_global in H.
  now rewrite Esame.
Qed.

End Emission.

Section EmissionSave.
Context {P : Platform}.

Lemma archive_grows_refl w : archive_grows w w.
Proof. intros y m s _. split; auto. Qed.

Lemma archive_grows_trans w1 w2 w3 :
  archive_grows w1 w2 -> archive_grows w2 w3 -> archive_grows w1 w3.
Proof.
  intros H12 H23 y m s Hs. destruct (H12 y m s Hs) as [A1 B1].
  destruct (H23 y m s Hs) as [A2 B2]. split; auto.
Qed.

Lemma archive_ids_bounded_refl extra w : archive_ids_bounded extra w w.
Proof. intros y m i. split; auto. Qed.

Lemma archive_ids_bounded_trans extra w1 w2 w3 :
  archive_ids_bounded extra w1 w2 -> archive_ids_bounded extra w2 w3 ->
  archive_ids_bounded extra w1 w3.
Proof.
  intros H12 H23 y m i. destruct (H12 y m i) as [A1 B1].
  destruct (H23 y m i) as [A2 B2]. split.
  - intros H. destruct (A2 H); auto.
  - intros pid H. destruct (B2 pid H); auto.
Qed.

Lemma live_grows_refl w : live_grows w w.
Proof. repeat split; auto using incl_refl. Qed.

Lemma live_grows_trans w1 w2 w3 : live_grows w1 w2 -> live_grows w2 w3 -> live_grows w1 w3.
Proof.
  intros (A1 & B1 & C1) (A2 & B2 & C2). repeat split.
  - intros pid. eapply incl_tran; [apply A1|apply A2].
  - eapply incl_tran; eassumption.
  - auto.
Qed.

Lemma appendToArchive_grows year month globals projectSessionsMap w :
  archive_grows w (appendToArchive year month globals projectSessionsMap w).
Proof.
  intros y m s Hs. split.
  - now apply appendToArchive_keeps_global.
  - intros pid. now apply appendToArchive_keeps_project.
Qed.

Lemma appendToArchive_bounded year month globals projectSessionsMap w extra :
  incl (ids globals) extra ->
  (forall projectId data, In (projectId, data) projectSessionsMap ->
                          incl (ids (pa_sessions data)) extra) ->
  archive_ids_bounded extra w (appendToArchive year month globals projectSessionsMap w).
Proof.
  intros Hg Hp y m i. split.
  - intros H. apply appendToArchive_ids_global in H. destruct H; auto.
  - intros pid H. apply appendToArchive_ids_project in H.
    destruct H as [H|(data & Hin & Hi)]; [now left|right].
    exact (Hp pid data Hin i Hi).
Qed.

Lemma ledger_appendToArchive year month globals projectSessionsMap w :
  ledger (appendToArchive year month globals projectSessionsMap w) = ledger w.
Proof.
  unfold appendToArchive, invalidateArchiveCache, writeArchive.
  destruct (fs_writeFileSync _ _ _) as [fs1|].
  - destruct (fs_renameSync _ _ _); [reflexivity|].
    now destruct (fs_existsSync _ _).
  - now destruct (fs_existsSync _ _).
Qed.

(** After a successful append of one session to the list of a project, the
    session is in the stored list, unless another session had its id. *)
Lemma appendToArchive_one_project year month projectId name s w :
  json_session s = s ->
  can_write year month w ->
  ~ In (id s) (ids (stored_project projectId (stored_archive year month w)))
  \/ In s (stored_project projectId (stored_archive year month w)) ->
  In s (stored_project projectId
          (stored_archive year month
             (appendToArchive year month []
                [(projectId, {| projectName := name; pa_sessions := [s] |})] w))).
Proof.
  intros Hjson Hw Hfresh.
  rewrite (appendToArchive_written year month _ _ w Hw).
  rewrite stored_project_json.
  assert (H : In s (stored_project projectId
                      (Some (merged_archive year month []
                               [(projectId, {| projectName := name; pa_sessions := [s] |})]
                               w)))).
  { unfold stored_project. rewrite merged_archive_projects. cbn [fold_left].
    destruct (merge_project_get (projectSessions (base_archive year month w)) projectId
                {| projectName := name; pa_sessions := [s] |}) as (n & G).
    unfold sessions_under at 1. rewrite G. cbn [pa_sessions].
    rewrite base_archive_project.
    destruct Hfresh as [Hfresh|Hin].
    - apply push_new_fresh; [now left|exact Hfresh].
    - now apply push_new_incl. }
  apply (in_map json_session) in H. now rewrite Hjson in H.
Qed.

Lemma appendToArchive_one_global year month s w :
  json_session s = s ->
  can_write year month w ->
  ~ In (id s) (ids (stored_global (stored_archive year month w))) ->
  In s (stored_global
          (stored_archive year month (appendToArchive year month [s] [] w))).
Proof.
  intros Hjson Hw Hfresh.
  rewrite (appendToArchive_written year month _ _ w Hw).
  unfold stored_global. rewrite globalSessions_json.
  assert (H : In s (globalSessions (merged_archive year month [s] [] w))).
  { rewrite merged_archive_global. apply push_new_fresh; [now left|].
    now rewrite base_archive_global. }
  apply (in_map json_session) in H. now rewrite Hjson in H.
Qed.

Lemma storage_writable_can_write year month w :
  storage_writable w -> can_write year month w.
Proof. intros H. split; apply H. Qed.

Lemma isCurrentMonthSession_setup start w w' :
  setup w' = setup w -> isCurrentMonthSession start w' = isCurrentMonthSession start w.
Proof.
  unfold setup, isCurrentMonthSession. intros H.
  assert (E : clock w' = clock w) by congruence. now rewrite E.
Qed.

Lemma storage_writable_setup w w' :
  setup w' = setup w -> storage_writable w -> storage_writable w'.
Proof.
  unfold setup, storage_writable. intros H Hw path.
  assert (E : unwritable (disk w') = unwritable (disk w)) by congruence.
  rewrite E. apply Hw.
Qed.

(** ** One project of [saveSession] *)

Lemma saveSession_project_rel projectId today s start d p w :
  p_id (fst (saveSession_project projectId today s start d p w)) = p_id p
  /\ incl (sessions_of_project p)
          (sessions_of_project (fst (saveSession_project projectId today s start d p w)))
  /\ (p_id p = projectId -> isCurrentMonthSession start w = true ->
      In s (sessions_of_project (fst (saveSession_project projectId today s start d p w)))).
Proof.
  unfold saveSession_project.
  destruct (String.eqb (p_id p) projectId) eqn:E; simpl.
  - destruct (isCurrentMonthSession start w) eqn:C; simpl.
    + unfold sessions_of_project; simpl. repeat split.
      * destruct (timeTracking p) as [t|]; simpl; [|intros x []].
        intros x Hx. apply in_or_app. now left.
      * intros _ _. apply in_or_app. right. now left.
    + unfold sessions_of_project; simpl. repeat split.
      * destruct (timeTracking p) as [t|]; simpl; [apply incl_refl|intros x []].
      * discriminate.
  - apply String.eqb_neq in E. repeat split; [apply incl_refl|contradiction].
Qed.

Lemma saveSession_project_world projectId today s start d p w :
  json_session s = s ->
  let w' := snd (saveSession_project projectId today s start d p w) in
  ledger w' = ledger w
  /\ archive_grows w w'
  /\ archive_ids_bounded [id s] w w'
  /\ (isCurrentMonthSession start w = false -> storage_writable w ->
      fresh_or_stored projectId s start w ->
      fresh_or_stored projectId s start w'
      /\ (p_id p = projectId ->
          In s (stored_project projectId
                  (stored_archive (Some (getFullYear start))
                     (Some (getMonth start)) w')))).
Proof.
  intros Hjson. cbv zeta. unfold saveSession_project.
  destruct (String.eqb (p_id p) projectId) eqn:E; simpl.
  - destruct (isCurrentMonthSession start w) eqn:C; simpl.
    + split; [reflexivity|]. split; [apply archive_grows_refl|].
      split; [apply archive_ids_bounded_refl|]. discriminate.
    + split; [apply ledger_appendToArchive|].
      split; [apply appendToArchive_grows|]. split.
      * apply appendToArchive_bounded; [intros x []|].
        intros pid data [[= <- <-]|[]]. apply incl_refl.
      * intros _ Hw Hfresh.
        assert (Hin : In s (stored_project projectId
                  (stored_archive (Some (getFullYear start)) (Some (getMonth start))
                     (appendToArchive (Some (getFullYear start)) (Some (getMonth start))
                        [] [(projectId, {| projectName := p_name p;
                                           pa_sessions := [s] |})] w)))).
        { apply appendToArchive_one_project; try assumption.
          now apply storage_writable_can_write. }
        split; [now right|auto].
  - apply String.eqb_neq in E.
    split; [reflexivity|]. split; [apply archive_grows_refl|].
    split; [apply archive_ids_bounded_refl|].
    intros _ _ Hfresh. split; [exact Hfresh|contradiction].
Qed.

(** ** The projects of [saveSession] *)

Lemma saveSession_projects_rel projectId today s start d ps :
  forall w,
    Forall2 (fun p p' =>
               p_id p' = p_id p
               /\ incl (sessions_of_project p) (sessions_of_project p')
               /\ (p_id p = projectId -> isCurrentMonthSession start w = true ->
                   In s (sessions_of_project p')))
            ps (fst (saveSession_projects projectId today s start d ps w)).
Proof.
  induction ps as [|p ps IH]; intros w; simpl; [constructor|].
  pose proof (saveSession_project_rel projectId today s start d p w) as R.
  destruct (runtime_saveSession_project projectId today s start d p w) as [_ S1].
  destruct (saveSession_project projectId today s start d p w) as [p' w1]; simpl in *.
  specialize (IH w1).
  destruct (saveSession_projects projectId today s start d ps w1) as [ps' w2]; simpl in *.
  constructor; [exact R|].
  eapply Forall2_impl; [|exact IH]. simpl. intros a b (A & B & C).
  repeat split; auto. intros Hid Hc. apply C; [exact Hid|].
  now rewrite (isCurrentMonthSession_setup start w w1 S1).
Qed.

Lemma saveSession_projects_world projectId today s start d ps :
  json_session s = s ->
  forall w,
    let w' := snd (saveSession_projects projectId today s start d ps w) in
    ledger w' = ledger w
    /\ archive_grows w w'
    /\ archive_ids_bounded [id s] w w'
    /\ (isCurrentMonthSession start w = false -> storage_writable w ->
        fresh_or_stored projectId s start w ->
        fresh_or_stored projectId s start w'
        /\ ((exists p, In p ps /\ p_id p = projectId) ->
            In s (stored_project projectId
                    (stored_archive (Some (getFullYear start))
                       (Some (getMonth start)) w')))).
Proof.
  intros Hjson. induction ps as [|p ps IH]; intros w; cbv zeta; simpl.
  - split; [reflexivity|]. split; [apply archive_grows_refl|].
    split; [apply archive_ids_bounded_refl|].
    intros _ _ Hfresh. split; [exact Hfresh|]. intros (p & [] & _).
  - pose proof (saveSession_project_world projectId today s start d p w Hjson) as W1.
    destruct (runtime_saveSession_project projectId today s start d p w) as [_ S1].
    destruct (saveSession_project projectId today s start d p w) as [p' w1]; simpl in *.
    destruct W1 as (L1 & G1 & B1 & E1).
    specialize (IH w1). cbv zeta in IH.
    destruct (saveSession_projects projectId today s start d ps w1) as [ps' w2];
      simpl in *.
    destruct IH as (L2 & G2 & B2 & E2).
    split; [congruence|].
    split; [eapply archive_grows_trans; eassumption|].
    split; [eapply archive_ids_bounded_trans; eassumption|].
    intros Hc Hw Hfresh.
    destruct (E1 Hc Hw Hfresh) as [F1 A1].
    assert (Hc1 : isCurrentMonthSession start w1 = false)
      by now rewrite (isCurrentMonthSession_setup start w w1 S1).
    assert (Hw1 : storage_writable w1) by now apply (storage_writable_setup w w1 S1).
    destruct (E2 Hc1 Hw1 F1) as [F2 A2].
    split; [exact F2|].
    intros (q & [<-|Hq] & Hid).
    + exact (proj2 (G2 _ _ s Hjson) projectId (A1 Hid)).
    + apply A2. now exists q.
Qed.

End EmissionSave.

(** ** [saveSession] and [saveGlobalSession] as steps of the store *)

Lemma live_sessions_Forall2 (R : Project -> Project -> Prop) projectId ps ps' :
  (forall p p', R p p' ->
     p_id p' = p_id p /\ incl (sessions_of_project p) (sessions_of_project p')) ->
  Forall2 R ps ps' ->
  incl (flat_map (fun p => if String.eqb (p_id p) projectId
                           then sessions_of_project p else []) ps)
       (flat_map (fun p => if String.eqb (p_id p) projectId
                           then sessions_of_project p else []) ps').
Proof.
  intros HR H. induction H as [|p p' l l' Hp _ IH]; simpl; [apply incl_refl|].
  destruct (HR _ _ Hp) as [Eid Hincl]. rewrite Eid.
  apply incl_app; [|now apply incl_appr].
  apply incl_appl. destruct (String.eqb (p_id p) projectId); [exact Hincl|apply incl_refl].
Qed.

Lemma Forall2_In_l {A B} (R : A -> B -> Prop) l l' a :
  Forall2 R l l' -> In a l -> exists b, In b l' /\ R a b.
Proof.
  intros H. induction H as [|x y l l' Hxy _ IH]; [intros []|].
  intros [<-|Ha].
  - exists y. split; [now left|exact Hxy].
  - destruct (IH Ha) as (b & Hb & Hab). exists b. split; [now right|exact Hab].
Qed.

Lemma In_live_sessions projectId s w p :
  In p (projects (projectsState w)) -> p_id p = projectId ->
  In s (sessions_of_project p) -> In s (live_sessions projectId w).
Proof.
  intros Hp Hid Hs. unfold live_sessions. apply in_flat_map. exists p.
  split; [exact Hp|]. rewrite Hid, String.eqb_refl. exact Hs.
Qed.

Section EmissionStep.
Context {P : Platform}.

Lemma initialised_setup w' w : setup w' = setup w -> initialised w' = initialised w.
Proof.
  unfold setup, initialised. intros H.
  assert (E1 : projectsStateRef w' = projectsStateRef w) by congruence.
  assert (E2 : saveProjectsRef w' = saveProjectsRef w) by congruence.
  now rewrite E1, E2.
Qed.

Lemma initialised_guard w :
  initialised w = true ->
  negb (projectsStateRef w) || negb (saveProjectsRef w) = false.
Proof.
  unfold initialised. intros H. apply andb_true_iff in H. destruct H as [-> ->].
  reflexivity.
Qed.

(** The ids to come stay fresh when the store gains only the id that was
    just given. *)
Lemma fresh_ids_next w w' :
  fresh_ids w ->
  clock w' = clock w -> random w' = random w -> random_pos w' = S (random_pos w) ->
  archive_ids_bounded [session_id (clock w) (random w (random_pos w))] w w' ->
  fresh_ids w'.
Proof.
  intros [Hinj Hfresh] Ec Er Ep Hb. split.
  - intros j k Hj Hjk. rewrite Er. apply Hinj; lia.
  - intros k year month Hk. rewrite Ec, Er.
    assert (Hk' : (random_pos w <= k)%nat) by lia.
    destruct (Hfresh k year month Hk') as [Fg Fp].
    assert (Hne : ~ In (session_id (clock w) (random w k))
                       [session_id (clock w) (random w (random_pos w))]).
    { intros [E|[]]. apply session_id_inj in E.
      apply (Hinj (random_pos w) k); [lia|lia|exact E]. }
    destruct (Hb year month (session_id (clock w) (random w k))) as [Bg Bp]. split.
    + intros H. destruct (Bg H); contradiction.
    + intros pid H. destruct (Bp pid H); [now apply (Fp pid)|contradiction].
Qed.

Lemma saveSession_step projectId start finish d w :
  can_persist w ->
  let s := newSession (session_id (clock w) (random w (random_pos w))) start finish d in
  let w' := saveSession projectId start finish d w in
  can_persist w'
  /\ live_grows w w'
  /\ archive_grows w w'
  /\ runtime w' = runtime w
  /\ setup w' = setup w
  /\ (has_project projectId w -> recorded projectId s start w').
Proof.
  intros (Hinit & Hw & Hfresh). cbv zeta.
  destruct (runtime_saveSession projectId start finish d w) as [HR HS].
  split; [|split; [|split; [|split; [exact HR|split; [exact HS|]]]]].
  all: unfold saveSession in *; rewrite (initialised_guard w Hinit) in *;
       cbn [generateSessionId] in *;
       set (s := newSession (session_id (clock w) (random w (random_pos w)))
                   start finish d) in *;
       set (w1 := with_random_pos (S (random_pos w)) w) in *;
       pose proof (saveSession_projects_rel projectId (getTodayString w) s start d
                     (projects (projectsState w1)) w1) as Rel;
       pose proof (saveSession_projects_world projectId (getTodayString w) s start d
                     (projects (projectsState w1)) (json_newSession _ _ _ _) w1) as Wld;
       cbv zeta in Wld;
       destruct (saveSession_projects projectId (getTodayString w) s start d
                   (projects (projectsState w1)) w1) as [ps' w2];
       cbn [fst snd] in *;
       destruct Wld as (L & G & B & E).
  - (* sessions can still be persisted *)
    split; [|split].
    + rewrite (initialised_setup _ _ HS). exact Hinit.
    + exact (storage_writable_setup w _ HS Hw).
    + apply (fresh_ids_next w); [exact Hfresh| | | |exact B];
        unfold setup, ledger in *; simpl in *; congruence.
  - (* the live lists grow *)
    split; [|split].
    + intros pid. unfold live_sessions. simpl.
      apply (live_sessions_Forall2 _ pid _ _ (fun p p' H => conj (proj1 H) (proj1 (proj2 H)))
               Rel).
    + apply incl_refl.
    + intros pid (p & Hp & Hid). simpl.
      destruct (Forall2_In_l _ _ _ _ Rel Hp) as (p' & Hp' & Eid & _).
      exists p'. split; [exact Hp'|congruence].
  - (* the archives grow *)
    exact G.
  - (* the session is persisted *)
    intros (p & Hp & Hid).
    destruct (isCurrentMonthSession start w) eqn:C.
    + left. destruct (Forall2_In_l _ _ _ _ Rel Hp) as (p' & Hp' & Eid & _ & Hs).
      apply (In_live_sessions projectId s _ p'); [exact Hp'|congruence|].
      apply Hs; [exact Hid|exact C].
    + right.
      assert (F : fresh_or_stored projectId s start w1).
      { left. destruct Hfresh as [_ Hf].
        exact (proj2 (Hf (random_pos w) _ _ (le_n _)) projectId). }
      destruct (E C Hw F) as [_ A]. apply A. now exists p.
Qed.

Lemma saveGlobalSession_step start finish d w :
  can_persist w ->
  let s := newSession (session_id (clock w) (random w (random_pos w))) start finish d in
  let w' := saveGlobalSession start finish d w in
  can_persist w'
  /\ live_grows w w'
  /\ archive_grows w w'
  /\ runtime w' = runtime w
  /\ setup w' = setup w
  /\ recorded_global s start w'.
Proof.
  intros (Hinit & Hw & Hfresh). cbv zeta.
  destruct (runtime_saveGlobalSession start finish d w) as [HR HS].
  split; [|split; [|split; [|split; [exact HR|split; [exact HS|]]]]].
  all: unfold saveGlobalSession in *; rewrite (initialised_guard w Hinit) in *;
       cbn [generateSessionId] in *;
       set (s := newSession (session_id (clock w) (random w (random_pos w)))
                   start finish d) in *;
       set (w1 := with_random_pos (S (random_pos w)) w) in *;
       change (isCurrentMonthSession start w1) with (isCurrentMonthSession start w) in *;
       destruct (isCurrentMonthSession start w) eqn:C.
  - split; [|split].
    + exact Hinit.
    + exact Hw.
    + apply (fresh_ids_next w);
        [exact Hfresh|reflexivity|reflexivity|reflexivity
        |exact (archive_ids_bounded_refl _ w)].
  - split; [|split].
    + rewrite (initialised_setup _ _ HS). exact Hinit.
    + exact (storage_writable_setup w _ HS Hw).
    + pose proof (ledger_appendToArchive (Some (getFullYear start))
                    (Some (getMonth start)) [s] [] w1) as L.
      unfold ledger in L.
      apply (fresh_ids_next w); [exact Hfresh| | | |].
      * unfold setup in HS. congruence.
      * unfold setup in HS. congruence.
      * cbn [random_pos saveProjects State_set_projects with_save_calls
               with_projectsState with_globalTimesCache].
        transitivity (random_pos w1); [congruence|reflexivity].
      * apply (appendToArchive_bounded _ _ _ _ w1); [apply incl_refl|intros ? ? []].
  - split; [|split].
    + intros pid. apply incl_refl.
    + unfold sessions_of_global. simpl.
      destruct (globalTimeTracking (projectsState w)) as [g|]; simpl;
        [|intros x []].
      intros x Hx. apply in_or_app. now left.
    + auto.
  - split; [|split].
    + intros pid. unfold live_sessions. simpl.
      pose proof (ledger_appendToArchive (Some (getFullYear start))
                    (Some (getMonth start)) [s] [] w1) as L.
      apply incl_refl.
    + unfold sessions_of_global. simpl.
      destruct (globalTimeTracking (projectsState w)) as [g|]; simpl;
        [apply incl_refl|intros x []].
    + auto.
  - exact (archive_grows_refl w).
  - exact (appendToArchive_grows _ _ _ _ w1).
  - left. unfold sessions_of_global. simpl. apply in_or_app. right. now left.
  - right.
    apply (appendToArchive_one_global _ _ s w1 (json_newSession _ _ _ _)).
    + now apply storage_writable_can_write.
    + destruct Hfresh as [_ Hf]. exact (proj1 (Hf (random_pos w) _ _ (le_n _))).
Qed.

End EmissionStep.

(** ** The cuts of the boundary detectors *)

Lemma get_map_entries {V} (f : string * V -> string * V) (k : string)
    (m : list (string * V)) :
  (forall e, fst (f e) = fst e) ->
  JsMap.get k (map f m) = option_map (fun v => snd (f (k, v))) (JsMap.get k m).
Proof.
  intros Hf. induction m as [|[k' v] m IH]; simpl; [reflexivity|].
  pose proof (Hf (k', v)) as E. destruct (f (k', v)) as [k'' v'] eqn:F.
  simpl in E. subst k''. destruct (String.eqb k k') eqn:Ek; [|exact IH].
  apply String.eqb_eq in Ek. subst k'. simpl. now rewrite F.
Qed.

Lemma fst_cut_entry restart activity e : fst (cut_entry restart activity e) = fst e.
Proof. unfold cut_entry. now destruct (session_running (snd e)). Qed.

Section Cuts.
Context {P : Platform}.

Lemma store_step_refl w : can_persist w -> store_step w w.
Proof.
  intros H. split; [exact H|]. split; [apply live_grows_refl|apply archive_grows_refl].
Qed.

Lemma store_step_trans w1 w2 w3 : store_step w1 w2 -> store_step w2 w3 -> store_step w1 w3.
Proof.
  intros (_ & L1 & A1) (C2 & L2 & A2). split; [exact C2|]. split.
  - eapply live_grows_trans; eassumption.
  - eapply archive_grows_trans; eassumption.
Qed.

Lemma covers_json s start finish : covers s start finish -> json_session s = s.
Proof.
  intros (_ & _ & Hd). destruct s as [i a b dur]; simpl in *. subst dur. reflexivity.
Qed.

Lemma covers_newSession sessionId start finish :
  covers (newSession sessionId start finish (finish - start)) start finish.
Proof. repeat split. Qed.

Lemma recorded_step projectId s start w w' :
  store_step w w' -> json_session s = s ->
  recorded projectId s start w -> recorded projectId s start w'.
Proof.
  intros (_ & (L & _) & A) Hjson [H|H].
  - left. now apply L.
  - right. exact (proj2 (A _ _ s Hjson) projectId H).
Qed.

Lemma recorded_global_step s start w w' :
  store_step w w' -> json_session s = s ->
  recorded_global s start w -> recorded_global s start w'.
Proof.
  intros (_ & (_ & L & _) & A) Hjson [H|H].
  - left. now apply L.
  - right. exact (proj1 (A _ _ s Hjson) H).
Qed.

Lemma has_project_step projectId w w' :
  store_step w w' -> has_project projectId w -> has_project projectId w'.
Proof. intros (_ & (_ & _ & L) & _). apply L. Qed.

(** *** One project *)

Lemma cut_session_runtime boundary restart activity entry w :
  runtime (snd (cut_session boundary restart activity entry w)) = runtime w
  /\ setup (snd (cut_session boundary restart activity entry w)) = setup w
  /\ fst (cut_session boundary restart activity entry w)
     = cut_entry restart activity entry.
Proof.
  unfold cut_session, cut_entry.
  destruct (session_running (snd entry)); [|now repeat split].
  cbv zeta. destruct (_ >? 1000); simpl; [|now repeat split].
  match goal with
  | |- context [saveSession ?p ?a ?b ?c ?w0] =>
      destruct (runtime_saveSession p a b c w0) as [R S]
  end.
  now repeat split.
Qed.

Lemma cut_session_store boundary restart activity projectId session w :
  can_persist w ->
  let w' := snd (cut_session boundary restart activity (projectId, session) w) in
  store_step w w'
  /\ forall start,
       session_running session = true -> sessionStartTime session = Some start ->
       boundary - start > 1000 -> has_project projectId w ->
       exists s, covers s start boundary /\ recorded projectId s start w'.
Proof.
  intros Hc. cbv zeta. unfold cut_session. simpl.
  destruct (session_running session) eqn:Run; simpl.
  - destruct (sessionStartTime session) as [start0|] eqn:Est;
      [|unfold session_running in Run; rewrite Est in Run; discriminate].
    destruct (boundary - start0 >? 1000) eqn:Long; simpl.
    + destruct (saveSession_step projectId start0 boundary (boundary - start0) w Hc)
        as (C' & L' & A' & _ & _ & Rec).
      split; [split; [exact C'|split; [exact L'|exact A']]|].
      intros start _ [= <-] _ Hp. eexists. split; [|exact (Rec Hp)].
      apply covers_newSession.
    + split; [now apply store_step_refl|].
      intros start _ [= <-] Hlong _. rewrite Z.gtb_ltb in Long.
      apply Z.ltb_ge in Long. lia.
  - split; [now apply store_step_refl|]. discriminate.
Qed.

(** *** All projects *)

Lemma cut_sessions_runtime boundary restart activity entries :
  forall w,
    runtime (snd (cut_sessions boundary restart activity entries w)) = runtime w
    /\ setup (snd (cut_sessions boundary restart activity entries w)) = setup w
    /\ fst (cut_sessions boundary restart activity entries w)
       = map (cut_entry restart activity) entries.
Proof.
  induction entries as [|entry rest IH]; intros w; simpl; [now repeat split|].
  destruct (cut_session_runtime boundary restart activity entry w) as (R1 & S1 & F1).
  destruct (cut_session boundary restart activity entry w) as [entry' w1]; simpl in *.
  destruct (IH w1) as (R2 & S2 & F2).
  destruct (cut_sessions boundary restart activity rest w1) as [rest' w2]; simpl in *.
  repeat split; congruence.
Qed.

Lemma cut_sessions_store boundary restart activity entries :
  forall w,
    can_persist w ->
    let w' := snd (cut_sessions boundary restart activity entries w) in
    store_step w w'
    /\ forall projectId session start,
         In (projectId, session) entries ->
         session_running session = true -> sessionStartTime session = Some start ->
         boundary - start > 1000 -> has_project projectId w ->
         exists s, covers s start boundary /\ recorded projectId s start w'.
Proof.
  induction entries as [|[pid0 session0] rest IH]; intros w Hc; cbv zeta; simpl.
  - split; [now apply store_step_refl|]. intros ? ? ? [].
  - destruct (cut_session_store boundary restart activity pid0 session0 w Hc)
      as (St1 & Rec1).
    destruct (cut_session boundary restart activity (pid0, session0) w) as [entry' w1];
      simpl in *.
    destruct (IH w1 (proj1 St1)) as (St2 & Rec2).
    destruct (cut_sessions boundary restart activity rest w1) as [rest' w2]; simpl in *.
    split; [eapply store_step_trans; eassumption|].
    intros projectId session start [[= <- <-]|Hin] Hrun Hst Hlong Hp.
    + destruct (Rec1 start Hrun Hst Hlong Hp) as (s & Hcov & Hrec).
      exists s. split; [exact Hcov|].
      exact (recorded_step _ _ _ _ _ St2 (covers_json _ _ _ Hcov) Hrec).
    + apply (Rec2 projectId session start Hin Hrun Hst Hlong).
      exact (has_project_step _ _ _ St1 Hp).
Qed.

(** *** The global interval *)

Lemma cut_global_runtime boundary restart activity w :
  setup (cut_global boundary restart activity w) = setup w
  /\ lastHeartbeat (cut_global boundary restart activity w) = lastHeartbeat w
  /\ lastKnownDate (cut_global boundary restart activity w) = lastKnownDate w
  /\ activeSessions (trackingState (cut_global boundary restart activity w))
     = activeSessions (trackingState w)
  /\ (global_running (trackingState w) = true ->
      globalSessionStartTime (trackingState (cut_global boundary restart activity w))
      = Some restart
      /\ globalLastActivityTime (trackingState (cut_global boundary restart activity w))
         = Some activity
      /\ globalIsIdle (trackingState (cut_global boundary restart activity w)) = false).
Proof.
  unfold cut_global.
  destruct (global_running (trackingState w)) eqn:Run; [|repeat split; discriminate].
  assert (Idle : globalIsIdle (trackingState w) = false).
  { unfold global_running in Run. apply andb_true_iff in Run.
    destruct Run as [_ Run]. now apply negb_true_iff in Run. }
  cbv zeta.
  set (start := match globalSessionStartTime (trackingState w) with
                | Some s => s | None => 0 end).
  set (w1 := if boundary - start >? 1000
             then saveGlobalSession start boundary (boundary - start) w else w).
  assert (Hr : runtime w1 = runtime w /\ setup w1 = setup w).
  { subst w1. destruct (_ >? 1000); [apply runtime_saveGlobalSession|now split]. }
  destruct Hr as [R S]. unfold runtime in R.
  assert (T : trackingState w1 = trackingState w) by congruence.
  assert (H1 : lastHeartbeat w1 = lastHeartbeat w) by congruence.
  assert (H2 : lastKnownDate w1 = lastKnownDate w) by congruence.
  split; [exact S|]. split; [exact H1|]. split; [exact H2|].
  simpl. rewrite T. split; [reflexivity|]. intros _. repeat split. exact Idle.
Qed.


End Cuts.

Section BoundaryCut.
Context {P : Platform}.

Lemma handleSleepWake_cut sleepStart wakeTime w :
  handleSleepWake sleepStart wakeTime w = boundary_cut sleepStart wakeTime wakeTime w.
Proof. reflexivity. Qed.

Lemma splitSessionsAtMidnight_cut w :
  splitSessionsAtMidnight w
  = boundary_cut (setHoursZero (clock w)) (setHoursZero (clock w)) (clock w) w.
Proof. reflexivity. Qed.

Lemma running_since_In projectId start w :
  running_since projectId start w ->
  exists session,
    In (projectId, session) (activeSessions (trackingState w))
    /\ JsMap.get projectId (activeSessions (trackingState w)) = Some session
    /\ sessionStartTime session = Some start
    /\ session_running session = true.
Proof.
  intros (session & G & S & R). exists session.
  split; [now apply JsMapFacts.get_In|auto].
Qed.

(** The tracker's variables after a cut. *)
Lemma boundary_cut_runtime boundary restart activity w :
  let w' := boundary_cut boundary restart activity w in
  setup w' = setup w
  /\ lastHeartbeat w' = lastHeartbeat w
  /\ lastKnownDate w' = lastKnownDate w
  /\ activeSessions (trackingState w')
     = map (cut_entry restart activity) (activeSessions (trackingState w))
  /\ (global_running (trackingState w) = true ->
      globalSessionStartTime (trackingState w') = Some restart
      /\ globalLastActivityTime (trackingState w') = Some activity
      /\ globalIsIdle (trackingState w') = false).
Proof.
  cbv zeta. unfold boundary_cut.
  destruct (cut_global_runtime boundary restart activity w) as (S1 & H1 & K1 & A1 & G1).
  set (w1 := cut_global boundary restart activity w) in *.
  destruct (cut_sessions_runtime boundary restart activity
              (activeSessions (trackingState w1)) w1) as (R2 & S2 & F2).
  destruct (cut_sessions boundary restart activity
              (activeSessions (trackingState w1)) w1) as [m w2]; simpl in *.
  unfold runtime in R2.
  assert (T : trackingState w2 = trackingState w1) by congruence.
  assert (H2 : lastHeartbeat w2 = lastHeartbeat w1) by congruence.
  assert (K2 : lastKnownDate w2 = lastKnownDate w1) by congruence.
  split; [transitivity (setup w2); [reflexivity|congruence]|].
  split; [transitivity (lastHeartbeat w2); [reflexivity|congruence]|].
  split; [transitivity (lastKnownDate w2); [reflexivity|congruence]|].
  split; [now rewrite F2, A1|].
  intros Run. rewrite T. exact (G1 Run).
Qed.



End BoundaryCut.

(** ** Closing an interval by [stopTracking] *)

Section StopFacts.
Context {P : Platform}.

Lemma can_persist_same_store w w' : same_store w w' -> can_persist w -> can_persist w'.
Proof.
  unfold same_store, persisted.
  intros (Hp & _ & Hpos & Hr & Hc & H1 & H2 & _) (Hi & Hw & Hf).
  assert (Hd : disk w' = disk w) by congruence.
  split; [|split].
  - unfold initialised in *. now rewrite H1, H2.
  - intros path. rewrite Hd. apply Hw.
  - unfold fresh_ids, stored_archive, readArchiveFromDisk in *.
    rewrite Hpos, Hr, Hc, Hd. exact Hf.
Qed.

Lemma store_step_same_store w w' : same_store w w' -> can_persist w -> store_step w w'.
Proof.
  intros Hs Hc. split; [now apply (can_persist_same_store w)|].
  unfold same_store, persisted in Hs. destruct Hs as (Hp & _).
  assert (Hd : disk w' = disk w) by congruence.
  assert (Hps : projectsState w' = projectsState w) by congruence.
  split.
  - unfold live_grows, live_sessions, has_project. rewrite Hps.
    repeat split; auto using incl_refl.
  - unfold archive_grows, stored_archive, readArchiveFromDisk. rewrite Hd.
    intros y m s _. split; auto.
Qed.

Lemma same_store_tracking s w : same_store w (State_set_tracking s w).
Proof. repeat split. Qed.

Lemma same_store_idleTimers v w : same_store w (with_idleTimers v w).
Proof. repeat split. Qed.

Lemma same_store_lastOutputTimes v w : same_store w (with_lastOutputTimes v w).
Proof. repeat split. Qed.

Lemma same_store_sym w w' : same_store w w' -> same_store w' w.
Proof.
  unfold same_store.
  intros (A1 & A2 & A3 & A4 & A5 & A6 & A7 & A8 & A9 & A10). repeat split; congruence.
Qed.




End StopFacts.

(* ================================================================== *)
(** * Output activity *)
(* ================================================================== *)

Lemma with_output_times_id w :
  with_globalLastOutputTime (globalLastOutputTime w)
    (with_lastOutputTimes (lastOutputTimes w) w) = w.
Proof. now destruct w. Qed.

(** C5.  [recordOutputActivity] changes nothing but the two recorded output
    timestamps ([lastOutputTimes] and [globalLastOutputTime]): the tracking
    state, with the start, the last activity and the idle flag of every
    entity and of the global interval, is the one before the call; and for
    an entity that is not tracked, or is idle, the whole world is unchanged,
    so output never makes an idle entity active again. *)
Theorem recordOutputActivity_only_output_times :
  forall (projectId : string) (w : World),
    let w' := recordOutputActivity projectId w in
    (exists times globalTime,
        w' = with_globalLastOutputTime globalTime (with_lastOutputTimes times w))
    /\ trackingState w' = trackingState w
    /\ match JsMap.get projectId (activeSessions (trackingState w)) with
       | Some session => isIdle session = true -> w' = w
       | None => w' = w
       end.
Proof.
  intros projectId w. cbv zeta. unfold recordOutputActivity.
  destruct (String.eqb projectId "").
  - split; [|split; [reflexivity|]].
    + exists (lastOutputTimes w), (globalLastOutputTime w).
      symmetry. apply with_output_times_id.
    + now destruct (JsMap.get projectId (activeSessions (trackingState w))).
  - destruct (JsMap.get projectId (activeSessions (trackingState w))) as [session|].
    + destruct (isIdle session) eqn:Idle.
      * split; [|split; [reflexivity|reflexivity]].
        exists (lastOutputTimes w), (globalLastOutputTime w).
        symmetry. apply with_output_times_id.
      * split; [|split; [reflexivity|discriminate]].
        now exists (JsMap.set projectId (clock w) (lastOutputTimes w)), (clock w).
    + split; [|split; reflexivity].
      exists (lastOutputTimes w), (globalLastOutputTime w).
      symmetry. apply with_output_times_id.
Qed.

(* ================================================================== *)
(** * Tracker operations before init *)
(* ================================================================== *)

(** C10, as the specification states it, fails: before [initTimeTracking]
    has stored any reference, [startTracking] does open the runtime interval
    of the project and the global one. *)
Lemma startTracking_before_init_changes_tracking :
  initialised demoLoaded = false
  /\ trackingState (startTracking "proj-1" demoLoaded) <> trackingState demoLoaded
  /\ JsMap.get "proj-1" (activeSessions (trackingState (startTracking "proj-1" demoLoaded)))
     = Some {| sessionStartTime := Some 1769900400000;
               lastActivityTime := 1769900400000;
               isIdle := false |}.
Proof.
  split; [reflexivity|]. split; [|reflexivity].
  vm_compute. discriminate.
Qed.

(** C10, amended.  Called before init (one of the references to the
    projects state and to its save function is missing), each of
    [startTracking], [stopTracking], [recordActivity] and
    [recordOutputActivity] returns and leaves the persisted dataset, the
    save count and the archive files as they were; the runtime tracking
    state is updated as usual: [startTracking] of a project that is not
    tracked opens its interval at the current time. *)
Theorem tracker_before_init_keeps_dataset :
  forall (P : Platform) (projectId : string) (w : World),
    initialised w = false ->
    persisted (startTracking projectId w) = persisted w
    /\ persisted (stopTracking projectId w) = persisted w
    /\ persisted (recordActivity projectId w) = persisted w
    /\ persisted (recordOutputActivity projectId w) = persisted w
    /\ (projectId <> ""%string ->
        JsMap.get projectId (activeSessions (trackingState w)) = None ->
        JsMap.get projectId (activeSessions (trackingState (startTracking projectId w)))
        = Some {| sessionStartTime := Some (clock w);
                  lastActivityTime := clock w;
                  isIdle := false |}).
Proof.
  intros P projectId w H.
  split; [apply (same_store_startTracking projectId w)|].
  split; [apply (same_store_stopTracking projectId w H)|].
  split; [apply (same_store_recordActivity projectId w)|].
  split; [apply (same_store_recordOutputActivity projectId w)|].
  intros Hne Hget. unfold startTracking.
  destruct (String.eqb projectId "") eqn:E;
    [apply String.eqb_eq in E; contradiction|].
  rewrite Hget. cbv zeta.
  rewrite trackingState_restartIdleTimer.
  destruct (Nat.eqb (getActiveNonIdleCount w) 0).
  - unfold startGlobalTimer; simpl.
    destruct (global_running _); simpl.
    + apply JsMapFacts.get_set_eq.
    + destruct (globalIdleTimer w); simpl; apply JsMapFacts.get_set_eq.
  - simpl. apply JsMapFacts.get_set_eq.
Qed.

Lemma tracker_before_init_keeps_dataset_witness :
  initialised demoLoaded = false
  /\ persisted (startTracking "proj-1" demoLoaded) = persisted demoLoaded
  /\ persisted (@stopTracking utc "proj-1" (startTracking "proj-1" demoLoaded))
     = persisted demoLoaded.
Proof.
  split; [reflexivity|]. split.
  - exact (proj1 (tracker_before_init_keeps_dataset utc "proj-1" demoLoaded eq_refl)).
  - rewrite (proj1 (proj2 (tracker_before_init_keeps_dataset utc "proj-1"
                             (startTracking "proj-1" demoLoaded) eq_refl))).
    exact (proj1 (tracker_before_init_keeps_dataset utc "proj-1" demoLoaded eq_refl)).
Defined.

(* ================================================================== *)
(** * The sanitizer *)
(* ================================================================== *)

Lemma filter_same_length {A} (f : A -> bool) (l : list A) :
  List.length (filter f l) = List.length l -> filter f l = l.
Proof.
  induction l as [|a l IH]; simpl; [reflexivity|].
  destruct (f a); simpl; intros H.
  - f_equal. apply IH. lia.
  - pose proof (filter_length_le f l). lia.
Qed.

Section SanitizerFacts.
Context {P : Platform}.

Lemma keep_session_valid (s : Session) : keep_session s = true -> valid_session s.
Proof.
  unfold keep_session, valid_session.
  destruct (negb (truthy_string (startTime s)) || negb (truthy_string (endTime s)));
    [discriminate|].
  destruct (duration s) as [[| |d]|]; simpl; try discriminate.
  destruct (d <=? 0) eqn:Pos; [discriminate|].
  unfold maxReasonableDuration.
  destruct (24 * 60 * 60 * 1000 <? d) eqn:Max; [discriminate|].
  destruct (time_of (startTime s)) as [t0|]; [|discriminate].
  destruct (time_of (endTime s)) as [t1|]; [|discriminate].
  destruct (t1 <? t0) eqn:Ord; [discriminate|]. intros _.
  exists d, t0, t1. repeat split; try reflexivity; lia.
Qed.

Lemma sanitize_sessions_spec (l : option (list Session)) :
  Forall (fun s => keep_session s = true) (fst (sanitize_sessions l))
  /\ incl (fst (sanitize_sessions l)) (or_empty l)
  /\ (snd (sanitize_sessions l) = false -> l = Some (fst (sanitize_sessions l))).
Proof.
  unfold sanitize_sessions. destruct l as [l|]; simpl.
  - destruct (Nat.eqb (List.length (filter keep_session l)) (List.length l)) eqn:E; simpl.
    + apply Nat.eqb_eq, filter_same_length in E. repeat split.
      * rewrite <- E. apply Forall_forall. intros s Hs.
        now apply filter_In in Hs.
      * apply incl_refl.
    + repeat split; try discriminate.
      * apply Forall_forall. intros s Hs. now apply filter_In in Hs.
      * intros s Hs. now apply filter_In in Hs.
  - repeat split; try discriminate; [constructor|apply incl_refl].
Qed.

Lemma sanitize_project_spec (now : Z) (p : Project) :
  Forall (fun s => keep_session s = true) (sessions_of_project (fst (sanitize_project now p)))
  /\ incl (sessions_of_project (fst (sanitize_project now p))) (sessions_of_project p)
  /\ p_id (fst (sanitize_project now p)) = p_id p
  /\ (snd (sanitize_project now p) = false -> fst (sanitize_project now p) = p).
Proof.
  unfold sanitize_project, sessions_of_project.
  destruct p as [pid name [t|]]; simpl;
    [|repeat split; try constructor; apply incl_refl].
  destruct (sanitize_sessions_spec (sessions t)) as (Hall & Hincl & Hsame).
  destruct (sanitize_sessions (sessions t)) as [valid changed]; simpl in *.
  destruct (bad_counter (totalTime t)) eqn:B1;
  destruct (bad_counter (todayTime t)) eqn:B2;
  destruct (if truthy_string (lastActiveDate t)
            then match lastActiveDate t with
                 | Some text => match date_at_midnight text with
                                | Some lastDate => lastDate >? now + 86400000
                                | None => false
                                end
                 | None => false
                 end
            else false) eqn:B3; simpl;
    repeat split; try assumption; try discriminate.
  intros C. rewrite <- (Hsame C). now destruct t.
Qed.

Lemma sanitize_global_spec (g : GlobalTimeTracking) :
  Forall (fun s => keep_session s = true) (or_empty (g_sessions (fst (sanitize_global g))))
  /\ incl (or_empty (g_sessions (fst (sanitize_global g)))) (or_empty (g_sessions g))
  /\ (snd (sanitize_global g) = false -> fst (sanitize_global g) = g).
Proof.
  unfold sanitize_global.
  destruct (sanitize_sessions_spec (g_sessions g)) as (Hall & Hincl & Hsame).
  destruct (sanitize_sessions (g_sessions g)) as [valid changed]; simpl in *.
  repeat split; try assumption.
  intros C. apply orb_false_iff in C. destruct C as [C1 C2].
  rewrite <- (Hsame C2).
  apply orb_false_iff in C1. destruct C1 as [C1 B4].
  apply orb_false_iff in C1. destruct C1 as [C1 B3].
  apply orb_false_iff in C1. destruct C1 as [B1 B2].
  destruct g; simpl in *.
  repeat match goal with H : bad_counter _ = false |- _ => rewrite H; clear H end.
  reflexivity.
Qed.

Lemma sanitize_projects_rel (now : Z) (ps : list Project) :
  Forall2 (fun p p' =>
             p_id p' = p_id p
             /\ Forall (fun s => keep_session s = true) (sessions_of_project p')
             /\ incl (sessions_of_project p') (sessions_of_project p))
          ps (map fst (map (sanitize_project now) ps)).
Proof.
  induction ps as [|p ps IH]; simpl; constructor; [|exact IH].
  destruct (sanitize_project_spec now p) as (A & B & C & _). auto.
Qed.

Lemma sanitize_projects_same (now : Z) (ps : list Project) :
  existsb snd (map (sanitize_project now) ps) = false ->
  map fst (map (sanitize_project now) ps) = ps.
Proof.
  induction ps as [|p ps IH]; simpl; [reflexivity|].
  intros E. apply orb_false_iff in E. destruct E as [E1 E2].
  destruct (sanitize_project_spec now p) as (_ & _ & _ & D).
  rewrite (D E1), (IH E2). reflexivity.
Qed.

(** The dataset that [sanitizeTimeTrackingData] leaves. *)
Lemma sanitizer_result (w : World) :
  projectsStateRef w = true ->
  let sanitized := map (sanitize_project (clock w)) (projects (projectsState w)) in
  let global := option_map sanitize_global (globalTimeTracking (projectsState w)) in
  let needsSave :=
    existsb snd sanitized || match global with Some gc => snd gc | None => false end in
  projectsState (world_of (sanitizeTimeTrackingData w))
  = if needsSave
    then {| projects := map fst sanitized;
            globalTimeTracking := option_map fst global |}
    else projectsState w.
Proof.
  intros Href. cbv zeta. unfold sanitizeTimeTrackingData. rewrite Href. simpl.
  destruct (globalTimeTracking (projectsState w)) as [g|]; simpl.
  - destruct (sanitize_global g) as [g' c]; simpl.
    destruct (existsb snd _ || c); [|reflexivity].
    now destruct (saveProjectsRef w).
  - destruct (existsb snd _ || false); [|reflexivity].
    now destruct (saveProjectsRef w).
Qed.

Lemma sanitizer_dataset (w : World) :
  projectsStateRef w = true ->
  let after := projectsState (world_of (sanitizeTimeTrackingData w)) in
  Forall2 (fun p p' =>
             p_id p' = p_id p
             /\ Forall (fun s => keep_session s = true) (sessions_of_project p')
             /\ incl (sessions_of_project p') (sessions_of_project p))
          (projects (projectsState w)) (projects after)
  /\ Forall (fun s => keep_session s = true) (sessions_of_global after)
  /\ incl (sessions_of_global after) (sessions_of_global (projectsState w)).
Proof.
  intros Href. cbv zeta. rewrite (sanitizer_result w Href). cbv zeta.
  pose proof (sanitize_projects_rel (clock w) (projects (projectsState w))) as Ps.
  pose proof (sanitize_projects_same (clock w) (projects (projectsState w))) as Same.
  unfold sessions_of_global.
  destruct (globalTimeTracking (projectsState w)) as [g|] eqn:Eg; simpl.
  - destruct (sanitize_global_spec g) as (G1 & G2 & G3).
    destruct (existsb snd _ || snd (sanitize_global g)) eqn:Need; simpl.
    + auto.
    + apply orb_false_iff in Need. destruct Need as [N1 N2].
      rewrite Eg. rewrite (Same N1) in Ps. rewrite (G3 N2) in G1.
      repeat split; [exact Ps|exact G1|apply incl_refl].
  - destruct (existsb snd _ || false) eqn:Need; simpl.
    + repeat split; [exact Ps|constructor|apply incl_refl].
    + apply orb_false_iff in Need. destruct Need as [N1 _].
      rewrite Eg. rewrite (Same N1) in Ps.
      repeat split; [exact Ps|constructor|apply incl_refl].
Qed.

End SanitizerFacts.

(** C8.  After the startup sanitizer ran on the live dataset, every session
    left in the list of any project and in the global list has a finite
    duration in (0, 24 h], a start and an end that parse, and an end that is
    not before its start; the sessions left are sessions that were there, so
    every session that breaks one of these conditions was dropped. *)
Theorem sanitizer_keeps_only_valid_sessions :
  forall (P : Platform) (w : World),
    projectsStateRef w = true ->
    let before := projectsState w in
    let after := projectsState (world_of (sanitizeTimeTrackingData w)) in
    (forall p s, In p (projects after) -> In s (sessions_of_project p) -> valid_session s)
    /\ (forall s, In s (sessions_of_global after) -> valid_session s)
    /\ Forall2 (fun p p' =>
                  p_id p' = p_id p
                  /\ forall s, In s (sessions_of_project p) ->
                               ~ valid_session s -> ~ In s (sessions_of_project p'))
               (projects before) (projects after)
    /\ (forall s, In s (sessions_of_global before) ->
                  ~ valid_session s -> ~ In s (sessions_of_global after)).
Proof.
  intros P w Href. cbv zeta.
  destruct (sanitizer_dataset w Href) as (Ps & G1 & G2).
  set (after := projectsState (world_of (sanitizeTimeTrackingData w))) in *.
  split; [|split; [|split]].
  - intros p s Hp Hs.
    assert (K : Forall (fun s => keep_session s = true) (sessions_of_project p)).
    { clear - Ps Hp. induction Ps as [|p0 p' l l' R _ IH]; [destruct Hp|].
      destruct Hp as [<-|Hp]; [apply R|now apply IH]. }
    rewrite Forall_forall in K. now apply keep_session_valid, K.
  - intros s Hs. rewrite Forall_forall in G1. now apply keep_session_valid, G1.
  - induction Ps as [|p p' l l' R _ IH]; constructor; [|exact IH].
    destruct R as (Rid & Rkeep & _). split; [exact Rid|].
    intros s _ Hbad Hin. apply Hbad.
    rewrite Forall_forall in Rkeep. now apply keep_session_valid, Rkeep.
  - intros s _ Hbad Hin. apply Hbad.
    rewrite Forall_forall in G1. now apply keep_session_valid, G1.
Qed.

Lemma sanitizer_keeps_only_valid_sessions_witness :
  projectsStateRef dirtyWorld = true
  /\ (forall s,
        In s (sessions_of_global
                (projectsState (world_of (@sanitizeTimeTrackingData utc dirtyWorld)))) ->
        @valid_session utc s)
  /\ sessions_of_global
       (projectsState (world_of (@sanitizeTimeTrackingData utc dirtyWorld)))
     = [goodSession].
Proof.
  split; [reflexivity|]. split; [|reflexivity].
  exact (proj1 (proj2 (sanitizer_keeps_only_valid_sessions utc dirtyWorld eq_refl))).
Defined.

(** C9.  The sanitizer clears a date more than one day in the future on the
    record of a project (it sets [lastActiveDate] to [null] and [todayTime]
    to [0]), and leaves the same date on the global record in place: on a
    dataset of 2026-01-31 whose two records both carry the date 2999-01-01,
    only the project's record is repaired. *)
Theorem sanitizer_leaves_future_date_on_global_record :
  let after := projectsState (world_of (@sanitizeTimeTrackingData utc futureWorld)) in
  map (fun p => option_map (fun t => (lastActiveDate t, todayTime t)) (timeTracking p))
      (projects after)
  = [Some (None, Some (Num 0))]
  /\ option_map (fun g => (g_lastActiveDate g, g_todayTime g)) (globalTimeTracking after)
     = Some (Some "2999-01-01"%string, Some (Num 5000)).
Proof. split; reflexivity. Qed.

(* ================================================================== *)
(** * The archive store: idempotence and round trip *)
(* ================================================================== *)


(** C6, as the specification states it, fails: a list that holds the same
    session twice is appended with both copies, and the second call does not
    remove them. *)
Lemma appendToArchive_twice_keeps_batch_duplicate :
  let w1 := @appendToArchive utc (Some 2025) (Some 11)
              [twiceSession; twiceSession] [] demoReady in
  let w2 := @appendToArchive utc (Some 2025) (Some 11)
              [twiceSession; twiceSession] [] w1 in
  exists a,
    @stored_archive utc (Some 2025) (Some 11) w2 = Some a
    /\ globalSessions a = [twiceSession; twiceSession]
    /\ occurrences "sess-7" (globalSessions a) = 2%nat.
Proof.
  cbv zeta. eexists. split; [vm_compute; reflexivity|]. split; reflexivity.
Qed.

(** C6, amended.  For a global list and per-entity lists that carry no id
    twice, and an archive file that is absent or has no id twice in any of
    its lists, two calls of [appendToArchive] in succession leave an archive
    file with no id twice in its global list or in the list of any entity;
    and when the file can be written, every id of the global list occurs
    exactly once in the stored global list, and every id of an entity's
    list exactly once in the stored list of that entity. *)
Theorem appendToArchive_twice_no_duplicates :
  forall (P : Platform) (year month : JsInt) (G : list Session)
         (PM : list (string * ProjectArchive)) (w : World) (later : Z),
    NoDup (ids G) ->
    distinct_ids PM ->
    (forall a, stored_archive year month w = Some a -> archive_wf a) ->
    let w1 := appendToArchive year month G PM w in
    let w2 := appendToArchive year month G PM (with_clock later w1) in
    (forall a, stored_archive year month w2 = Some a -> archive_wf a)
    /\ (can_write year month w ->
        exists a,
          stored_archive year month w2 = Some a
          /\ (forall s, In s G -> occurrences (id s) (globalSessions a) = 1%nat)
          /\ (forall projectId data s,
                In (projectId, data) PM -> In s (pa_sessions data) ->
                occurrences (id s) (stored_project projectId (Some a)) = 1%nat)).
Proof.
  intros P year month G PM w later HG HPM Hst. cbv zeta.
  set (w1 := appendToArchive year month G PM w).
  assert (Hst1 : forall a, stored_archive year month (with_clock later w1) = Some a ->
                           archive_wf a).
  { intros a Ha. exact (appendToArchive_wf year month G PM w Hst HG HPM a Ha). }
  assert (Hst2 : forall a,
             stored_archive year month
               (appendToArchive year month G PM (with_clock later w1)) = Some a ->
             archive_wf a).
  { intros a Ha.
    exact (appendToArchive_wf year month G PM (with_clock later w1) Hst1 HG HPM a Ha). }
  split; [exact Hst2|].
  intros Hw.
  assert (Hw1 : can_write year month (with_clock later w1)).
  { exact (can_write_appendToArchive year month year month G PM w Hw). }
  pose proof (appendToArchive_written year month G PM (with_clock later w1) Hw1) as E.
  eexists. split; [exact E|]. pose proof (Hst2 _ E) as Hwf. split.
  - intros s Hs. apply NoDup_occurs_once; [apply Hwf|].
    now apply merged_archive_has_global.
  - intros projectId data s Hin Hs. apply NoDup_occurs_once.
    + now apply archive_wf_project.
    + now apply (merged_archive_has_project year month G PM (with_clock later w1)
                   projectId data s).
Qed.

Lemma appendToArchive_twice_no_duplicates_witness :
  let G := [twiceSession; otherSession] in
  let PM := [("proj-1"%string,
              {| projectName := "One"%string; pa_sessions := [twiceSession] |})] in
  let w1 := @appendToArchive utc (Some 2025) (Some 11) G PM demoReady in
  let w2 := @appendToArchive utc (Some 2025) (Some 11) G PM
              (with_clock (clock demoReady + 60000) w1) in
  NoDup (ids G)
  /\ distinct_ids PM
  /\ @can_write utc (Some 2025) (Some 11) demoReady
  /\ exists a,
       @stored_archive utc (Some 2025) (Some 11) w2 = Some a
       /\ (forall s, In s G -> occurrences (id s) (globalSessions a) = 1%nat)
       /\ (forall projectId data s,
             In (projectId, data) PM -> In s (pa_sessions data) ->
             occurrences (id s) (stored_project projectId (Some a)) = 1%nat).
Proof.
  cbv zeta.
  assert (HG : NoDup (ids [twiceSession; otherSession])).
  { repeat constructor; simpl; intuition discriminate. }
  assert (HPM : distinct_ids
                  [("proj-1"%string,
                    {| projectName := "One"%string; pa_sessions := [twiceSession] |})]).
  { repeat constructor; simpl; intuition. }
  assert (Hw : @can_write utc (Some 2025) (Some 11) demoReady).
  { split; reflexivity. }
  split; [exact HG|]. split; [exact HPM|]. split; [exact Hw|].
  refine (proj2 (appendToArchive_twice_no_duplicates utc (Some 2025) (Some 11)
                   [twiceSession; otherSession]
                   [("proj-1"%string,
                     {| projectName := "One"%string; pa_sessions := [twiceSession] |})]
                   demoReady (clock demoReady + 60000) HG HPM _) Hw).
  intros a Ha. vm_compute in Ha. discriminate.
Defined.




(* ================================================================== *)
(** * The idle timeout and the output grace window *)
(* ================================================================== *)

Lemma restartIdleTimer_due projectId delay w :
  idle_timer_due projectId (clock w + delay) (restartIdleTimer projectId delay w).
Proof.
  unfold idle_timer_due, restartIdleTimer.
  exists (next_timer w).
  destruct (JsMap.get projectId (idleTimers w)) as [old|]; simpl;
    (split; [apply JsMapFacts.get_set_eq|apply in_or_app; right; now left]).
Qed.

Lemma lastOutputTimes_restartIdleTimer projectId delay w :
  lastOutputTimes (restartIdleTimer projectId delay w) = lastOutputTimes w.
Proof.
  unfold restartIdleTimer. now destruct (JsMap.get projectId (idleTimers w)).
Qed.

Section GraceWindow.
Context {P : Platform}.

Lemma checkAndPauseTracking_fresh projectId w :
  clock w - lastOutput projectId w < OUTPUT_IDLE_TIMEOUT ->
  checkAndPauseTracking projectId w
  = restartIdleTimer projectId
      (OUTPUT_IDLE_TIMEOUT - (clock w - lastOutput projectId w) + 100) w.
Proof.
  intros H. unfold checkAndPauseTracking.
  destruct (Z.ltb_spec (clock w - lastOutput projectId w) OUTPUT_IDLE_TIMEOUT);
    [reflexivity|lia].
Qed.

Lemma checkAndPauseTracking_stale projectId w :
  OUTPUT_IDLE_TIMEOUT <= clock w - lastOutput projectId w ->
  checkAndPauseTracking projectId w = pauseTracking projectId w.
Proof.
  intros H. unfold checkAndPauseTracking.
  destruct (Z.ltb_spec (clock w - lastOutput projectId w) OUTPUT_IDLE_TIMEOUT);
    [lia|reflexivity].
Qed.

Lemma checkAndPauseGlobalTimer_fresh w :
  clock w - globalLastOutputTime w < OUTPUT_IDLE_TIMEOUT ->
  trackingState (checkAndPauseGlobalTimer w) = trackingState w
  /\ lastOutputTimes (checkAndPauseGlobalTimer w) = lastOutputTimes w
  /\ persisted (checkAndPauseGlobalTimer w) = persisted w
  /\ global_timer_due
       (clock w + (OUTPUT_IDLE_TIMEOUT - (clock w - globalLastOutputTime w) + 100))
       (checkAndPauseGlobalTimer w).
Proof.
  intros H. unfold checkAndPauseGlobalTimer, global_timer_due.
  destruct (Z.ltb_spec (clock w - globalLastOutputTime w) OUTPUT_IDLE_TIMEOUT); [|lia].
  destruct (globalIdleTimer w) as [old|]; simpl;
    (repeat split; exists (next_timer w);
     split; [reflexivity|apply in_or_app; right; now left]).
Qed.

Lemma checkAndPauseGlobalTimer_stale w :
  OUTPUT_IDLE_TIMEOUT <= clock w - globalLastOutputTime w ->
  checkAndPauseGlobalTimer w = pauseGlobalTimer w.
Proof.
  intros H. unfold checkAndPauseGlobalTimer.
  destruct (Z.ltb_spec (clock w - globalLastOutputTime w) OUTPUT_IDLE_TIMEOUT);
    [lia|reflexivity].
Qed.

(** What an event leaves of the interval and of the latest output of a
    project it is not about. *)
Lemma recordOutputActivity_other projectId other w :
  projectId <> other ->
  trackingState (recordOutputActivity projectId w) = trackingState w
  /\ lastOutput other (recordOutputActivity projectId w) = lastOutput other w.
Proof.
  intros Hne. unfold recordOutputActivity, lastOutput.
  destruct (String.eqb projectId ""); [now split|].
  destruct (JsMap.get projectId (activeSessions (trackingState w))) as [s|];
    [|now split].
  destruct (isIdle s); [now split|]. simpl. split; [reflexivity|].
  now rewrite JsMapFacts.get_set_ne.
Qed.

Lemma checkAndPauseTracking_other projectId other w :
  projectId <> other ->
  JsMap.get other (activeSessions (trackingState (checkAndPauseTracking projectId w)))
  = JsMap.get other (activeSessions (trackingState w))
  /\ lastOutput other (checkAndPauseTracking projectId w) = lastOutput other w.
Proof.
  intros Hne. unfold checkAndPauseTracking, lastOutput.
  destruct (_ <? OUTPUT_IDLE_TIMEOUT).
  - now rewrite trackingState_restartIdleTimer, lastOutputTimes_restartIdleTimer.
  - destruct (pauseTracking_other projectId other w Hne) as [A L].
    now rewrite A, L.
Qed.

Lemma checkAndPauseGlobalTimer_projects w :
  activeSessions (trackingState (checkAndPauseGlobalTimer w))
  = activeSessions (trackingState w)
  /\ lastOutputTimes (checkAndPauseGlobalTimer w) = lastOutputTimes w.
Proof.
  unfold checkAndPauseGlobalTimer.
  destruct (_ <? OUTPUT_IDLE_TIMEOUT); [|apply activeSessions_pauseGlobalTimer].
  destruct (globalIdleTimer w); now split.
Qed.

Lemma deliver_keeps_alive projectId start limit :
  limit < OUTPUT_IDLE_TIMEOUT -> projectId <> ""%string ->
  forall events last w,
    kept_alive projectId start last w ->
    output_within limit projectId last events ->
    running_since projectId start (run events w).
Proof.
  intros Hlimit Hne. induction events as [|[t e] rest IH]; intros last w Hinv Hsched.
  - exact (proj1 Hinv).
  - simpl. destruct Hinv as [(session & Hget & Hstart & Hrun) Hlast].
    destruct e as [p|p|]; simpl in Hsched.
    + (* output *)
      apply (IH (if String.eqb p projectId then t else last)); [|exact Hsched].
      unfold deliver; simpl.
      destruct (String.eqb p projectId) eqn:E.
      * apply String.eqb_eq in E. subst p. unfold recordOutputActivity; simpl.
        destruct (String.eqb projectId "") eqn:E0;
          [apply String.eqb_eq in E0; contradiction|].
        rewrite Hget, (session_running_not_idle _ Hrun). split.
        -- exists session. auto.
        -- unfold lastOutput; simpl. now rewrite JsMapFacts.get_set_eq.
      * apply String.eqb_neq in E.
        destruct (recordOutputActivity_other p projectId (with_clock t w) E) as [T L].
        split.
        -- exists session. rewrite T. auto.
        -- rewrite L. exact Hlast.
    + (* the idle timer of a project *)
      destruct Hsched as [Hfresh Hsched]. apply (IH last); [|exact Hsched].
      unfold deliver; simpl.
      destruct (String.eqb p projectId) eqn:E.
      * apply String.eqb_eq in E. subst p.
        rewrite checkAndPauseTracking_fresh
          by (simpl; change (lastOutput projectId (with_clock t w))
                       with (lastOutput projectId w); lia).
        split.
        -- exists session. rewrite trackingState_restartIdleTimer. auto.
        -- unfold lastOutput. rewrite lastOutputTimes_restartIdleTimer. exact Hlast.
      * apply String.eqb_neq in E.
        destruct (checkAndPauseTracking_other p projectId (with_clock t w) E) as [A L].
        split.
        -- exists session. rewrite A. auto.
        -- rewrite L. exact Hlast.
    + (* the global idle timer *)
      apply (IH last); [|exact Hsched].
      unfold deliver; simpl.
      destruct (checkAndPauseGlobalTimer_projects (with_clock t w)) as [A L].
      split.
      * exists session. rewrite A. auto.
      * unfold lastOutput. rewrite L. exact Hlast.
Qed.

End GraceWindow.

(** C4, as the specification states it, fails at the bound: with output
    exactly every two minutes, a callback that runs two minutes after the
    latest output finds it stale and pauses the project. *)
Lemma output_every_two_minutes_goes_idle :
  running_since "proj-1" 1769900400000 demoTracking
  /\ output_within (2 * 60 * 1000) "proj-1" (lastOutput "proj-1" demoTracking)
       twoMinuteSchedule
  /\ isTracking "proj-1" (@run utc twoMinuteSchedule demoTracking) = false
  /\ JsMap.get "proj-1"
       (activeSessions (trackingState (@run utc twoMinuteSchedule demoTracking)))
     = Some {| sessionStartTime := None;
               lastActivityTime := 1769900400000;
               isIdle := true |}.
Proof.
  split.
  { eexists. split; [vm_compute; reflexivity|]. split; reflexivity. }
  split.
  { vm_compute. intuition discriminate. }
  split; vm_compute; reflexivity.
Qed.

(** C4, amended.  When the callback of the idle timer of an entity runs
    and the latest recorded output of the entity is less than 2 minutes
    old, the entity is not paused and nothing is persisted: the timer is set
    again, to fire (2 minutes - time since the output) + 100 ms later; when
    the output is 2 minutes old or older the callback is the idle
    transition [pauseTracking]; the callback of the global timer does the
    same with the latest output of any entity.  Hence an entity whose latest
    output is, at every run of its idle callback, at most [limit] old for
    some [limit] below 2 minutes (output every 90 seconds is such a case)
    keeps its running interval, with its start, whatever the callbacks of
    that schedule. *)
Theorem idle_timeout_deferred_by_recent_output :
  forall (P : Platform) (projectId : string) (w : World),
    (clock w - lastOutput projectId w < OUTPUT_IDLE_TIMEOUT ->
       trackingState (checkAndPauseTracking projectId w) = trackingState w
       /\ persisted (checkAndPauseTracking projectId w) = persisted w
       /\ idle_timer_due projectId
            (clock w + (OUTPUT_IDLE_TIMEOUT - (clock w - lastOutput projectId w) + 100))
            (checkAndPauseTracking projectId w))
    /\ (OUTPUT_IDLE_TIMEOUT <= clock w - lastOutput projectId w ->
          checkAndPauseTracking projectId w = pauseTracking projectId w)
    /\ (clock w - globalLastOutputTime w < OUTPUT_IDLE_TIMEOUT ->
          trackingState (checkAndPauseGlobalTimer w) = trackingState w
          /\ persisted (checkAndPauseGlobalTimer w) = persisted w
          /\ global_timer_due
               (clock w + (OUTPUT_IDLE_TIMEOUT - (clock w - globalLastOutputTime w) + 100))
               (checkAndPauseGlobalTimer w))
    /\ (OUTPUT_IDLE_TIMEOUT <= clock w - globalLastOutputTime w ->
          checkAndPauseGlobalTimer w = pauseGlobalTimer w)
    /\ (forall (limit start : Z) (events : list (Z * Event)),
          limit < OUTPUT_IDLE_TIMEOUT ->
          projectId <> ""%string ->
          running_since projectId start w ->
          output_within limit projectId (lastOutput projectId w) events ->
          running_since projectId start (run events w)).
Proof.
  intros P projectId w. split; [|split; [|split; [|split]]].
  - intros H. rewrite (checkAndPauseTracking_fresh projectId w H).
    split; [apply trackingState_restartIdleTimer|].
    split; [apply same_store_restartIdleTimer|apply restartIdleTimer_due].
  - apply checkAndPauseTracking_stale.
  - intros H. destruct (checkAndPauseGlobalTimer_fresh w H) as (A & _ & B & C). auto.
  - apply checkAndPauseGlobalTimer_stale.
  - intros limit start events Hlimit Hne Hrun Hsched.
    apply (deliver_keeps_alive projectId start limit Hlimit Hne events
             (lastOutput projectId w) w); [|exact Hsched].
    split; [exact Hrun|reflexivity].
Qed.

Lemma idle_timeout_deferred_by_recent_output_witness :
  90000 < OUTPUT_IDLE_TIMEOUT
  /\ running_since "proj-1" 1769900400000 demoTracking
  /\ output_within 90000 "proj-1" (lastOutput "proj-1" demoTracking) ninetySecondSchedule
  /\ running_since "proj-1" 1769900400000 (@run utc ninetySecondSchedule demoTracking).
Proof.
  assert (Hrun : running_since "proj-1" 1769900400000 demoTracking).
  { eexists. split; [vm_compute; reflexivity|]. split; reflexivity. }
  assert (Hsched : output_within 90000 "proj-1" (lastOutput "proj-1" demoTracking)
                     ninetySecondSchedule).
  { vm_compute. intuition discriminate. }
  split; [reflexivity|]. split; [exact Hrun|]. split; [exact Hsched|].
  refine (proj2 (proj2 (proj2 (proj2
            (idle_timeout_deferred_by_recent_output utc "proj-1" demoTracking))))
            90000 1769900400000 ninetySecondSchedule _ _ Hrun Hsched).
  - reflexivity.
  - discriminate.
Defined.

(* ================================================================== *)
(** * Sleep and wake *)
(* ================================================================== *)







(* ================================================================== *)
(** * The midnight split *)
(* ================================================================== *)

Section ArchivalPassFrame.
Context {P : Platform}.

Lemma fold_left_runtime {X} (f : World -> X -> World) :
  (forall w e, runtime (f w e) = runtime w) ->
  forall l w, runtime (fold_left f l w) = runtime w.
Proof.
  intros Hf. induction l as [|e l IH]; intros w; simpl; [reflexivity|].
  now rewrite IH, Hf.
Qed.

(** The archival pass leaves the tracker's variables alone. *)
Lemma runtime_archivePastMonthSessions w :
  runtime (archivePastMonthSessions w) = runtime w.
Proof.
  unfold archivePastMonthSessions.
  destruct (negb (projectsStateRef w) || negb (saveProjectsRef w)); [reflexivity|].
  cbv zeta.
  assert (Hg : forall l w0,
             runtime (fold_left
                        (fun w' (entry : string * list Session) =>
                           let (year, month) := parse_month_key (fst entry) in
                           appendToArchive year month (snd entry) [] w') l w0)
             = runtime w0).
  { apply fold_left_runtime. intros w0 e. destruct (parse_month_key (fst e)).
    apply (proj1 (runtime_appendToArchive _ _ _ _ _)). }
  assert (Hp : forall l w0,
             runtime (fold_left
                        (fun w' (entry : string * list (string * ProjectArchive)) =>
                           let (year, month) := parse_month_key (fst entry) in
                           appendToArchive year month [] (snd entry) w') l w0)
             = runtime w0).
  { apply fold_left_runtime. intros w0 e. destruct (parse_month_key (fst e)).
    apply (proj1 (runtime_appendToArchive _ _ _ _ _)). }
  assert (Hs : forall s w0, runtime (saveProjects (State_set_projects s w0)) = runtime w0)
    by reflexivity.
  destruct (globalTimeTracking (projectsState w)) as [g|].
  - destruct (g_sessions g) as [[|s l]|].
    + destruct (fold_left (archive_project w) _ _) as [[ps past] changes].
      destruct changes; [rewrite Hs|]; apply Hp.
    + destruct (fold_left (partition_global w) (s :: l) ([], [])) as [cur past].
      cbn [fst snd].
      destruct (fold_left (archive_project w) _ _) as [[ps past2] changes].
      destruct changes; [rewrite Hs|]; rewrite Hp; apply Hg.
    + destruct (fold_left (archive_project w) _ _) as [[ps past] changes].
      destruct changes; [rewrite Hs|]; apply Hp.
  - destruct (fold_left (archive_project w) _ _) as [[ps past] changes].
    destruct changes; [rewrite Hs|]; apply Hp.
Qed.


End ArchivalPassFrame.




(* ================================================================== *)
(** * Concurrent projects and the global interval *)
(* ================================================================== *)

Section Concurrent.
Context {P : Platform}.



End Concurrent.




(* ================================================================== *)
(** * Further properties of the archive service *)
(* ================================================================== *)

From Stdlib Require Import DecimalZ DecimalPos.

Module JsMapMore.
Section Facts.
Context {V : Type}.
Implicit Types (m : list (string * V)).

Lemma get_None_keys k m : JsMap.get k m = None <-> ~ In k (JsMap.keys m).
Proof.
  induction m as [|[k' v'] m IH]; simpl; [tauto|].
  destruct (String.eqb_spec k k') as [->|Hne].
  - split; [discriminate|]. intros H. exfalso. apply H. now left.
  - rewrite IH. split; [intros H [E|E]; [congruence|tauto]|tauto].
Qed.

Lemma set_new k v m : JsMap.get k m = None -> JsMap.set k v m = m ++ [(k, v)].
Proof.
  induction m as [|[k' v'] m IH]; simpl; [reflexivity|].
  destruct (String.eqb k k'); [discriminate|]. intros H. now rewrite IH.
Qed.

Lemma keys_delete_incl k m : incl (JsMap.keys (JsMap.delete k m)) (JsMap.keys m).
Proof.
  induction m as [|[k' v'] m IH]; simpl; [apply incl_refl|].
  destruct (String.eqb k k').
  - now apply incl_tl.
  - intros x [E|E]; [now left|right; now apply IH].
Qed.

Lemma NoDup_delete k m : NoDup (JsMap.keys m) -> NoDup (JsMap.keys (JsMap.delete k m)).
Proof.
  induction m as [|[k' v'] m IH]; simpl; [trivial|].
  intros H. inversion H as [|? ? Hn Hd]; subst.
  destruct (String.eqb k k'); [now apply IH|].
  simpl. constructor; [|now apply IH].
  intros Hin. apply Hn. now apply (keys_delete_incl k m).
Qed.

Lemma Forall_delete (Q : string * V -> Prop) k m :
  Forall Q m -> Forall Q (JsMap.delete k m).
Proof.
  induction m as [|[k' v'] m IH]; simpl; [trivial|].
  intros H. inversion H; subst.
  destruct (String.eqb k k'); [now apply IH|]. constructor; [assumption|now apply IH].
Qed.

Lemma length_delete_le k m : (List.length (JsMap.delete k m) <= List.length m)%nat.
Proof.
  induction m as [|[k' v'] m IH]; simpl; [lia|].
  destruct (String.eqb k k'); simpl; lia.
Qed.

Lemma length_delete_lt k m :
  In k (JsMap.keys m) -> (List.length (JsMap.delete k m) < List.length m)%nat.
Proof.
  induction m as [|[k' v'] m IH]; simpl; [tauto|].
  destruct (String.eqb_spec k k') as [->|Hne].
  - intros _. pose proof (length_delete_le k' m). lia.
  - intros [E|E]; [congruence|]. simpl. apply IH in E. lia.
Qed.

Lemma get_delete_None k k' m :
  JsMap.get k m = None -> JsMap.get k (JsMap.delete k' m) = None.
Proof.
  rewrite !get_None_keys. intros H Hin. apply H. now apply (keys_delete_incl k' m).
Qed.

End Facts.
End JsMapMore.

Lemma string_append_inv_tail (a b c : string) : (a ++ c = b ++ c)%string -> a = b.
Proof.
  revert b. induction a as [|x a IH]; intros [|y b] H; simpl in H.
  - reflexivity.
  - exfalso. apply (f_equal String.length) in H. simpl in H.
    rewrite string_length_append in H. lia.
  - exfalso. apply (f_equal String.length) in H. simpl in H.
    rewrite string_length_append in H. lia.
  - injection H as -> H. f_equal. now apply IH.
Qed.

Lemma string_of_Z_inj (x y : Z) : string_of_Z x = string_of_Z y -> x = y.
Proof.
  unfold string_of_Z. intros H.
  assert (Hn : forall z, Z.to_int z <> Decimal.Pos Decimal.Nil
                         /\ Z.to_int z <> Decimal.Neg Decimal.Nil).
  { intros [|p|p]; simpl; split; try discriminate; intros E; injection E as E;
      now apply (Unsigned.to_uint_nonnil p). }
  apply (f_equal NilZero.int_of_string) in H.
  rewrite !NilZero.isi in H by apply Hn.
  injection H as H. now apply to_int_inj.
Qed.

Section ArchiveMore.
Context {P : Platform}.

Lemma archiveCache_writeArchive year month a w :
  archiveCache (writeArchive year month a w) = archiveCache w.
Proof.
  unfold writeArchive.
  destruct (fs_writeFileSync _ _ _) as [fs1|].
  - destruct (fs_renameSync _ _ fs1); [reflexivity|].
    now destruct (fs_existsSync _ fs1).
  - now destruct (fs_existsSync _ (disk w)).
Qed.

Lemma getCacheKey_nonempty year month : getCacheKey year month <> ""%string.
Proof.
  unfold getCacheKey. apply append_nonempty. simpl. discriminate.
Qed.

Lemma oldest_entry_fold (keys : list string) l :
  forall acc,
    (forall e, In e l -> In (fst e) keys) ->
    (exists k, fst acc = Some k /\ In k keys) ->
    exists k,
      fst (fold_left
             (fun acc kv =>
                let older := match snd acc with
                             | None => true
                             | Some oldestTime => loadedAt (snd kv) <? oldestTime
                             end in
                if older then (Some (fst kv), Some (loadedAt (snd kv))) else acc)
             l acc) = Some k
      /\ In k keys.
Proof.
  induction l as [|e l IH]; intros acc Hl Hacc; simpl; [exact Hacc|].
  apply IH; [intros e' He'; apply Hl; now right|].
  destruct (match snd acc with
            | None => true
            | Some oldestTime => loadedAt (snd e) <? oldestTime
            end); [|exact Hacc].
  exists (fst e). split; [reflexivity|]. apply Hl. now left.
Qed.

Lemma oldest_entry_In (cache : list (string * CacheEntry)) :
  cache <> [] ->
  exists k, fst (oldest_entry cache) = Some k /\ In k (JsMap.keys cache).
Proof.
  destruct cache as [|e rest]; [congruence|]. intros _.
  unfold oldest_entry. cbn [fold_left snd].
  apply (oldest_entry_fold (JsMap.keys (e :: rest)) rest
           (Some (fst e), Some (loadedAt (snd e)))).
  - intros e' He'. right. now apply in_map.
  - exists (fst e). split; [reflexivity|]. now left.
Qed.

Lemma cache_ok_delete k cache : cache_ok cache -> cache_ok (JsMap.delete k cache).
Proof.
  intros (Hd & Hn & Hl). split; [now apply JsMapMore.NoDup_delete|].
  split; [now apply JsMapMore.Forall_delete|].
  pose proof (JsMapMore.length_delete_le k cache). lia.
Qed.

Lemma cache_ok_set_new k entry cache :
  cache_ok cache -> (List.length cache < MAX_CACHE_SIZE)%nat ->
  JsMap.get k cache = None -> k <> ""%string ->
  cache_ok (JsMap.set k entry cache).
Proof.
  intros (Hd & Hn & Hl) Hlt Hget Hk. rewrite (JsMapMore.set_new _ _ _ Hget).
  split; [|split].
  - unfold JsMap.keys. rewrite map_app. simpl.
    apply NoDup_app; [exact Hd|repeat constructor; simpl; tauto|].
    intros x Hx [E|[]]. subst x. now apply JsMapMore.get_None_keys in Hget.
  - apply Forall_app. split; [exact Hn|]. repeat constructor. exact Hk.
  - rewrite length_app. simpl. lia.
Qed.

End ArchiveMore.

Section WriteArchiveFacts.
Context {P : Platform}.

(** The three ways [writeArchive] can end, by the files it leaves. *)
Lemma writeArchive_files year month a w :
  let path := getArchiveFilePath year month in
  let temp := (path ++ ".tmp")%string in
  files (disk (writeArchive year month a w))
  = if unwritable (disk w) temp
    then if JsMap.has temp (files (disk w))
         then JsMap.delete temp (files (disk w))
         else files (disk w)
    else if unwritable (disk w) path
         then JsMap.delete temp (JsMap.set temp (JSON_stringify a) (files (disk w)))
         else JsMap.set path (JSON_stringify a)
                (JsMap.delete temp
                   (JsMap.set temp (JSON_stringify a) (files (disk w)))).
Proof.
  cbv zeta. unfold writeArchive, fs_writeFileSync.
  set (path := getArchiveFilePath year month).
  set (temp := (path ++ ".tmp")%string).
  destruct (unwritable (disk w) temp).
  - unfold fs_existsSync. now destruct (JsMap.has temp (files (disk w))).
  - unfold fs_renameSync. cbn [unwritable files].
    destruct (unwritable (disk w) path).
    + unfold fs_existsSync, JsMap.has. cbn [files].
      now rewrite JsMapFacts.get_set_eq.
    + now rewrite JsMapFacts.get_set_eq.
Qed.

End WriteArchiveFacts.

(** X1.  [writeArchive] replaces the archive file as a whole or not at
    all: afterwards the file holds the new document or its previous
    content, and no file other than the archive file and its temporary file
    is touched.  When both paths can be written the file holds the new
    document and the temporary file is gone; when one of them cannot, the
    archive file holds what it held before. *)
Theorem writeArchive_replaces_or_keeps :
  forall (P : Platform) (year month : JsInt) (a : Archive) (w : World),
    let path := getArchiveFilePath year month in
    let temp := (path ++ ".tmp")%string in
    let w' := writeArchive year month a w in
    (fs_readFileSync path (disk w') = Some (JSON_stringify a)
     \/ fs_readFileSync path (disk w') = fs_readFileSync path (disk w))
    /\ (forall q, q <> path -> q <> temp ->
          fs_readFileSync q (disk w') = fs_readFileSync q (disk w))
    /\ (unwritable (disk w) path = false /\ unwritable (disk w) temp = false ->
          fs_readFileSync path (disk w') = Some (JSON_stringify a)
          /\ fs_existsSync temp (disk w') = false)
    /\ (unwritable (disk w) path = true \/ unwritable (disk w) temp = true ->
          fs_readFileSync path (disk w') = fs_readFileSync path (disk w)).
Proof.
  intros P year month a w. cbv zeta.
  unfold fs_readFileSync, fs_existsSync, JsMap.has.
  rewrite writeArchive_files. cbv zeta.
  set (path := getArchiveFilePath year month).
  set (temp := (path ++ ".tmp")%string).
  assert (Hpt : temp <> path) by apply temp_path_differs.
  assert (Hkeep : forall q doc,
             q <> temp ->
             JsMap.get q (JsMap.delete temp (JsMap.set temp doc (files (disk w))))
             = JsMap.get q (files (disk w))).
  { intros q doc Hq.
    rewrite JsMapFacts.get_delete_ne by congruence.
    now rewrite JsMapFacts.get_set_ne by congruence. }
  destruct (unwritable (disk w) temp) eqn:Ut.
  - assert (Hsame : forall q,
               q <> temp ->
               JsMap.get q (if JsMap.has temp (files (disk w))
                            then JsMap.delete temp (files (disk w))
                            else files (disk w))
               = JsMap.get q (files (disk w))).
    { intros q Hq. destruct (JsMap.has temp (files (disk w))); [|reflexivity].
      now rewrite JsMapFacts.get_delete_ne by congruence. }
    split; [right; apply Hsame; congruence|].
    split; [intros q _ Hq; now apply Hsame|].
    split; [intros [_ H]; discriminate|].
    intros _. apply Hsame. congruence.
  - destruct (unwritable (disk w) path) eqn:Up.
    + split; [right; apply Hkeep; congruence|].
      split; [intros q _ Hq; now apply Hkeep|].
      split; [intros [H _]; discriminate|].
      intros _. apply Hkeep. congruence.
    + split; [left; apply JsMapFacts.get_set_eq|].
      split.
      { intros q Hq1 Hq2. rewrite JsMapFacts.get_set_ne by congruence.
        now apply Hkeep. }
      split.
      { intros _. split; [apply JsMapFacts.get_set_eq|].
        rewrite JsMapFacts.get_set_ne by congruence.
        now rewrite JsMapFacts.get_delete_eq. }
      intros [H|H]; discriminate.
Qed.

(** X2.  Once [loadArchive] has returned the archive of a month, a second
    call for that month returns the same archive from the cache and changes
    nothing, whatever has happened to the file in between. *)
Theorem loadArchive_again_serves_the_cache :
  forall (P : Platform) (year month : JsInt) (w w1 : World) (a : Archive),
    loadArchive year month w = (Some a, w1) ->
    forall fs : FileSystem,
      loadArchive year month (with_disk fs w1) = (Some a, with_disk fs w1).
Proof.
  intros P year month w w1 a H fs. unfold loadArchive in *.
  cbn [archiveCache with_disk].
  destruct (JsMap.get (getCacheKey year month) (archiveCache w)) as [entry|] eqn:Hget.
  - injection H as Ha Hw. subst w1. rewrite Hget. now rewrite Ha.
  - destruct (readArchiveFromDisk (getArchiveFilePath year month) w) as [a0|];
      [|discriminate].
    cbv zeta in H. injection H as Ha Hw. subst w1 a0.
    cbn [archiveCache with_archiveCache].
    now rewrite JsMapFacts.get_set_eq.
Qed.

Lemma loadArchive_again_serves_the_cache_witness :
  exists (a : Archive) (w1 : World),
    @loadArchive utc (Some 2025) (Some 11) archivedWorld = (Some a, w1)
    /\ globalSessions a = [twiceSession]
    /\ @loadArchive utc (Some 2025) (Some 11) (with_disk emptyDisk w1)
       = (Some a, with_disk emptyDisk w1).
Proof.
  destruct (@loadArchive utc (Some 2025) (Some 11) archivedWorld) as [[a|] w1] eqn:E.
  - exists a, w1. split; [reflexivity|]. split.
    + vm_compute in E. injection E as Ea _. subst a. reflexivity.
    + exact (loadArchive_again_serves_the_cache utc (Some 2025) (Some 11)
               archivedWorld w1 a E emptyDisk).
  - vm_compute in E. discriminate.
Defined.

(** X3.  The cache of loaded archives stays within its bound: when it
    holds at most three archives, under distinct non-empty keys, it still
    does after [loadArchive], [appendToArchive], [invalidateArchiveCache]
    and [clearArchiveCache]. *)
Theorem archive_cache_stays_bounded :
  forall (P : Platform) (year month : JsInt) (globals : list Session)
         (projectSessionsMap : list (string * ProjectArchive)) (w : World),
    cache_ok (archiveCache w) ->
    cache_ok (archiveCache (snd (loadArchive year month w)))
    /\ cache_ok (archiveCache (appendToArchive year month globals projectSessionsMap w))
    /\ cache_ok (archiveCache (invalidateArchiveCache year month w))
    /\ cache_ok (archiveCache (clearArchiveCache w)).
Proof.
  intros P year month globals projectSessionsMap w Hok.
  split; [|split; [|split]].
  - unfold loadArchive.
    destruct (JsMap.get (getCacheKey year month) (archiveCache w)) as [entry|] eqn:Hget;
      [exact Hok|].
    destruct (readArchiveFromDisk (getArchiveFilePath year month) w) as [a|];
      [|exact Hok].
    cbv zeta. cbn [snd archiveCache with_archiveCache].
    destruct (MAX_CACHE_SIZE <=? List.length (archiveCache w))%nat eqn:Hfull.
    + apply Nat.leb_le in Hfull.
      destruct (oldest_entry_In (archiveCache w)) as (k & Hk & Hin).
      { intros E. rewrite E in Hfull. unfold MAX_CACHE_SIZE in Hfull. simpl in Hfull. lia. }
      rewrite Hk.
      assert (Hne : k <> ""%string).
      { destruct Hok as (_ & Hn & _). rewrite Forall_forall in Hn.
        apply in_map_iff in Hin. destruct Hin as (e & <- & He). now apply Hn. }
      unfold truthy_string.
      destruct (String.eqb_spec k ""); [contradiction|]. cbn [negb].
      apply cache_ok_set_new.
      * now apply cache_ok_delete.
      * pose proof (JsMapMore.length_delete_lt k (archiveCache w) Hin).
        destruct Hok as (_ & _ & Hl). lia.
      * now apply JsMapMore.get_delete_None.
      * apply getCacheKey_nonempty.
    + apply Nat.leb_gt in Hfull.
      apply cache_ok_set_new; [exact Hok|exact Hfull|exact Hget|apply getCacheKey_nonempty].
  - unfold appendToArchive, invalidateArchiveCache. cbn [archiveCache with_archiveCache].
    rewrite archiveCache_writeArchive. now apply cache_ok_delete.
  - unfold invalidateArchiveCache. cbn [archiveCache with_archiveCache].
    now apply cache_ok_delete.
  - unfold clearArchiveCache. cbn [archiveCache with_archiveCache].
    split; [constructor|]. split; [constructor|]. unfold MAX_CACHE_SIZE. simpl. lia.
Qed.

Lemma archive_cache_stays_bounded_witness :
  cache_ok (archiveCache archivedWorld)
  /\ cache_ok (archiveCache (snd (@loadArchive utc (Some 2025) (Some 11) archivedWorld)))
  /\ List.length (archiveCache (snd (@loadArchive utc (Some 2025) (Some 11) archivedWorld)))
     = 1%nat.
Proof.
  assert (H : cache_ok (archiveCache archivedWorld)).
  { split; [constructor|]. split; [constructor|]. unfold MAX_CACHE_SIZE. simpl. lia. }
  split; [exact H|]. split.
  - exact (proj1 (archive_cache_stays_bounded utc (Some 2025) (Some 11) [] []
                    archivedWorld H)).
  - vm_compute. reflexivity.
Defined.

Lemma string_append_inj_length (a a' b b' : string) :
  (a ++ b = a' ++ b')%string -> String.length b = String.length b' ->
  a = a' /\ b = b'.
Proof.
  revert a'. induction a as [|x a IH]; intros [|y a'] H Hl; simpl in H.
  - now split.
  - exfalso. apply (f_equal String.length) in H. simpl in H.
    rewrite string_length_append in H. lia.
  - exfalso. apply (f_equal String.length) in H. simpl in H.
    rewrite string_length_append in H. lia.
  - injection H as -> H. destruct (IH a' H Hl) as [-> ->]. now split.
Qed.

Lemma month_in_range (m : Z) :
  0 <= m < 12 ->
  m = 0 \/ m = 1 \/ m = 2 \/ m = 3 \/ m = 4 \/ m = 5 \/ m = 6 \/ m = 7 \/ m = 8
  \/ m = 9 \/ m = 10 \/ m = 11.
Proof. lia. Qed.

Section ArchivePaths.
Context {P : Platform}.

Lemma getArchiveFilename_inj (year year' month month' : Z) :
  0 <= month < 12 -> 0 <= month' < 12 ->
  getArchiveFilename (Some year) (Some month) = getArchiveFilename (Some year') (Some month') ->
  year = year' /\ month = month'.
Proof.
  intros Hm Hm' H. unfold getArchiveFilename, js_toString in H.
  assert (Hy : forall name,
             (name ++ "_" ++ string_of_Z year ++ ".json"
              = name ++ "_" ++ string_of_Z year' ++ ".json")%string -> year = year').
  { intros name E. apply string_append_inv_head in E.
    apply (string_append_inv_head "_") in E.
    apply string_append_inv_tail in E. now apply string_of_Z_inj. }
  apply month_in_range in Hm. apply month_in_range in Hm'.
  repeat (destruct Hm as [->|Hm]); try subst month;
    repeat (destruct Hm' as [->|Hm']); try subst month';
    first [ split; [exact (Hy _ H)|reflexivity]
          | exfalso;
            repeat match type of H with
                   | context [month_name (Some ?k)] =>
                       let v := eval vm_compute in (month_name (Some k)) in
                       change (month_name (Some k)) with v in H
                   end;
            cbn [String.append] in H; congruence ].
Qed.

Lemma getCacheKey_inj (year year' month month' : Z) :
  0 <= month < 12 -> 0 <= month' < 12 ->
  getCacheKey (Some year) (Some month) = getCacheKey (Some year') (Some month') ->
  year = year' /\ month = month'.
Proof.
  intros Hm Hm' H. unfold getCacheKey, js_toString, option_map in H.
  assert (Hl : forall m, 0 <= m < 12 ->
                 String.length ("-" ++ padStart2 (string_of_Z (m + 1))) = 3%nat).
  { intros m Hr. apply month_in_range in Hr.
    repeat (destruct Hr as [->|Hr]); try subst m; reflexivity. }
  apply string_append_inj_length in H; [|now rewrite !Hl].
  destruct H as [Hy Hk]. split; [now apply string_of_Z_inj|].
  apply month_in_range in Hm. apply month_in_range in Hm'.
  repeat (destruct Hm as [->|Hm]); try subst month;
    repeat (destruct Hm' as [->|Hm']); try subst month';
    first [ reflexivity | exfalso; vm_compute in Hk; congruence ].
Qed.

End ArchivePaths.

(** X4.  Two different months never share an archive file nor a cache
    key: for month indices in 0..11, [getArchiveFilePath] and [getCacheKey]
    are injective in the year and the month. *)
Theorem archive_file_and_key_identify_the_month :
  forall (P : Platform) (year year' month month' : Z),
    0 <= month < 12 -> 0 <= month' < 12 ->
    (getArchiveFilePath (Some year) (Some month)
     = getArchiveFilePath (Some year') (Some month') ->
     year = year' /\ month = month')
    /\ (getCacheKey (Some year) (Some month) = getCacheKey (Some year') (Some month') ->
        year = year' /\ month = month').
Proof.
  intros P year year' month month' Hm Hm'. split.
  - unfold getArchiveFilePath. intros H.
    apply string_append_inv_head in H. apply (string_append_inv_head "/") in H.
    now apply getArchiveFilename_inj.
  - now apply getCacheKey_inj.
Qed.

Lemma archive_file_and_key_identify_the_month_witness :
  0 <= 11 < 12 /\ 0 <= 0 < 12
  /\ @getArchiveFilePath utc (Some 2025) (Some 11)
     = "/home/user/.claude-terminal/archives/december_2025.json"%string
  /\ @getArchiveFilePath utc (Some 2026) (Some 0)
     = "/home/user/.claude-terminal/archives/january_2026.json"%string
  /\ ((@getArchiveFilePath utc (Some 2025) (Some 11)
       = @getArchiveFilePath utc (Some 2026) (Some 0) -> 2025 = 2026 /\ 11 = 0)
      /\ (getCacheKey (Some 2025) (Some 11) = getCacheKey (Some 2026) (Some 0) ->
          2025 = 2026 /\ 11 = 0)).
Proof.
  assert (H1 : 0 <= 11 < 12) by lia.
  assert (H2 : 0 <= 0 < 12) by lia.
  split; [exact H1|]. split; [exact H2|].
  split; [vm_compute; reflexivity|]. split; [vm_compute; reflexivity|].
  exact (archive_file_and_key_identify_the_month utc 2025 2026 11 0 H1 H2).
Defined.

Section ArchiveReaderFacts.
Context {P : Platform}.

Lemma push_new_nil (incoming : list Session) : push_new [] incoming = incoming.
Proof.
  unfold push_new. simpl. induction incoming as [|s l IH]; simpl; [reflexivity|].
  now rewrite IH.
Qed.

Lemma archiveCache_appendToArchive_empty year month globals projectSessionsMap w :
  archiveCache w = [] ->
  archiveCache (appendToArchive year month globals projectSessionsMap w) = [].
Proof.
  intros H. unfold appendToArchive, invalidateArchiveCache.
  cbn [archiveCache with_archiveCache]. rewrite archiveCache_writeArchive.
  now rewrite H.
Qed.

Lemma loadArchive_empty_cache year month w :
  archiveCache w = [] -> fst (loadArchive year month w) = stored_archive year month w.
Proof.
  intros H. apply loadArchive_uncached. now rewrite H.
Qed.

Lemma getArchivedGlobalSessions_stored year month w :
  archiveCache w = [] ->
  fst (getArchivedGlobalSessions year month w)
  = stored_global (stored_archive year month w).
Proof.
  intros H. unfold getArchivedGlobalSessions.
  rewrite <- (loadArchive_empty_cache year month w H).
  now destruct (loadArchive year month w) as [[a|] w1].
Qed.

Lemma getArchivedProjectSessions_stored year month projectId w :
  archiveCache w = [] ->
  fst (getArchivedProjectSessions year month projectId w)
  = stored_project projectId (stored_archive year month w).
Proof.
  intros H. unfold getArchivedProjectSessions.
  rewrite <- (loadArchive_empty_cache year month w H).
  now destruct (loadArchive year month w) as [[a|] w1].
Qed.

End ArchiveReaderFacts.

(** X5.  For a month that is not in the cache and whose archive file is
    absent, blank or not valid JSON, the three readers return an empty
    result, and they change nothing: no cache entry is made and no file is
    written. *)
Theorem readers_of_a_missing_archive :
  forall (P : Platform) (year month : JsInt) (projectId : string) (w : World),
    JsMap.get (getCacheKey year month) (archiveCache w) = None ->
    stored_archive year month w = None ->
    getArchivedGlobalSessions year month w = ([], w)
    /\ getArchivedProjectSessions year month projectId w = ([], w)
    /\ getArchivedAllProjectSessions year month w = ([], w)
    /\ loadArchive year month w = (None, w).
Proof.
  intros P year month projectId w Hc Hs.
  assert (H : loadArchive year month w = (None, w)).
  { unfold loadArchive. rewrite Hc. unfold stored_archive in Hs. now rewrite Hs. }
  unfold getArchivedGlobalSessions, getArchivedProjectSessions,
    getArchivedAllProjectSessions.
  rewrite H. repeat split.
Qed.

Lemma readers_of_a_missing_archive_witness :
  JsMap.get (getCacheKey (Some 2025) (Some 10)) (archiveCache archivedWorld) = None
  /\ @stored_archive utc (Some 2025) (Some 10) archivedWorld = None
  /\ @getArchivedProjectSessions utc (Some 2025) (Some 10) "proj-1" archivedWorld
     = ([], archivedWorld).
Proof.
  assert (Hc : JsMap.get (getCacheKey (Some 2025) (Some 10)) (archiveCache archivedWorld)
               = None) by reflexivity.
  assert (Hs : @stored_archive utc (Some 2025) (Some 10) archivedWorld = None)
    by (vm_compute; reflexivity).
  split; [exact Hc|]. split; [exact Hs|].
  exact (proj1 (proj2 (readers_of_a_missing_archive utc (Some 2025) (Some 10)
                         "proj-1"%string archivedWorld Hc Hs))).
Defined.

(** X6.  The archive is append-only: a session that the readers return for
    a month (global, or of an entity) is still returned after any
    [appendToArchive], to that month or to another, whether or not the write
    succeeds.  (The cache is taken empty, so that the readers read the
    files; the session is one that JSON keeps as it is.) *)
Theorem appendToArchive_never_drops_a_session :
  forall (P : Platform) (year month year' month' : JsInt) (globals : list Session)
         (projectSessionsMap : list (string * ProjectArchive)) (w : World)
         (projectId : string) (s : Session),
    archiveCache w = [] ->
    json_session s = s ->
    let w' := appendToArchive year' month' globals projectSessionsMap w in
    (In s (fst (getArchivedGlobalSessions year month w)) ->
     In s (fst (getArchivedGlobalSessions year month w')))
    /\ (In s (fst (getArchivedProjectSessions year month projectId w)) ->
        In s (fst (getArchivedProjectSessions year month projectId w'))).
Proof.
  intros P year month year' month' globals projectSessionsMap w projectId s Hc Hj.
  cbv zeta.
  assert (Hc' : archiveCache (appendToArchive year' month' globals projectSessionsMap w)
                = []) by now apply archiveCache_appendToArchive_empty.
  rewrite !getArchivedGlobalSessions_stored, !getArchivedProjectSessions_stored
    by assumption.
  split.
  - now apply appendToArchive_keeps_global.
  - now apply appendToArchive_keeps_project.
Qed.

Lemma appendToArchive_never_drops_a_session_witness :
  archiveCache archivedWorld = []
  /\ json_session twiceSession = twiceSession
  /\ In twiceSession
        (fst (@getArchivedGlobalSessions utc (Some 2025) (Some 11) archivedWorld))
  /\ In twiceSession
        (fst (@getArchivedGlobalSessions utc (Some 2025) (Some 11)
                (@appendToArchive utc (Some 2025) (Some 11) [otherSession] []
                   archivedWorld))).
Proof.
  assert (Hc : archiveCache archivedWorld = []) by reflexivity.
  assert (Hj : json_session twiceSession = twiceSession) by reflexivity.
  assert (Hin : In twiceSession
                  (fst (@getArchivedGlobalSessions utc (Some 2025) (Some 11)
                          archivedWorld))).
  { vm_compute. left. reflexivity. }
  split; [exact Hc|]. split; [exact Hj|]. split; [exact Hin|].
  exact (proj1 (appendToArchive_never_drops_a_session utc (Some 2025) (Some 11)
                  (Some 2025) (Some 11) [otherSession] [] archivedWorld
                  "proj-1"%string twiceSession Hc Hj) Hin).
Defined.

(** X7.  When the archive file of a month is absent, blank or not valid
    JSON, [appendToArchive] starts the archive afresh: if the file can be
    written, it then holds a version-1 archive created at the current time
    with exactly the given global sessions and the merge of the given
    per-entity lists; nothing of an unreadable file is kept. *)
Theorem appendToArchive_starts_afresh_on_unreadable_file :
  forall (P : Platform) (year month : JsInt) (globals : list Session)
         (projectSessionsMap : list (string * ProjectArchive)) (w : World),
    stored_archive year month w = None ->
    can_write year month w ->
    stored_archive year month (appendToArchive year month globals projectSessionsMap w)
    = Some (json_archive
              {| version := 1;
                 month_key := getCacheKey year month;
                 createdAt := toISOString (clock w);
                 lastModifiedAt := toISOString (clock w);
                 globalSessions := globals;
                 projectSessions := fold_left merge_project projectSessionsMap [] |}).
Proof.
  intros P year month globals projectSessionsMap w Hs Hw.
  rewrite (appendToArchive_written year month globals projectSessionsMap w Hw).
  f_equal. f_equal. unfold merged_archive. unfold stored_archive in Hs. rewrite Hs.
  unfold createEmptyArchive. cbn [version month_key createdAt globalSessions projectSessions].
  f_equal. destruct globals as [|s l]; [reflexivity|]. apply push_new_nil.
Qed.

Lemma appendToArchive_starts_afresh_on_unreadable_file_witness :
  @stored_archive utc (Some 2025) (Some 11)
    (with_disk {| files := [(@getArchiveFilePath utc (Some 2025) (Some 11),
                             Unparseable "{ not json")];
                  unwritable := fun _ => false |} demoReady) = None
  /\ globalSessions
       (match @stored_archive utc (Some 2025) (Some 11)
                (@appendToArchive utc (Some 2025) (Some 11) [twiceSession] []
                   (with_disk {| files := [(@getArchiveFilePath utc (Some 2025) (Some 11),
                                            Unparseable "{ not json")];
                                 unwritable := fun _ => false |} demoReady)) with
        | Some a => a
        | None => @createEmptyArchive utc None None demoReady
        end) = [twiceSession].
Proof.
  set (w := with_disk {| files := [(@getArchiveFilePath utc (Some 2025) (Some 11),
                                    Unparseable "{ not json")];
                         unwritable := fun _ => false |} demoReady).
  assert (Hs : @stored_archive utc (Some 2025) (Some 11) w = None)
    by (vm_compute; reflexivity).
  assert (Hw : @can_write utc (Some 2025) (Some 11) w) by (split; reflexivity).
  split; [exact Hs|].
  rewrite (appendToArchive_starts_afresh_on_unreadable_file utc (Some 2025) (Some 11)
             [twiceSession] [] w Hs Hw).
  reflexivity.
Defined.

(* ================================================================== *)
(** * Further properties of the tracker *)
(* ================================================================== *)

Lemma runtime_fields w w' :
  runtime w' = runtime w ->
  trackingState w' = trackingState w
  /\ timers w' = timers w
  /\ next_timer w' = next_timer w
  /\ idleTimers w' = idleTimers w
  /\ lastOutputTimes w' = lastOutputTimes w
  /\ globalLastOutputTime w' = globalLastOutputTime w
  /\ globalIdleTimer w' = globalIdleTimer w.
Proof.
  unfold runtime. intros H. injection H as H1 H2 H3 H4 H5 H6 H7 H8 H9.
  repeat split; assumption.
Qed.

Lemma timers_clearTimeout timer w : incl (timers (clearTimeout timer w)) (timers w).
Proof.
  destruct timer as [i|]; simpl; [|apply incl_refl].
  intros e He. now apply filter_In in He.
Qed.

Lemma clearTimeout_removes i w e :
  In e (timers (clearTimeout (Some i) w)) -> fst e <> i.
Proof.
  simpl. intros He. apply filter_In in He. destruct He as [_ He].
  apply negb_true_iff in He. now apply Nat.eqb_neq in He.
Qed.

Section TrackerFacts.
Context {P : Platform}.

Lemma activeSessions_startGlobalTimer w :
  activeSessions (trackingState (startGlobalTimer w)) = activeSessions (trackingState w).
Proof.
  unfold startGlobalTimer. destruct (global_running (trackingState w)); [reflexivity|].
  unfold clearTimeout. cbn [globalIdleTimer State_set_tracking with_trackingState].
  now destruct (globalIdleTimer w).
Qed.

Lemma activeSessions_resumeGlobalTimer w :
  activeSessions (trackingState (resumeGlobalTimer w)) = activeSessions (trackingState w).
Proof.
  unfold resumeGlobalTimer. destruct (negb (globalIsIdle (trackingState w))); [reflexivity|].
  unfold clearTimeout. cbn [globalIdleTimer State_set_tracking with_trackingState].
  now destruct (globalIdleTimer w).
Qed.

Lemma activeSessions_resumeTracking projectId w session :
  JsMap.get projectId (activeSessions (trackingState w)) = Some session ->
  isIdle session = true ->
  activeSessions (trackingState (resumeTracking projectId w))
  = JsMap.set projectId
      {| sessionStartTime := Some (clock w); lastActivityTime := clock w; isIdle := false |}
      (activeSessions (trackingState w)).
Proof.
  intros Hget Hidle. unfold resumeTracking. rewrite Hget, Hidle. cbn [negb]. cbv zeta.
  rewrite trackingState_restartIdleTimer.
  destruct (Nat.eqb (getActiveNonIdleCount w) 0); [|reflexivity].
  now rewrite activeSessions_resumeGlobalTimer.
Qed.

(** [startTracking] returns at once, or it opens the interval of the
    project at the current time. *)
Lemma startTracking_sessions projectId w :
  (startTracking projectId w = w
   /\ (projectId = ""%string \/ isTracking projectId w = true))
  \/ (projectId <> ""%string
      /\ isTracking projectId w = false
      /\ activeSessions (trackingState (startTracking projectId w))
         = JsMap.set projectId
             {| sessionStartTime := Some (clock w);
                lastActivityTime := clock w; isIdle := false |}
             (activeSessions (trackingState w))).
Proof.
  unfold startTracking, isTracking.
  destruct (String.eqb_spec projectId "") as [->|Hne]; [left; split; [reflexivity|now left]|].
  destruct (JsMap.get projectId (activeSessions (trackingState w))) as [s|] eqn:Hget.
  - destruct (session_running s) eqn:Hrun; [left; split; [reflexivity|now right]|].
    right. split; [exact Hne|]. split; [reflexivity|].
    destruct (isIdle s) eqn:Hidle.
    + now apply activeSessions_resumeTracking with s.
    + cbv zeta. rewrite trackingState_restartIdleTimer.
      destruct (Nat.eqb (getActiveNonIdleCount w) 0); [|reflexivity].
      now rewrite activeSessions_startGlobalTimer.
  - right. split; [exact Hne|]. split; [reflexivity|].
    cbv zeta. rewrite trackingState_restartIdleTimer.
    destruct (Nat.eqb (getActiveNonIdleCount w) 0); [|reflexivity].
    now rewrite activeSessions_startGlobalTimer.
Qed.

Lemma startTracking_tracks projectId w :
  projectId <> ""%string -> clock w <> 0 ->
  isTracking projectId (startTracking projectId w) = true.
Proof.
  intros Hne Hclock.
  destruct (startTracking_sessions projectId w) as [[E [H|H]]|(_ & _ & E)].
  - contradiction.
  - now rewrite E.
  - unfold isTracking. rewrite E, JsMapFacts.get_set_eq.
    unfold session_running. simpl. now destruct (Z.eqb_spec (clock w) 0).
Qed.

Lemma startTracking_other projectId other w :
  other <> projectId ->
  JsMap.get other (activeSessions (trackingState (startTracking projectId w)))
  = JsMap.get other (activeSessions (trackingState w)).
Proof.
  intros Hne.
  destruct (startTracking_sessions projectId w) as [[E _]|(_ & _ & E)].
  - now rewrite E.
  - rewrite E. apply JsMapFacts.get_set_ne. congruence.
Qed.

Lemma stopGlobalTimer_frame w :
  activeSessions (trackingState (stopGlobalTimer w)) = activeSessions (trackingState w)
  /\ idleTimers (stopGlobalTimer w) = idleTimers w
  /\ lastOutputTimes (stopGlobalTimer w) = lastOutputTimes w
  /\ incl (timers (stopGlobalTimer w)) (timers w).
Proof.
  unfold stopGlobalTimer. cbv zeta.
  set (w1 := if global_running (trackingState w)
             then if clock w
                     - match globalSessionStartTime (trackingState w) with
                       | Some s => s
                       | None => 0
                       end >? 1000
                  then saveGlobalSession _ _ _ w else w
             else w).
  assert (R : runtime w1 = runtime w).
  { unfold w1. destruct (global_running (trackingState w)); [|reflexivity].
    destruct (_ >? 1000); [|reflexivity]. apply runtime_saveGlobalSession. }
  apply runtime_fields in R. destruct R as (_ & Rt & _ & Ri & Ro & _).
  cbn [trackingState State_set_tracking with_trackingState activeSessions with_global
       idleTimers lastOutputTimes timers].
  split; [reflexivity|].
  assert (C : idleTimers (clearTimeout (globalIdleTimer w1) w1) = idleTimers w1
              /\ lastOutputTimes (clearTimeout (globalIdleTimer w1) w1)
                 = lastOutputTimes w1)
    by (destruct (globalIdleTimer w1); split; reflexivity).
  destruct C as [C1 C2].
  split; [congruence|]. split; [congruence|].
  rewrite <- Rt. apply timers_clearTimeout.
Qed.

Lemma stopTracking_sessions projectId w :
  activeSessions (trackingState (stopTracking projectId w))
  = JsMap.delete projectId (activeSessions (trackingState w)).
Proof.
  unfold stopTracking.
  destruct (match JsMap.get projectId (activeSessions (trackingState w)) with
            | Some s => negb (truthy_time (sessionStartTime s))
            | None => true
            end); [reflexivity|].
  cbv zeta.
  match goal with
  | |- activeSessions (trackingState (if ?c then stopGlobalTimer ?w5 else _)) = _ =>
      destruct c; [rewrite (proj1 (stopGlobalTimer_frame w5))|]; reflexivity
  end.
Qed.

End TrackerFacts.

Section StopFrame.
Context {P : Platform}.

Lemma stopTracking_tracked projectId w session :
  JsMap.get projectId (activeSessions (trackingState w)) = Some session ->
  truthy_time (sessionStartTime session) = true ->
  idleTimers (stopTracking projectId w) = JsMap.delete projectId (idleTimers w)
  /\ lastOutputTimes (stopTracking projectId w)
     = JsMap.delete projectId (lastOutputTimes w)
  /\ incl (timers (stopTracking projectId w))
          (timers (clearTimeout (JsMap.get projectId (idleTimers w)) w)).
Proof.
  intros Hget Htruthy. unfold stopTracking. rewrite Hget, Htruthy. cbn [negb]. cbv zeta.
  set (start := match session with
                | {| sessionStartTime := Some s |} => s
                | _ => 0
                end).
  set (w1 := if clock w - start >? 1000
             then saveSession projectId start (clock w) (clock w - start) w else w).
  assert (R : runtime w1 = runtime w).
  { unfold w1. destruct (clock w - start >? 1000); [|reflexivity].
    apply runtime_saveSession. }
  apply runtime_fields in R. destruct R as (_ & Rt & _ & Ri & Ro & _).
  set (w2 := clearTimeout (JsMap.get projectId (idleTimers w1)) w1).
  assert (C : idleTimers w2 = idleTimers w /\ lastOutputTimes w2 = lastOutputTimes w
              /\ timers w2 = timers (clearTimeout (JsMap.get projectId (idleTimers w)) w)).
  { unfold w2. rewrite Ri.
    destruct (JsMap.get projectId (idleTimers w)); simpl; rewrite ?Rt; auto. }
  destruct C as (C1 & C2 & C3).
  match goal with
  | |- context [if _ then stopGlobalTimer ?w5 else _] => set (w5' := w5)
  end.
  set (cond := Nat.eqb (getActiveNonIdleCount w5') 0).
  destruct (stopGlobalTimer_frame w5') as (_ & F1 & F2 & F3).
  assert (E1 : idleTimers w5' = JsMap.delete projectId (idleTimers w)).
  { unfold w5'.
    cbn [idleTimers State_set_tracking with_trackingState with_lastOutputTimes
         with_idleTimers].
    now rewrite C1. }
  assert (E2 : lastOutputTimes w5' = JsMap.delete projectId (lastOutputTimes w)).
  { unfold w5'.
    cbn [lastOutputTimes State_set_tracking with_trackingState with_lastOutputTimes
         with_idleTimers].
    now rewrite C2. }
  assert (E3 : timers w5'
               = timers (clearTimeout (JsMap.get projectId (idleTimers w)) w)).
  { unfold w5'.
    cbn [timers State_set_tracking with_trackingState with_lastOutputTimes
         with_idleTimers].
    exact C3. }
  destruct cond.
  - rewrite F1, F2, E1, E2. split; [reflexivity|]. split; [reflexivity|].
    rewrite <- E3. exact F3.
  - rewrite E1, E2, E3. split; [reflexivity|]. split; [reflexivity|apply incl_refl].
Qed.

End StopFrame.

(** X8.  [startTracking] is idempotent: a second call for the same project
    at the same instant changes nothing (the clock not being at the epoch,
    where a start time would be falsy). *)
Theorem startTracking_twice_is_once :
  forall (projectId : string) (w : World),
    clock w <> 0 ->
    startTracking projectId (startTracking projectId w) = startTracking projectId w.
Proof.
  intros projectId w Hclock.
  destruct (String.eqb_spec projectId "") as [->|Hne]; [reflexivity|].
  pose proof (startTracking_tracks projectId w Hne Hclock) as Htracks.
  destruct (startTracking_sessions projectId (startTracking projectId w))
    as [[E _]|(_ & Hnot & _)].
  - exact E.
  - rewrite Htracks in Hnot. discriminate.
Qed.

Lemma startTracking_twice_is_once_witness :
  clock demoReady <> 0
  /\ isTracking "proj-1"%string (startTracking "proj-1"%string demoReady) = true
  /\ startTracking "proj-1"%string (startTracking "proj-1"%string demoReady)
     = startTracking "proj-1"%string demoReady.
Proof.
  assert (H : clock demoReady <> 0) by discriminate.
  split; [exact H|]. split; [reflexivity|].
  exact (startTracking_twice_is_once "proj-1"%string demoReady H).
Defined.

(** X9.  [switchProject] never stops the old project: the interval of
    every project other than the new one is left as it is, the new project
    is tracked afterwards, and nothing is persisted. *)
Theorem switchProject_keeps_the_old_project :
  forall (oldProjectId newProjectId : string) (w : World),
    newProjectId <> ""%string -> clock w <> 0 ->
    let w' := switchProject oldProjectId newProjectId w in
    isTracking newProjectId w' = true
    /\ (forall other, other <> newProjectId ->
          JsMap.get other (activeSessions (trackingState w'))
          = JsMap.get other (activeSessions (trackingState w)))
    /\ persisted w' = persisted w.
Proof.
  intros oldProjectId newProjectId w Hne Hclock. cbv zeta. unfold switchProject.
  destruct (String.eqb_spec newProjectId ""); [contradiction|]. cbn [negb].
  split; [now apply startTracking_tracks|].
  split; [intros other Ho; now apply startTracking_other|].
  apply same_store_startTracking.
Qed.

Lemma switchProject_keeps_the_old_project_witness :
  "proj-2"%string <> ""%string
  /\ clock demoTracking <> 0
  /\ isTracking "proj-1"%string (switchProject "proj-1"%string "proj-2"%string demoTracking) = true
  /\ isTracking "proj-2"%string (switchProject "proj-1"%string "proj-2"%string demoTracking) = true.
Proof.
  assert (H1 : "proj-2"%string <> ""%string) by discriminate.
  assert (H2 : clock demoTracking <> 0) by discriminate.
  pose proof (switchProject_keeps_the_old_project "proj-1"%string "proj-2"%string
                demoTracking H1 H2) as T.
  cbv zeta in T. destruct T as (T1 & T2 & _).
  split; [exact H1|]. split; [exact H2|]. split; [|exact T1].
  unfold isTracking. rewrite T2 by discriminate. reflexivity.
Defined.

(** X10.  [stopTracking] forgets the project and only the project:
    afterwards the project has no interval, the interval of every other
    project is as before, and, when the project had a start time, its entry
    of the idle timers and its output time are removed and its pending idle
    timer is cancelled. *)
Theorem stopTracking_forgets_only_the_project :
  forall (P : Platform) (projectId : string) (w : World),
    let w' := stopTracking projectId w in
    JsMap.get projectId (activeSessions (trackingState w')) = None
    /\ isTracking projectId w' = false
    /\ (forall other, other <> projectId ->
          JsMap.get other (activeSessions (trackingState w'))
          = JsMap.get other (activeSessions (trackingState w)))
    /\ (forall session,
          JsMap.get projectId (activeSessions (trackingState w)) = Some session ->
          truthy_time (sessionStartTime session) = true ->
          JsMap.get projectId (idleTimers w') = None
          /\ JsMap.get projectId (lastOutputTimes w') = None
          /\ (forall timer, JsMap.get projectId (idleTimers w) = Some timer ->
                ~ In timer (map fst (timers w')))
          /\ incl (timers w') (timers w)).
Proof.
  intros P projectId w. cbv zeta.
  assert (Hnone : JsMap.get projectId
                    (activeSessions (trackingState (stopTracking projectId w))) = None).
  { rewrite stopTracking_sessions. apply JsMapFacts.get_delete_eq. }
  split; [exact Hnone|].
  split; [unfold isTracking; now rewrite Hnone|].
  split.
  { intros other Ho. rewrite stopTracking_sessions.
    apply JsMapFacts.get_delete_ne. congruence. }
  intros session Hget Htruthy.
  destruct (stopTracking_tracked projectId w session Hget Htruthy) as (H1 & H2 & H3).
  rewrite H1, H2.
  split; [apply JsMapFacts.get_delete_eq|].
  split; [apply JsMapFacts.get_delete_eq|].
  split.
  - intros timer Ht Hin. apply in_map_iff in Hin. destruct Hin as (e & He & Hin).
    apply H3 in Hin. rewrite Ht in Hin. apply clearTimeout_removes in Hin. congruence.
  - intros e He. apply H3 in He. now apply timers_clearTimeout in He.
Qed.

(* ================================================================== *)
(** * The pending timers *)
(* ================================================================== *)

Lemma NoDup_map_filter {A B} (f : A -> B) (keep : A -> bool) (l : list A) :
  NoDup (map f l) -> NoDup (map f (filter keep l)).
Proof.
  induction l as [|a l IH]; simpl; [trivial|].
  intros H. inversion H as [|? ? Hn Hd]; subst.
  destruct (keep a); [|now apply IH].
  simpl. constructor; [|now apply IH].
  intros Hin. apply Hn. apply in_map_iff in Hin. destruct Hin as (x & Hx & Hin).
  apply filter_In in Hin. apply in_map_iff. exists x. tauto.
Qed.

Lemma timers_ok_table w w' : timer_table w' = timer_table w -> timers_ok w -> timers_ok w'.
Proof.
  unfold timer_table, timers_ok. intros H. injection H as -> -> -> ->. trivial.
Qed.

Lemma timer_table_runtime w w' : runtime w' = runtime w -> timer_table w' = timer_table w.
Proof.
  intros R. apply runtime_fields in R. destruct R as (_ & R1 & R2 & R3 & _ & _ & R4).
  unfold timer_table. congruence.
Qed.

Lemma timers_ok_clearTimeout timer w : timers_ok w -> timers_ok (clearTimeout timer w).
Proof.
  intros (H1 & H2 & H3 & H4 & H5 & H6). destruct timer as [i|]; [|repeat split; assumption].
  unfold timers_ok. simpl.
  split; [now apply NoDup_map_filter|].
  split; [intros e He; apply filter_In in He; now apply H2|].
  split; [exact H3|]. split; [exact H4|].
  split.
  - intros e projectId He. apply filter_In in He. now apply H5.
  - intros e He. apply filter_In in He. now apply H6.
Qed.

Lemma clearTimeout_fields timer w :
  next_timer (clearTimeout timer w) = next_timer w
  /\ idleTimers (clearTimeout timer w) = idleTimers w
  /\ globalIdleTimer (clearTimeout timer w) = globalIdleTimer w.
Proof. destruct timer; repeat split; reflexivity. Qed.

(** A fresh timer joins the pending ones. *)
Lemma timers_ok_add_new (w : World) (t : Timeout) (l : list (nat * Timeout)) :
  NoDup (map fst l) ->
  (forall e, In e l -> (fst e < next_timer w)%nat) ->
  NoDup (map fst (l ++ [(next_timer w, t)])).
Proof.
  intros Hd Hlt. rewrite map_app. simpl.
  apply NoDup_app; [exact Hd|repeat constructor; simpl; tauto|].
  intros i Hi [E|[]]. subst i. apply in_map_iff in Hi. destruct Hi as (e & He & Hin).
  apply Hlt in Hin. lia.
Qed.

Lemma restartIdleTimer_table projectId delay w :
  timers (restartIdleTimer projectId delay w)
  = timers (clearTimeout (JsMap.get projectId (idleTimers w)) w)
      ++ [(next_timer w,
           {| due := clock w + delay; callback := CheckAndPauseTracking projectId |})]
  /\ next_timer (restartIdleTimer projectId delay w) = S (next_timer w)
  /\ idleTimers (restartIdleTimer projectId delay w)
     = JsMap.set projectId (next_timer w) (idleTimers w)
  /\ globalIdleTimer (restartIdleTimer projectId delay w) = globalIdleTimer w.
Proof.
  unfold restartIdleTimer.
  destruct (JsMap.get projectId (idleTimers w)); simpl; repeat split; reflexivity.
Qed.

Lemma timers_ok_restartIdleTimer projectId delay w :
  timers_ok w -> timers_ok (restartIdleTimer projectId delay w).
Proof.
  intros Hok.
  pose proof (timers_ok_clearTimeout (JsMap.get projectId (idleTimers w)) w Hok)
    as (C1 & C2 & _ & _ & C5 & C6).
  destruct Hok as (H1 & H2 & H3 & H4 & H5 & H6).
  destruct (restartIdleTimer_table projectId delay w) as (T1 & T2 & T3 & T4).
  destruct (clearTimeout_fields (JsMap.get projectId (idleTimers w)) w) as (Cn & Ci & Cg).
  rewrite Cn in C2. rewrite Ci in C5. rewrite Cg in C6.
  unfold timers_ok. rewrite T1, T2, T3, T4.
  split; [apply timers_ok_add_new; assumption|].
  split.
  { intros e He. apply in_app_or in He. destruct He as [He|[<-|[]]].
    - apply C2 in He. lia.
    - simpl. lia. }
  split.
  { intros p i Hp. destruct (String.eqb_spec projectId p) as [->|Hne].
    - rewrite JsMapFacts.get_set_eq in Hp. injection Hp as <-. lia.
    - rewrite JsMapFacts.get_set_ne in Hp by assumption. apply H3 in Hp. lia. }
  split; [intros g Hg; apply H4 in Hg; lia|].
  split.
  { intros e p He Hcb. apply in_app_or in He. destruct He as [He|[<-|[]]].
    - destruct (String.eqb_spec projectId p) as [->|Hne].
      + exfalso. pose proof (C5 e p He Hcb) as Hold. rewrite Hold in He.
        apply clearTimeout_removes in He. congruence.
      + rewrite JsMapFacts.get_set_ne by assumption. now apply C5.
    - simpl in Hcb. injection Hcb as <-. simpl. apply JsMapFacts.get_set_eq. }
  intros e He Hcb. apply in_app_or in He. destruct He as [He|[<-|[]]].
  - now apply C6.
  - simpl in Hcb. discriminate.
Qed.

Lemma arm_global_timer_table delay w :
  timers (arm_global_timer delay w)
  = timers (clearTimeout (globalIdleTimer w) w)
      ++ [(next_timer w, {| due := clock w + delay; callback := CheckAndPauseGlobalTimer |})]
  /\ next_timer (arm_global_timer delay w) = S (next_timer w)
  /\ idleTimers (arm_global_timer delay w) = idleTimers w
  /\ globalIdleTimer (arm_global_timer delay w) = Some (next_timer w).
Proof.
  unfold arm_global_timer.
  destruct (globalIdleTimer w); simpl; repeat split; reflexivity.
Qed.

Lemma timers_ok_arm_global_timer delay w :
  timers_ok w -> timers_ok (arm_global_timer delay w).
Proof.
  intros Hok.
  pose proof (timers_ok_clearTimeout (globalIdleTimer w) w Hok)
    as (C1 & C2 & _ & _ & C5 & C6).
  destruct Hok as (H1 & H2 & H3 & H4 & H5 & H6).
  destruct (arm_global_timer_table delay w) as (T1 & T2 & T3 & T4).
  destruct (clearTimeout_fields (globalIdleTimer w) w) as (Cn & Ci & Cg).
  rewrite Cn in C2. rewrite Ci in C5. rewrite Cg in C6.
  unfold timers_ok. rewrite T1, T2, T3, T4.
  split; [apply timers_ok_add_new; assumption|].
  split.
  { intros e He. apply in_app_or in He. destruct He as [He|[<-|[]]].
    - apply C2 in He. lia.
    - simpl. lia. }
  split; [intros p i Hp; apply H3 in Hp; lia|].
  split; [intros g Hg; injection Hg as <-; lia|].
  split.
  { intros e p He Hcb. apply in_app_or in He. destruct He as [He|[<-|[]]].
    - now apply C5.
    - simpl in Hcb. discriminate. }
  intros e He Hcb. apply in_app_or in He. destruct He as [He|[<-|[]]].
  - exfalso. pose proof (C6 e He Hcb) as Hold. rewrite Hold in He.
    apply clearTimeout_removes in He. congruence.
  - reflexivity.
Qed.

(** Forgetting the idle timer of a project, once it is cancelled. *)
Lemma timers_ok_forget projectId w :
  timers_ok w ->
  let w1 := clearTimeout (JsMap.get projectId (idleTimers w)) w in
  timers_ok (with_idleTimers (JsMap.delete projectId (idleTimers w1)) w1).
Proof.
  intros Hok. cbv zeta.
  pose proof (timers_ok_clearTimeout (JsMap.get projectId (idleTimers w)) w Hok)
    as (C1 & C2 & C3 & C4 & C5 & C6).
  set (w1 := clearTimeout (JsMap.get projectId (idleTimers w)) w) in *.
  assert (Ci : idleTimers w1 = idleTimers w) by apply clearTimeout_fields.
  unfold timers_ok. cbn [timers next_timer idleTimers globalIdleTimer with_idleTimers].
  split; [exact C1|]. split; [exact C2|].
  split.
  { intros p i Hp. destruct (String.eqb_spec projectId p) as [->|Hne].
    - rewrite JsMapFacts.get_delete_eq in Hp. discriminate.
    - rewrite JsMapFacts.get_delete_ne in Hp by assumption. now apply C3 in Hp. }
  split; [exact C4|].
  split; [|exact C6].
  intros e p He Hcb. destruct (String.eqb_spec projectId p) as [->|Hne].
  - exfalso. pose proof (C5 e p He Hcb) as Hold. rewrite Ci in Hold.
    unfold w1 in He. rewrite Hold in He. apply clearTimeout_removes in He. congruence.
  - rewrite JsMapFacts.get_delete_ne by assumption. now apply C5.
Qed.

Section TimerOperations.
Context {P : Platform}.

Lemma timers_ok_State_set_tracking s w :
  timers_ok w -> timers_ok (State_set_tracking s w).
Proof. apply timers_ok_table. reflexivity. Qed.

Lemma timers_ok_startGlobalTimer w : timers_ok w -> timers_ok (startGlobalTimer w).
Proof.
  intros Hok. unfold startGlobalTimer.
  destruct (global_running (trackingState w)); [exact Hok|].
  apply (timers_ok_arm_global_timer IDLE_TIMEOUT).
  now apply timers_ok_State_set_tracking.
Qed.

Lemma timers_ok_resumeGlobalTimer w : timers_ok w -> timers_ok (resumeGlobalTimer w).
Proof.
  intros Hok. unfold resumeGlobalTimer.
  destruct (negb (globalIsIdle (trackingState w))); [exact Hok|].
  apply (timers_ok_arm_global_timer IDLE_TIMEOUT).
  now apply timers_ok_State_set_tracking.
Qed.

Lemma timers_ok_resetGlobalIdleTimer w :
  timers_ok w -> timers_ok (resetGlobalIdleTimer w).
Proof.
  intros Hok. unfold resetGlobalIdleTimer.
  destruct (globalIsIdle (trackingState w)); [now apply timers_ok_resumeGlobalTimer|].
  destruct (truthy_time (globalSessionStartTime (trackingState w))); [|exact Hok].
  pose proof (timers_ok_arm_global_timer IDLE_TIMEOUT w Hok) as Harm.
  revert Harm. apply timers_ok_table. unfold arm_global_timer.
  now destruct (setTimeout CheckAndPauseGlobalTimer IDLE_TIMEOUT
                  (clearTimeout (globalIdleTimer w) w)).
Qed.

Lemma timers_ok_pauseGlobalTimer w : timers_ok w -> timers_ok (pauseGlobalTimer w).
Proof.
  intros Hok. unfold pauseGlobalTimer.
  destruct (negb (truthy_time (globalSessionStartTime (trackingState w)))
            || globalIsIdle (trackingState w)); [exact Hok|].
  cbv zeta. apply timers_ok_State_set_tracking.
  destruct (_ >? 1000); [|exact Hok].
  revert Hok. apply timers_ok_table, timer_table_runtime, runtime_saveGlobalSession.
Qed.

Lemma timers_ok_stopGlobalTimer w : timers_ok w -> timers_ok (stopGlobalTimer w).
Proof.
  intros Hok. unfold stopGlobalTimer. cbv zeta.
  apply timers_ok_State_set_tracking, timers_ok_clearTimeout.
  destruct (global_running (trackingState w)); [|exact Hok].
  destruct (_ >? 1000); [|exact Hok].
  revert Hok. apply timers_ok_table, timer_table_runtime, runtime_saveGlobalSession.
Qed.

Lemma timers_ok_resumeTracking projectId w :
  timers_ok w -> timers_ok (resumeTracking projectId w).
Proof.
  intros Hok. unfold resumeTracking.
  destruct (JsMap.get projectId (activeSessions (trackingState w))) as [s|]; [|exact Hok].
  destruct (negb (isIdle s)); [exact Hok|]. cbv zeta.
  apply timers_ok_restartIdleTimer.
  destruct (Nat.eqb (getActiveNonIdleCount w) 0).
  - now apply timers_ok_resumeGlobalTimer, timers_ok_State_set_tracking.
  - now apply timers_ok_State_set_tracking.
Qed.

Lemma timers_ok_startTracking projectId w :
  timers_ok w -> timers_ok (startTracking projectId w).
Proof.
  intros Hok. unfold startTracking.
  destruct (String.eqb projectId ""); [exact Hok|]. cbv zeta.
  destruct (match JsMap.get projectId (activeSessions (trackingState w)) with
            | Some s => session_running s
            | None => false
            end); [exact Hok|].
  destruct (match JsMap.get projectId (activeSessions (trackingState w)) with
            | Some s => isIdle s
            | None => false
            end); [now apply timers_ok_resumeTracking|].
  apply timers_ok_restartIdleTimer.
  destruct (Nat.eqb (getActiveNonIdleCount w) 0).
  - now apply timers_ok_startGlobalTimer, timers_ok_State_set_tracking.
  - now apply timers_ok_State_set_tracking.
Qed.

Lemma timers_ok_saveSession projectId start finish d w :
  timers_ok w -> timers_ok (saveSession projectId start finish d w).
Proof. apply timers_ok_table, timer_table_runtime, runtime_saveSession. Qed.

Lemma timers_ok_stopTracking projectId w :
  timers_ok w -> timers_ok (stopTracking projectId w).
Proof.
  intros Hok. unfold stopTracking.
  destruct (match JsMap.get projectId (activeSessions (trackingState w)) with
            | Some s => negb (truthy_time (sessionStartTime s))
            | None => true
            end); [now apply timers_ok_State_set_tracking|].
  cbv zeta.
  match goal with
  | |- context [clearTimeout (JsMap.get projectId (idleTimers ?w1)) ?w1] =>
      assert (H1 : timers_ok w1)
        by (destruct (_ >? 1000); [now apply timers_ok_saveSession|exact Hok]);
      pose proof (timers_ok_forget projectId w1 H1) as H3; cbv zeta in H3
  end.
  match goal with
  | |- timers_ok (if _ then stopGlobalTimer ?w5 else _) =>
      assert (H5 : timers_ok w5) by (revert H3; apply timers_ok_table; reflexivity)
  end.
  destruct (Nat.eqb _ 0); [now apply timers_ok_stopGlobalTimer|exact H5].
Qed.

Lemma timers_ok_pauseTracking projectId w :
  timers_ok w -> timers_ok (pauseTracking projectId w).
Proof.
  intros Hok. unfold pauseTracking.
  destruct (JsMap.get projectId (activeSessions (trackingState w))) as [s|]; [|exact Hok].
  destruct (negb (truthy_time (sessionStartTime s)) || isIdle s); [exact Hok|].
  cbv zeta.
  match goal with
  | |- timers_ok (if _ then pauseGlobalTimer ?w2 else _) =>
      assert (H2 : timers_ok w2)
        by (apply timers_ok_State_set_tracking;
            destruct (_ >? 1000); [now apply timers_ok_saveSession|exact Hok])
  end.
  destruct (Nat.eqb _ 0); [now apply timers_ok_pauseGlobalTimer|exact H2].
Qed.

Lemma timers_ok_recordActivity projectId w :
  timers_ok w -> timers_ok (recordActivity projectId w).
Proof.
  intros Hok. unfold recordActivity.
  destruct (String.eqb projectId ""); [exact Hok|]. cbv zeta.
  destruct (JsMap.get projectId (activeSessions (trackingState w))) as [s|];
    [|now apply timers_ok_startTracking].
  destruct (isIdle s); [now apply timers_ok_resumeTracking|].
  now apply timers_ok_State_set_tracking, timers_ok_resetGlobalIdleTimer,
    timers_ok_restartIdleTimer.
Qed.

Lemma timers_ok_recordOutputActivity projectId w :
  timers_ok w -> timers_ok (recordOutputActivity projectId w).
Proof.
  intros Hok. unfold recordOutputActivity.
  destruct (String.eqb projectId ""); [exact Hok|].
  destruct (JsMap.get projectId (activeSessions (trackingState w))) as [s|]; [|exact Hok].
  destruct (isIdle s); [exact Hok|].
  revert Hok. apply timers_ok_table. reflexivity.
Qed.

Lemma timers_ok_checkAndPauseTracking projectId w :
  timers_ok w -> timers_ok (checkAndPauseTracking projectId w).
Proof.
  intros Hok. unfold checkAndPauseTracking. cbv zeta.
  destruct (_ <? OUTPUT_IDLE_TIMEOUT);
    [now apply timers_ok_restartIdleTimer|now apply timers_ok_pauseTracking].
Qed.

Lemma timers_ok_checkAndPauseGlobalTimer w :
  timers_ok w -> timers_ok (checkAndPauseGlobalTimer w).
Proof.
  intros Hok. unfold checkAndPauseGlobalTimer. cbv zeta.
  destruct (_ <? OUTPUT_IDLE_TIMEOUT); [|now apply timers_ok_pauseGlobalTimer].
  now apply (timers_ok_arm_global_timer
               (OUTPUT_IDLE_TIMEOUT - (clock w - globalLastOutputTime w) + 100)).
Qed.

End TimerOperations.

(** X11.  The tracker leaks no timer.  If every pending timer is one the
    module remembers (the pending idle timer of a project is the one in
    [idleTimers], the pending global idle timer is [globalIdleTimer], no
    timer id is pending twice), then the same holds after each operation of
    the tracker: at most one idle timer is pending for a project, and at
    most one for the global interval. *)
Theorem tracker_operations_leak_no_timer :
  forall (P : Platform) (projectId : string) (w : World),
    timers_ok w ->
    timers_ok (startTracking projectId w)
    /\ timers_ok (stopTracking projectId w)
    /\ timers_ok (recordActivity projectId w)
    /\ timers_ok (recordOutputActivity projectId w)
    /\ timers_ok (pauseTracking projectId w)
    /\ timers_ok (resumeTracking projectId w)
    /\ timers_ok (checkAndPauseTracking projectId w)
    /\ timers_ok (checkAndPauseGlobalTimer w).
Proof.
  intros P projectId w Hok.
  split; [now apply timers_ok_startTracking|].
  split; [now apply timers_ok_stopTracking|].
  split; [now apply timers_ok_recordActivity|].
  split; [now apply timers_ok_recordOutputActivity|].
  split; [now apply timers_ok_pauseTracking|].
  split; [now apply timers_ok_resumeTracking|].
  split; [now apply timers_ok_checkAndPauseTracking|].
  now apply timers_ok_checkAndPauseGlobalTimer.
Qed.

Lemma tracker_operations_leak_no_timer_witness :
  timers_ok demoReady
  /\ timers_ok (recordActivity "proj-1"%string demoReady)
  /\ List.length (timers (recordActivity "proj-1"%string demoReady)) = 2%nat.
Proof.
  assert (H : timers_ok demoReady).
  { split; [constructor|]. split; [intros e []|].
    split; [intros p i Hp; discriminate|]. split; [intros g Hg; discriminate|].
    split; [intros e p []|intros e []]. }
  split; [exact H|]. split; [|reflexivity].
  exact (proj1 (proj2 (proj2 (tracker_operations_leak_no_timer utc "proj-1"%string
                                demoReady H)))).
Defined.

(* ================================================================== *)
(** * Idle, resume and activity *)
(* ================================================================== *)


Section IdleFacts.
Context {P : Platform}.





End IdleFacts.



Section ActivityFacts.

Lemma resetGlobalIdleTimer_keeps (e : nat * Timeout) (w : World) :
  In e (timers w) ->
  (forall timer, globalIdleTimer w = Some timer -> fst e <> timer) ->
  In e (timers (resetGlobalIdleTimer w))
  /\ idleTimers (resetGlobalIdleTimer w) = idleTimers w.
Proof.
  intros He Hg.
  assert (Harm : forall (s : TrackingState) delay,
             In e (timers (arm_global_timer delay (State_set_tracking s w)))
             /\ idleTimers (arm_global_timer delay (State_set_tracking s w))
                = idleTimers w).
  { intros s delay.
    destruct (arm_global_timer_table delay (State_set_tracking s w)) as (T1 & _ & T2 & _).
    rewrite T1, T2. split; [|reflexivity].
    apply in_or_app. left.
    cbn [globalIdleTimer State_set_tracking with_trackingState].
    destruct (globalIdleTimer w) as [g|] eqn:Eg; [|exact He].
    simpl. apply filter_In. split; [exact He|].
    apply negb_true_iff, Nat.eqb_neq. now apply Hg. }
  unfold resetGlobalIdleTimer.
  destruct (globalIsIdle (trackingState w)).
  - unfold resumeGlobalTimer. destruct (negb (globalIsIdle (trackingState w)));
      [now split|]. apply Harm.
  - destruct (truthy_time (globalSessionStartTime (trackingState w))); [|now split].
    destruct (Harm (trackingState w) IDLE_TIMEOUT) as [A1 A2].
    unfold arm_global_timer in A1, A2.
    cbn [globalIdleTimer State_set_tracking with_trackingState] in A1, A2.
    destruct (setTimeout CheckAndPauseGlobalTimer IDLE_TIMEOUT
                (clearTimeout (globalIdleTimer w) w)) as [timer w2] eqn:Et.
    unfold setTimeout in Et. injection Et as <- <-.
    destruct (globalIdleTimer w); simpl in *; now split.
Qed.

End ActivityFacts.

(** X13.  [recordActivity] for a running project keeps its interval with
    the start it has, sets its last activity to the current time, and arms
    its idle timer for 15 minutes from now; it touches no other project and
    persists nothing. *)
Theorem recordActivity_rearms_the_idle_timer :
  forall (projectId : string) (w : World) (start : Z),
    projectId <> ""%string ->
    running_since projectId start w ->
    timers_ok w ->
    let w' := recordActivity projectId w in
    JsMap.get projectId (activeSessions (trackingState w'))
    = Some {| sessionStartTime := Some start;
              lastActivityTime := clock w;
              isIdle := false |}
    /\ (forall other, other <> projectId ->
          JsMap.get other (activeSessions (trackingState w'))
          = JsMap.get other (activeSessions (trackingState w)))
    /\ idle_timer_due projectId (clock w + IDLE_TIMEOUT) w'
    /\ persisted w' = persisted w.
Proof.
  intros projectId w start Hne (session & Hget & Hst & Hrun) Hok. cbv zeta.
  pose proof (session_running_not_idle session Hrun) as Hidle.
  split; [|split; [|split]]; try (apply same_store_recordActivity).
  - unfold recordActivity. destruct (String.eqb_spec projectId ""); [contradiction|].
    rewrite Hget, Hidle. cbn [trackingState State_set_tracking with_trackingState
                               activeSessions with_activeSessions].
    rewrite JsMapFacts.get_set_eq. now rewrite Hst.
  - intros other Ho. unfold recordActivity.
    destruct (String.eqb_spec projectId ""); [contradiction|].
    rewrite Hget, Hidle. cbn [trackingState State_set_tracking with_trackingState
                               activeSessions with_activeSessions].
    apply JsMapFacts.get_set_ne. congruence.
  - unfold recordActivity. destruct (String.eqb_spec projectId ""); [contradiction|].
    rewrite Hget, Hidle. unfold idle_timer_due.
    cbn [idleTimers timers State_set_tracking with_trackingState].
    destruct (restartIdleTimer_table projectId IDLE_TIMEOUT w) as (T1 & T2 & T3 & T4).
    set (w1 := restartIdleTimer projectId IDLE_TIMEOUT w) in *.
    set (e := (next_timer w,
               {| due := clock w + IDLE_TIMEOUT;
                  callback := CheckAndPauseTracking projectId |})).
    assert (He : In e (timers w1)) by (rewrite T1; apply in_or_app; right; now left).
    assert (Hg : forall timer, globalIdleTimer w1 = Some timer -> fst e <> timer).
    { intros g Eg. rewrite T4 in Eg. destruct Hok as (_ & _ & _ & H4 & _).
      apply H4 in Eg. simpl. lia. }
    destruct (resetGlobalIdleTimer_keeps e w1 He Hg) as [K1 K2].
    exists (next_timer w). rewrite K2, T3. split; [apply JsMapFacts.get_set_eq|exact K1].
Qed.

Lemma recordActivity_rearms_the_idle_timer_witness :
  "proj-1"%string <> ""%string
  /\ running_since "proj-1" 1769900400000 (with_clock 1769900700000 demoTracking)
  /\ timers_ok (with_clock 1769900700000 demoTracking)
  /\ idle_timer_due "proj-1" (1769900700000 + IDLE_TIMEOUT)
       (recordActivity "proj-1"%string (with_clock 1769900700000 demoTracking)).
Proof.
  assert (H1 : "proj-1"%string <> ""%string) by discriminate.
  assert (H2 : running_since "proj-1" 1769900400000
                 (with_clock 1769900700000 demoTracking)).
  { eexists. split; [vm_compute; reflexivity|]. split; reflexivity. }
  assert (H0 : timers_ok demoReady).
  { split; [constructor|]. split; [intros e []|].
    split; [intros p i Hp; discriminate|]. split; [intros g Hg; discriminate|].
    split; [intros e p []|intros e []]. }
  assert (H3 : timers_ok (with_clock 1769900700000 demoTracking)).
  { apply (timers_ok_table demoTracking); [reflexivity|].
    now apply timers_ok_startTracking. }
  split; [exact H1|]. split; [exact H2|]. split; [exact H3|].
  exact (proj1 (proj2 (proj2 (recordActivity_rearms_the_idle_timer "proj-1"%string
                                (with_clock 1769900700000 demoTracking) 1769900400000
                                H1 H2 H3)))).
Defined.

(* ================================================================== *)
(** * Saving a session *)
(* ================================================================== *)

Section SaveFacts.
Context {P : Platform}.

Lemma saveSession_projects_absent projectId today s start d ps w :
  (forall p, In p ps -> p_id p <> projectId) ->
  saveSession_projects projectId today s start d ps w = (ps, w).
Proof.
  induction ps as [|p ps IH]; intros Habs; simpl; [reflexivity|].
  unfold saveSession_project.
  destruct (String.eqb_spec (p_id p) projectId) as [E|_].
  - exfalso. apply (Habs p); [now left|exact E].
  - cbn [negb]. rewrite IH; [reflexivity|]. intros q Hq. apply Habs. now right.
Qed.

(** Every project of the list is mapped by the callback, in some world of
    the same setup. *)
Lemma saveSession_projects_In projectId today s start d ps :
  forall w p,
    In p ps ->
    exists w0,
      setup w0 = setup w
      /\ In (fst (saveSession_project projectId today s start d p w0))
            (fst (saveSession_projects projectId today s start d ps w)).
Proof.
  induction ps as [|q ps IH]; intros w p Hin; [destruct Hin|].
  simpl.
  destruct (saveSession_project projectId today s start d q w) as [q' w1] eqn:Eq.
  destruct (saveSession_projects projectId today s start d ps w1) as [rest' w2] eqn:Er.
  destruct Hin as [<-|Hin].
  - exists w. split; [reflexivity|]. rewrite Eq. now left.
  - destruct (IH w1 p Hin) as (w0 & Hs & Hi). exists w0. split.
    + rewrite Hs.
      pose proof (runtime_saveSession_project projectId today s start d q w) as [_ Hq].
      now rewrite Eq in Hq.
    + rewrite Er in Hi. now right.
Qed.

Lemma isCurrentMonthSession_same_setup start w w' :
  setup w' = setup w -> isCurrentMonthSession start w' = isCurrentMonthSession start w.
Proof. apply isCurrentMonthSession_setup. Qed.

End SaveFacts.

(** X14.  A session saved for a project id that the dataset does not hold
    is dropped silently: the dataset and the archive files are as before;
    yet a session id has been drawn and a save of the projects has been
    requested. *)
Theorem saveSession_of_an_unknown_project :
  forall (P : Platform) (projectId : string) (startTime endTime duration : Z)
         (w : World),
    initialised w = true ->
    ~ has_project projectId w ->
    let w' := saveSession projectId startTime endTime duration w in
    projects (projectsState w') = projects (projectsState w)
    /\ globalTimeTracking (projectsState w') = globalTimeTracking (projectsState w)
    /\ disk w' = disk w
    /\ save_calls w' = S (save_calls w)
    /\ random_pos w' = S (random_pos w).
Proof.
  intros P projectId startTime endTime duration w Hi Habs. cbv zeta.
  unfold saveSession. rewrite (initialised_guard w Hi).
  unfold generateSessionId. cbv zeta.
  rewrite saveSession_projects_absent.
  - repeat split.
  - intros p Hp E. apply Habs. exists p. split; [exact Hp|exact E].
Qed.

Lemma saveSession_of_an_unknown_project_witness :
  initialised demoReady = true
  /\ ~ has_project "proj-9" demoReady
  /\ projects (projectsState
                 (@saveSession utc "proj-9"%string 1769900400000 1769900460000 60000
                    demoReady))
     = projects (projectsState demoReady)
  /\ save_calls (@saveSession utc "proj-9"%string 1769900400000 1769900460000 60000
                   demoReady) = 1%nat.
Proof.
  assert (H1 : initialised demoReady = true) by reflexivity.
  assert (H2 : ~ has_project "proj-9" demoReady).
  { intros (p & [<-|[<-|[]]] & E); discriminate. }
  pose proof (saveSession_of_an_unknown_project utc "proj-9"%string 1769900400000
                1769900460000 60000 demoReady H1 H2) as T.
  cbv zeta in T. destruct T as (T1 & _ & _ & T4 & _).
  split; [exact H1|]. split; [exact H2|]. split; [exact T1|exact T4].
Defined.

(** X15.  What [saveSession] credits.  For a project of the dataset with
    finite counters, the saved duration is added to [totalTime]; it is
    added to [todayTime] when the record was last active today, and
    replaces [todayTime] when it was last active on another day (or never);
    [lastActiveDate] becomes today.  Projects with another id are left as
    they are. *)
Theorem saveSession_credits_the_counters :
  forall (P : Platform) (projectId : string) (startTime endTime duration : Z)
         (w : World) (p : Project) (tracking : ProjectTimeTracking) (total today : Z),
    initialised w = true ->
    In p (projects (projectsState w)) ->
    timeTracking p = Some tracking ->
    totalTime tracking = Some (Num total) ->
    todayTime tracking = Some (Num today) ->
    let w' := saveSession projectId startTime endTime duration w in
    (p_id p <> projectId -> In p (projects (projectsState w')))
    /\ (p_id p = projectId ->
        exists p' tracking',
          In p' (projects (projectsState w'))
          /\ p_id p' = p_id p /\ p_name p' = p_name p
          /\ timeTracking p' = Some tracking'
          /\ totalTime tracking' = Some (Num (total + duration))
          /\ lastActiveDate tracking' = Some (getTodayString w)
          /\ (lastActiveDate tracking = Some (getTodayString w) ->
              todayTime tracking' = Some (Num (today + duration)))
          /\ (lastActiveDate tracking <> Some (getTodayString w) ->
              todayTime tracking' = Some (Num duration))).
Proof.
  intros P projectId startTime endTime duration w p tracking total today
         Hi Hin Htt Htotal Htoday. cbv zeta.
  unfold saveSession. rewrite (initialised_guard w Hi).
  unfold generateSessionId. cbv zeta.
  set (w1 := with_random_pos (S (random_pos w)) w).
  set (s := newSession (session_id (clock w) (random w (random_pos w)))
              startTime endTime duration).
  destruct (saveSession_projects_In projectId (getTodayString w) s startTime duration
              (projects (projectsState w1)) w1 p Hin) as (w0 & _ & Hmapped).
  destruct (saveSession_projects projectId (getTodayString w) s startTime duration
              (projects (projectsState w1)) w1) as [projects_now w2].
  cbn [fst] in Hmapped.
  cbn [projects projectsState saveProjects State_set_projects with_projectsState
       with_save_calls].
  unfold saveSession_project in Hmapped. split.
  - intros Hne. destruct (String.eqb_spec (p_id p) projectId); [contradiction|].
    exact Hmapped.
  - intros He. destruct (String.eqb_spec (p_id p) projectId); [|contradiction].
    cbn [negb] in Hmapped. rewrite Htt in Hmapped.
    destruct (if isCurrentMonthSession startTime w0
              then (Some (or_empty (sessions tracking) ++ [s]), w0)
              else (sessions tracking,
                    appendToArchive (Some (getFullYear startTime))
                      (Some (getMonth startTime)) []
                      [(projectId, {| projectName := p_name p; pa_sessions := [s] |})]
                      w0)) as [sessions_now w3].
    cbn [fst] in Hmapped.
    eexists. eexists. split; [exact Hmapped|].
    cbn [p_id p_name timeTracking totalTime todayTime lastActiveDate].
    split; [reflexivity|]. split; [reflexivity|]. split; [reflexivity|].
    rewrite Htotal. split; [reflexivity|]. split; [reflexivity|].
    split.
    + intros Hsame. rewrite Hsame. unfold string_neq. rewrite String.eqb_refl.
      cbn [negb]. now rewrite Htoday.
    + intros Hother. unfold string_neq.
      destruct (lastActiveDate tracking) as [text|]; [|reflexivity].
      destruct (String.eqb_spec text (getTodayString w)) as [->|_];
        [contradiction|reflexivity].
Qed.

Lemma saveSession_credits_the_counters_witness :
  initialised workedWorld = true
  /\ In workedProject (projects (projectsState workedWorld))
  /\ lastActiveDate workedTracking = Some (@getTodayString utc workedWorld)
  /\ exists p' tracking',
       In p' (projects (projectsState
                         (@saveSession utc "proj-1"%string 1769900340000 1769900400000
                            60000 workedWorld)))
       /\ timeTracking p' = Some tracking'
       /\ totalTime tracking' = Some (Num 7260000)
       /\ todayTime tracking' = Some (Num 3660000).
Proof.
  assert (H1 : initialised workedWorld = true) by reflexivity.
  assert (H2 : In workedProject (projects (projectsState workedWorld)))
    by (left; reflexivity).
  assert (H3 : lastActiveDate workedTracking = Some (@getTodayString utc workedWorld))
    by (vm_compute; reflexivity).
  pose proof (saveSession_credits_the_counters utc "proj-1"%string 1769900340000
                1769900400000 60000 workedWorld workedProject workedTracking
                7200000 3600000 H1 H2 eq_refl eq_refl eq_refl) as T.
  cbv zeta in T. destruct T as [_ T].
  destruct (T eq_refl) as (p' & tracking' & T1 & _ & _ & T4 & T5 & _ & T7 & _).
  split; [exact H1|]. split; [exact H2|]. split; [exact H3|].
  exists p', tracking'. split; [exact T1|]. split; [exact T4|].
  split; [exact T5|exact (T7 H3)].
Defined.

(* ================================================================== *)
(** * The sanitizer, again *)
(* ================================================================== *)

Lemma filter_idempotent {A} (f : A -> bool) (l : list A) :
  filter f (filter f l) = filter f l.
Proof.
  induction l as [|a l IH]; simpl; [reflexivity|].
  destruct (f a) eqn:E; simpl; [rewrite E, IH|]; auto.
Qed.

Lemma bad_counter_clean (v : JsField) : bad_counter v = false -> clean_counter v.
Proof.
  unfold bad_counter, clean_counter. destruct v as [[| |z]|]; simpl; try discriminate.
  intros H. exists z. split; [reflexivity|]. apply Z.ltb_ge in H. exact H.
Qed.

Lemma bad_counter_fix (v : JsField) : bad_counter (fix_counter v) = false.
Proof. unfold fix_counter. now destruct (bad_counter v) eqn:E. Qed.

Lemma fix_counter_fix (v : JsField) : fix_counter (fix_counter v) = fix_counter v.
Proof. unfold fix_counter at 1. now rewrite bad_counter_fix. Qed.

Lemma fix_counter_clean (v : JsField) : clean_counter (fix_counter v).
Proof. apply bad_counter_clean, bad_counter_fix. Qed.

Section SanitizerMore.
Context {P : Platform}.

Lemma sanitize_sessions_again (l : option (list Session)) :
  sanitize_sessions (Some (fst (sanitize_sessions l))) = (fst (sanitize_sessions l), false).
Proof.
  destruct l as [l|]; [|reflexivity].
  unfold sanitize_sessions at 2 3.
  destruct (negb (Nat.eqb (List.length (filter keep_session l)) (List.length l))) eqn:E;
    cbn [fst]; unfold sanitize_sessions.
  - rewrite filter_idempotent, Nat.eqb_refl. reflexivity.
  - now rewrite E.
Qed.

Lemma sanitize_project_shape (now : Z) (p : Project) (t : ProjectTimeTracking) :
  timeTracking p = Some t ->
  sanitize_project now p
  = ({| p_id := p_id p; p_name := p_name p;
        timeTracking :=
          Some {| totalTime := fix_counter (totalTime t);
                  todayTime := if future_date now t then Some (Num 0)
                               else fix_counter (todayTime t);
                  lastActiveDate := if future_date now t then None
                                    else lastActiveDate t;
                  sessions := Some (fst (sanitize_sessions (sessions t))) |} |},
     bad_counter (totalTime t) || bad_counter (todayTime t) || future_date now t
     || snd (sanitize_sessions (sessions t))).
Proof.
  intros H. unfold sanitize_project. rewrite H.
  unfold fix_counter. fold (future_date now t).
  destruct (bad_counter (totalTime t)); destruct (bad_counter (todayTime t));
    destruct (future_date now t); destruct (sanitize_sessions (sessions t));
    reflexivity.
Qed.

Lemma sanitize_project_again (now : Z) (p : Project) :
  sanitize_project now (fst (sanitize_project now p))
  = (fst (sanitize_project now p), false).
Proof.
  destruct (timeTracking p) as [t|] eqn:Ht.
  - rewrite (sanitize_project_shape now p t Ht). cbn [fst].
    erewrite sanitize_project_shape by reflexivity.
    cbn [p_id p_name totalTime todayTime lastActiveDate sessions].
    assert (Hf : future_date now
                   {| totalTime := fix_counter (totalTime t);
                      todayTime := if future_date now t then Some (Num 0)
                                   else fix_counter (todayTime t);
                      lastActiveDate := if future_date now t then None
                                        else lastActiveDate t;
                      sessions := Some (fst (sanitize_sessions (sessions t))) |}
                 = false).
    { destruct (future_date now t) eqn:E; [reflexivity|].
      unfold future_date in *. exact E. }
    rewrite Hf, fix_counter_fix, bad_counter_fix, sanitize_sessions_again.
    cbn [fst snd].
    assert (Ht2 : fix_counter (if future_date now t then Some (Num 0)
                               else fix_counter (todayTime t))
                  = (if future_date now t then Some (Num 0)
                     else fix_counter (todayTime t))
                  /\ bad_counter (if future_date now t then Some (Num 0)
                                  else fix_counter (todayTime t)) = false).
    { destruct (future_date now t); [split; reflexivity|].
      split; [apply fix_counter_fix|apply bad_counter_fix]. }
    destruct Ht2 as [-> ->]. reflexivity.
  - unfold sanitize_project. rewrite Ht. cbn [fst]. now rewrite Ht.
Qed.

Lemma sanitize_global_shape (g : GlobalTimeTracking) :
  sanitize_global g
  = ({| g_totalTime := fix_counter (g_totalTime g);
        g_todayTime := fix_counter (g_todayTime g);
        g_weekTime := fix_counter (g_weekTime g);
        g_monthTime := fix_counter (g_monthTime g);
        g_lastActiveDate := g_lastActiveDate g;
        g_weekStart := g_weekStart g;
        g_monthStart := g_monthStart g;
        g_sessions := Some (fst (sanitize_sessions (g_sessions g))) |},
     bad_counter (g_totalTime g) || bad_counter (g_todayTime g)
     || bad_counter (g_weekTime g) || bad_counter (g_monthTime g)
     || snd (sanitize_sessions (g_sessions g))).
Proof.
  unfold sanitize_global, fix_counter.
  now destruct (sanitize_sessions (g_sessions g)).
Qed.

Lemma sanitize_global_again (g : GlobalTimeTracking) :
  sanitize_global (fst (sanitize_global g)) = (fst (sanitize_global g), false).
Proof.
  rewrite (sanitize_global_shape g). cbn [fst]. rewrite sanitize_global_shape.
  cbn [g_totalTime g_todayTime g_weekTime g_monthTime g_lastActiveDate g_weekStart
       g_monthStart g_sessions].
  now rewrite !fix_counter_fix, !bad_counter_fix, sanitize_sessions_again.
Qed.

Lemma sanitize_projects_again (now : Z) (ps : list Project) :
  map (sanitize_project now) (map fst (map (sanitize_project now) ps))
  = map (fun p => (p, false)) (map fst (map (sanitize_project now) ps)).
Proof.
  induction ps as [|p ps IH]; simpl; [reflexivity|].
  now rewrite sanitize_project_again, IH.
Qed.

Lemma existsb_snd_false (ps : list Project) :
  existsb snd (map (fun p : Project => (p, false)) ps) = false.
Proof. induction ps as [|p ps IH]; simpl; [reflexivity|exact IH]. Qed.

Lemma map_fst_unchanged (ps : list Project) :
  map fst (map (fun p : Project => (p, false)) ps) = ps.
Proof. induction ps as [|p ps IH]; simpl; [reflexivity|now rewrite IH]. Qed.

(** The dataset that the sanitizer leaves is the sanitized one, whether a
    save was needed or not. *)
Lemma sanitizer_dataset_shape (w : World) :
  projectsStateRef w = true ->
  projects (projectsState (world_of (sanitizeTimeTrackingData w)))
  = map fst (map (sanitize_project (clock w)) (projects (projectsState w)))
  /\ globalTimeTracking (projectsState (world_of (sanitizeTimeTrackingData w)))
     = option_map (fun g => fst (sanitize_global g))
         (globalTimeTracking (projectsState w)).
Proof.
  intros Href. pose proof (sanitizer_result w Href) as R. cbv zeta in R. rewrite R.
  destruct (existsb snd (map (sanitize_project (clock w)) (projects (projectsState w))))
    eqn:Ep.
  - cbn [orb projects globalTimeTracking]. split; [reflexivity|].
    now destruct (globalTimeTracking (projectsState w)).
  - cbn [orb]. pose proof (sanitize_projects_same (clock w) _ Ep) as Hsame.
    destruct (globalTimeTracking (projectsState w)) as [g|] eqn:Eg; cbn [option_map snd fst].
    + destruct (snd (sanitize_global g)) eqn:Es.
      * cbn [projects globalTimeTracking]. split; reflexivity.
      * rewrite Hsame, Eg. split; [reflexivity|]. cbn [option_map]. f_equal.
        symmetry. now apply sanitize_global_spec.
    + rewrite Hsame, Eg. split; reflexivity.
Qed.

End SanitizerMore.

Section SanitizerFrame.
Context {P : Platform}.

Lemma sanitizer_keeps_setup (w : World) :
  clock (world_of (sanitizeTimeTrackingData w)) = clock w
  /\ projectsStateRef (world_of (sanitizeTimeTrackingData w)) = projectsStateRef w.
Proof.
  unfold sanitizeTimeTrackingData.
  destruct (negb (projectsStateRef w)); [split; reflexivity|]. cbv zeta.
  destruct (match globalTimeTracking (projectsState w) with
            | Some g => let (g', c) := sanitize_global g in (Some g', c)
            | None => (None, false)
            end) as [globalTracking gChanged].
  destruct (existsb snd _ || gChanged); [|split; reflexivity].
  cbn [saveProjectsRef State_set_projects with_projectsState].
  destruct (saveProjectsRef w); split; reflexivity.
Qed.

End SanitizerFrame.

(** X16.  After [sanitizeTimeTrackingData] the counters are sound: every
    project that has a time-tracking record has a finite, non-negative
    [totalTime] and [todayTime] and a list of sessions, and so has the
    global record for its four counters.  The projects are the same, in
    the same order, and a project without a record stays without. *)
Theorem sanitizer_leaves_clean_counters :
  forall (P : Platform) (w : World),
    projectsStateRef w = true ->
    let before := projectsState w in
    let after := projectsState (world_of (sanitizeTimeTrackingData w)) in
    (forall p t,
       In p (projects after) -> timeTracking p = Some t ->
       clean_counter (totalTime t) /\ clean_counter (todayTime t)
       /\ exists l, sessions t = Some l)
    /\ (forall g,
          globalTimeTracking after = Some g ->
          clean_counter (g_totalTime g) /\ clean_counter (g_todayTime g)
          /\ clean_counter (g_weekTime g) /\ clean_counter (g_monthTime g)
          /\ exists l, g_sessions g = Some l)
    /\ map p_id (projects after) = map p_id (projects before)
    /\ map (fun p => match timeTracking p with Some _ => true | None => false end)
           (projects after)
       = map (fun p => match timeTracking p with Some _ => true | None => false end)
             (projects before).
Proof.
  intros P w Href. cbv zeta.
  destruct (sanitizer_dataset_shape w Href) as [Hp Hg]. rewrite Hp, Hg.
  split; [|split; [|split]].
  - intros p t Hin Ht. apply in_map_iff in Hin. destruct Hin as ([p0 c] & <- & Hin).
    apply in_map_iff in Hin. destruct Hin as (q & Hq & _).
    destruct (timeTracking q) as [t0|] eqn:Hq0.
    + rewrite (sanitize_project_shape (clock w) q t0 Hq0) in Hq.
      injection Hq as <- _. cbn [fst timeTracking] in Ht. injection Ht as <-.
      cbn [totalTime todayTime sessions].
      split; [apply fix_counter_clean|].
      split; [|eexists; reflexivity].
      destruct (future_date (clock w) t0); [|apply fix_counter_clean].
      exists 0. split; [reflexivity|lia].
    + unfold sanitize_project in Hq. rewrite Hq0 in Hq. injection Hq as <- _.
      cbn [fst] in Ht. congruence.
  - intros g Hsome.
    destruct (globalTimeTracking (projectsState w)) as [g0|]; [|discriminate].
    cbn [option_map] in Hsome. injection Hsome as <-.
    rewrite sanitize_global_shape. cbn [fst g_totalTime g_todayTime g_weekTime
                                        g_monthTime g_sessions].
    repeat split; try apply fix_counter_clean. eexists; reflexivity.
  - rewrite !map_map. apply map_ext. intros p. apply sanitize_project_spec.
  - rewrite !map_map. apply map_ext. intros p.
    destruct (timeTracking p) as [t0|] eqn:Hq0.
    + now rewrite (sanitize_project_shape (clock w) p t0 Hq0).
    + unfold sanitize_project. rewrite Hq0. cbn [fst]. now rewrite Hq0.
Qed.

Lemma sanitizer_leaves_clean_counters_witness :
  projectsStateRef brokenWorld = true
  /\ exists g,
       globalTimeTracking
         (projectsState (world_of (@sanitizeTimeTrackingData utc brokenWorld))) = Some g
       /\ g_todayTime g = Some (Num 60000)
       /\ g_weekTime g = Some (Num 0)
       /\ clean_counter (g_totalTime g) /\ clean_counter (g_monthTime g).
Proof.
  assert (H : projectsStateRef brokenWorld = true) by reflexivity.
  split; [exact H|].
  destruct (globalTimeTracking
              (projectsState (world_of (@sanitizeTimeTrackingData utc brokenWorld))))
    as [g|] eqn:Eg.
  - exists g. split; [reflexivity|].
    destruct (proj1 (proj2 (sanitizer_leaves_clean_counters utc brokenWorld H)) g Eg)
      as (C1 & _ & _ & C4 & _).
    vm_compute in Eg. injection Eg as <-.
    split; [reflexivity|]. split; [reflexivity|]. split; [exact C1|exact C4].
  - vm_compute in Eg. discriminate.
Defined.

(** X17.  The sanitizer is idempotent: run on the world it left, it
    returns without changing anything and without asking for a save. *)
Theorem sanitizer_twice_is_once :
  forall (P : Platform) (w : World),
    sanitizeTimeTrackingData (world_of (sanitizeTimeTrackingData w))
    = Returned (world_of (sanitizeTimeTrackingData w)).
Proof.
  intros P w. destruct (projectsStateRef w) eqn:Href.
  - destruct (sanitizer_keeps_setup w) as [Hc Hr].
    destruct (sanitizer_dataset_shape w Href) as [Hp Hg].
    set (w1 := world_of (sanitizeTimeTrackingData w)) in *.
    unfold sanitizeTimeTrackingData. rewrite Hr, Href. cbn [negb]. cbv zeta.
    rewrite Hp, Hg, Hc, sanitize_projects_again, existsb_snd_false.
    destruct (globalTimeTracking (projectsState w)) as [g|]; cbn [option_map].
    + now rewrite sanitize_global_again.
    + reflexivity.
  - unfold sanitizeTimeTrackingData at 2 3. rewrite Href. cbn [negb world_of].
    unfold sanitizeTimeTrackingData. now rewrite Href.
Qed.

(* ================================================================== *)
(** * Checkpoints *)
(* ================================================================== *)

Section CheckpointFacts.
Context {P : Platform}.

Lemma checkpoint_session_shape now restart activity entry w :
  checkpoint_session now entry w
  = (checkpoint_entry now entry, checkpoint_due now (snd entry),
     snd (cut_session now restart activity entry w)).
Proof.
  unfold checkpoint_session, checkpoint_entry, checkpoint_due, cut_session, start_of.
  destruct (session_running (snd entry)); [|reflexivity].
  cbn [andb]. cbv zeta.
  now destruct (now - match sessionStartTime (snd entry) with
                      | Some s => s
                      | None => 0
                      end >? 1000).
Qed.

Lemma checkpoint_sessions_shape now restart activity entries :
  forall w,
    checkpoint_sessions now entries w
    = (map (checkpoint_entry now) entries,
       existsb (fun e => checkpoint_due now (snd e)) entries,
       snd (cut_sessions now restart activity entries w)).
Proof.
  induction entries as [|entry rest IH]; intros w; [reflexivity|].
  cbn [checkpoint_sessions cut_sessions map existsb].
  rewrite (checkpoint_session_shape now restart activity).
  destruct (cut_session now restart activity entry w) as [entry' w1]. cbn [snd].
  rewrite IH.
  now destruct (cut_sessions now restart activity rest w1) as [rest' w2].
Qed.

Lemma checkpoint_entries_unchanged now entries :
  existsb (fun e => checkpoint_due now (snd e)) entries = false ->
  map (checkpoint_entry now) entries = entries.
Proof.
  induction entries as [|entry rest IH]; simpl; [reflexivity|].
  intros H. apply orb_false_iff in H. destruct H as [H1 H2].
  unfold checkpoint_entry at 1. rewrite H1. now rewrite IH.
Qed.

Lemma fst_checkpoint_entry now e : fst (checkpoint_entry now e) = fst e.
Proof. unfold checkpoint_entry. now destruct (checkpoint_due now (snd e)). Qed.

(** The worlds of [saveCheckpoints]: after the loop over the projects,
    after the global session, and at the end. *)
Lemma saveCheckpoints_steps w :
  let now := clock w in
  let w1 := snd (cut_sessions now now now (activeSessions (trackingState w)) w) in
  let globalDue :=
    global_running (trackingState w)
    && (now - match globalSessionStartTime (trackingState w) with
              | Some s => s
              | None => 0
              end >? 1000) in
  let w2 := if globalDue
            then saveGlobalSession
                   match globalSessionStartTime (trackingState w) with
                   | Some s => s
                   | None => 0
                   end now
                   (now - match globalSessionStartTime (trackingState w) with
                          | Some s => s
                          | None => 0
                          end) w1
            else w1 in
  runtime w1 = runtime w /\ setup w1 = setup w
  /\ runtime w2 = runtime w /\ setup w2 = setup w
  /\ same_store w2 (saveCheckpoints w)
  /\ timer_table (saveCheckpoints w) = timer_table w
  /\ lastOutputTimes (saveCheckpoints w) = lastOutputTimes w
  /\ trackingState (saveCheckpoints w)
     = {| activeSessions :=
            map (checkpoint_entry now) (activeSessions (trackingState w));
          globalSessionStartTime :=
            if globalDue then Some now else globalSessionStartTime (trackingState w);
          globalLastActivityTime := globalLastActivityTime (trackingState w);
          globalIsIdle := globalIsIdle (trackingState w) |}.
Proof.
  cbv zeta.
  set (now := clock w).
  set (start := match globalSessionStartTime (trackingState w) with
                | Some s => s
                | None => 0
                end).
  set (entries := activeSessions (trackingState w)).
  destruct (cut_sessions_runtime now now now entries w) as (R1 & S1 & _).
  set (w1 := snd (cut_sessions now now now entries w)) in *.
  set (globalDue := global_running (trackingState w) && (now - start >? 1000)).
  set (w2 := if globalDue then saveGlobalSession start now (now - start) w1 else w1).
  assert (R2 : runtime w2 = runtime w /\ setup w2 = setup w).
  { unfold w2. destruct globalDue; [|now split].
    destruct (runtime_saveGlobalSession start now (now - start) w1) as [A B].
    split; congruence. }
  destruct R2 as [R2 S2].
  assert (E : saveCheckpoints w
              = if existsb (fun e => checkpoint_due now (snd e)) entries || globalDue
                then State_set_tracking
                       {| activeSessions :=
                            if existsb (fun e => checkpoint_due now (snd e)) entries
                            then map (checkpoint_entry now) entries
                            else activeSessions (trackingState w2);
                          globalSessionStartTime :=
                            if globalDue then Some now
                            else globalSessionStartTime (trackingState w2);
                          globalLastActivityTime := globalLastActivityTime (trackingState w2);
                          globalIsIdle := globalIsIdle (trackingState w2) |} w2
                else w2).
  { unfold saveCheckpoints. fold now. fold entries. fold start.
    rewrite (checkpoint_sessions_shape now now now entries w). fold w1.
    unfold w2, globalDue.
    destruct (global_running (trackingState w)); [|reflexivity].
    cbn [andb]. now destruct (now - start >? 1000). }
  pose proof (runtime_fields _ _ R2) as (T2 & F2 & F3 & F4 & F5 & _ & F7).
  split; [exact R1|]. split; [exact S1|]. split; [exact R2|]. split; [exact S2|].
  rewrite E.
  destruct (existsb (fun e => checkpoint_due now (snd e)) entries) eqn:Ep.
  - cbn [orb]. split; [apply same_store_tracking|].
    split; [unfold timer_table; cbn [timers next_timer idleTimers globalIdleTimer
                                      State_set_tracking with_trackingState];
            congruence|].
    split; [exact F5|].
    cbn [trackingState State_set_tracking with_trackingState]. now rewrite T2.
  - cbn [orb]. rewrite (checkpoint_entries_unchanged now entries Ep).
    destruct globalDue eqn:Eg.
    + split; [apply same_store_tracking|].
      split; [unfold timer_table; cbn [timers next_timer idleTimers globalIdleTimer
                                        State_set_tracking with_trackingState];
              congruence|].
      split; [exact F5|].
      cbn [trackingState State_set_tracking with_trackingState]. now rewrite T2.
    + split; [apply same_store_refl|].
      split; [unfold timer_table; congruence|].
      split; [exact F5|].
      rewrite T2. unfold entries. now destruct (trackingState w).
Qed.

End CheckpointFacts.


(* ================================================================== *)
(** * Shutdown *)
(* ================================================================== *)

Lemma clearInterval_all (l : list Interval) :
  clearInterval Checkpoint (clearInterval Heartbeat (clearInterval MidnightCheck l)) = [].
Proof.
  induction l as [|i l IH]; [reflexivity|].
  destruct i; simpl; exact IH.
Qed.

Lemma clear_idle_timers_fold (l : list nat) :
  forall w,
    let w' := fold_left (fun w' timer => clearTimeout (Some timer) w') l w in
    same_store w w'
    /\ trackingState w' = trackingState w
    /\ idleTimers w' = idleTimers w
    /\ globalIdleTimer w' = globalIdleTimer w
    /\ lastOutputTimes w' = lastOutputTimes w
    /\ forall e, In e (timers w') -> In e (timers w) /\ ~ In (fst e) l.
Proof.
  induction l as [|t l IH]; intros w; cbv zeta; simpl.
  - split; [apply same_store_refl|]. repeat split; tauto.
  - specialize (IH (clearTimeout (Some t) w)). cbv zeta in IH.
    destruct IH as (I1 & I2 & I3 & I4 & I5 & I6).
    split; [eapply same_store_trans; [apply same_store_clearTimeout|exact I1]|].
    split; [exact I2|]. split; [exact I3|]. split; [exact I4|]. split; [exact I5|].
    intros e He. destruct (I6 e He) as [J1 J2].
    pose proof (clearTimeout_removes t w e J1) as J3.
    split; [now apply (timers_clearTimeout (Some t) w)|].
    intros [E|E]; [congruence|contradiction].
Qed.

Lemma get_In_values {V} (k : string) (v : V) (m : list (string * V)) :
  JsMap.get k m = Some v -> In v (JsMap.values m).
Proof.
  intros H. apply JsMapFacts.get_In in H. unfold JsMap.values.
  apply in_map_iff. exists (k, v). now split.
Qed.

Section ShutdownFacts.
Context {P : Platform}.

Lemma save_running_fold now restart activity entries :
  forall w,
    fold_left (save_running now) entries w
    = snd (cut_sessions now restart activity entries w).
Proof.
  induction entries as [|entry rest IH]; intros w; [reflexivity|].
  cbn [fold_left cut_sessions].
  assert (E : save_running now w entry = snd (cut_session now restart activity entry w)).
  { unfold save_running, cut_session.
    destruct (session_running (snd entry)); [|reflexivity]. cbv zeta.
    now destruct (_ >? 1000). }
  rewrite E, IH.
  destruct (cut_session now restart activity entry w) as [entry' w1]. cbn [snd].
  now destruct (cut_sessions now restart activity rest w1).
Qed.

End ShutdownFacts.

(** X19.  Shutdown.  [saveAllActiveSessions] leaves the tracker as it was
    when the module was loaded: no interval, no global interval, no idle
    timer remembered, none of the three interval timers running; it asks
    for one immediate save when [saveProjectsImmediateRef] is set.  If every
    pending timer was one the module remembered, no timer is pending
    afterwards.  When sessions can be persisted, every interval that ran
    for more than one second (of a project, and the global one) is persisted
    as a session from its start to now. *)
Theorem saveAllActiveSessions_closes_everything :
  forall (P : Platform) (sh : Shell),
    let w := world sh in
    let now := clock w in
    let sh' := saveAllActiveSessions sh in
    let w' := world sh' in
    trackingState w' = initialTrackingState
    /\ idleTimers w' = []
    /\ intervals sh' = []
    /\ immediate_saves sh'
       = (if saveProjectsImmediateRef sh then S (immediate_saves sh)
          else immediate_saves sh)
    /\ (timers_ok w -> timers w' = [])
    /\ (can_persist w ->
        (forall projectId start,
           running_since projectId start w -> now - start > 1000 ->
           has_project projectId w ->
           exists s, covers s start now /\ recorded projectId s start w')
        /\ (forall start,
              global_running_since start w -> now - start > 1000 ->
              exists s, covers s start now /\ recorded_global s start w')).
Proof.
  intros P sh. cbv zeta. unfold saveAllActiveSessions. cbv zeta.
  cbn [world intervals immediate_saves].
  set (w := world sh).
  set (now := clock w).
  set (entries := activeSessions (trackingState w)).
  set (start0 := match globalSessionStartTime (trackingState w) with
                 | Some s => s
                 | None => 0
                 end).
  rewrite (save_running_fold now now now entries w).
  destruct (cut_sessions_runtime now now now entries w) as (R1 & S1 & _).
  set (w1 := snd (cut_sessions now now now entries w)) in *.
  set (w2 := if global_running (trackingState w)
             then if now - start0 >? 1000
                  then saveGlobalSession start0 now (now - start0) w1 else w1
             else w1).
  assert (R2 : runtime w2 = runtime w).
  { unfold w2. destruct (global_running (trackingState w)); [|exact R1].
    destruct (now - start0 >? 1000); [|exact R1].
    rewrite <- R1. apply runtime_saveGlobalSession. }
  pose proof (runtime_fields _ _ R2) as (T2 & F2 & F3 & F4 & F5 & _ & F7).
  pose proof (clear_idle_timers_fold (JsMap.values (idleTimers w2)) w2) as C.
  cbv zeta in C. fold (clear_idle_timers w2) in C.
  destruct C as (C1 & C2 & C3 & C4 & C5 & C6).
  set (w3 := clear_idle_timers w2) in *.
  set (w4 := with_idleTimers [] w3).
  set (w5 := clearTimeout (globalIdleTimer w4) w4).
  split; [reflexivity|].
  split.
  { cbn [idleTimers State_set_tracking with_trackingState]. unfold w5.
    now rewrite (proj1 (proj2 (clearTimeout_fields (globalIdleTimer w4) w4))). }
  split; [apply clearInterval_all|]. split; [reflexivity|].
  split.
  - intros (_ & _ & _ & _ & K5 & K6).
    cbn [timers State_set_tracking with_trackingState].
    destruct (timers w5) as [|e rest] eqn:Et; [reflexivity|exfalso].
    assert (He : In e (timers w5)) by (rewrite Et; now left).
    assert (He3 : In e (timers w3)).
    { apply (timers_clearTimeout (globalIdleTimer w4) w4) in He. exact He. }
    destruct (C6 e He3) as [He2 Hnot]. rewrite F2 in He2.
    destruct (callback (snd e)) as [projectId|] eqn:Ecb.
    + apply Hnot. rewrite F4. apply (get_In_values projectId). now apply K5.
    + pose proof (K6 e He2 Ecb) as Hg.
      assert (Hg4 : globalIdleTimer w4 = Some (fst e)).
      { unfold w4. cbn [globalIdleTimer with_idleTimers]. now rewrite C4, F7. }
      unfold w5 in He. rewrite Hg4 in He. apply clearTimeout_removes in He. congruence.
  - intros Hc.
    destruct (cut_sessions_store now now now entries w Hc) as [St1 Rec1].
    fold w1 in St1, Rec1.
    assert (St2 : store_step w1 w2
                  /\ forall start,
                       global_running_since start w -> now - start > 1000 ->
                       exists s, covers s start now /\ recorded_global s start w2).
    { unfold w2. destruct (global_running (trackingState w)) eqn:Run.
      - destruct (now - start0 >? 1000) eqn:Long.
        + destruct (saveGlobalSession_step start0 now (now - start0) w1 (proj1 St1))
            as (C' & L' & A' & _ & _ & Rec).
          split; [split; [exact C'|split; [exact L'|exact A']]|].
          intros start [E _] _. unfold start0 in *. rewrite E in *.
          eexists. split; [|exact Rec]. apply covers_newSession.
        + split; [exact (store_step_refl w1 (proj1 St1))|].
          intros start [E _] Hlong. exfalso. unfold start0 in Long. rewrite E in Long.
          rewrite Z.gtb_ltb in Long. apply Z.ltb_ge in Long. lia.
      - split; [exact (store_step_refl w1 (proj1 St1))|].
        intros start [_ Hrun]. congruence. }
    destruct St2 as [St2 Rec2].
    assert (Hsame : same_store w2
                      (State_set_tracking
                         {| activeSessions := [];
                            globalSessionStartTime := None;
                            globalLastActivityTime := None;
                            globalIsIdle := false |} w5)).
    { eapply same_store_trans; [exact C1|].
      eapply same_store_trans; [apply (same_store_idleTimers [] w3)|].
      eapply same_store_trans; [apply (same_store_clearTimeout (globalIdleTimer w4) w4)|].
      apply same_store_tracking. }
    pose proof (store_step_same_store _ _ Hsame (proj1 St2)) as St3.
    pose proof (store_step_trans _ _ _ St2 St3) as St13.
    split.
    + intros projectId start Hrun Hlong Hp.
      destruct (running_since_In projectId start w Hrun) as (session & Hin & _ & Hst & Hr).
      destruct (Rec1 projectId session start Hin Hr Hst Hlong Hp) as (s & Hcov & Hrec).
      exists s. split; [exact Hcov|].
      exact (recorded_step _ _ _ _ _ St13 (covers_json _ _ _ Hcov) Hrec).
    + intros start Hrun Hlong.
      destruct (Rec2 start Hrun Hlong) as (s & Hcov & Hrec).
      exists s. split; [exact Hcov|].
      exact (recorded_global_step _ _ _ _ St3 (covers_json _ _ _ Hcov) Hrec).
Qed.

(* ================================================================== *)
(** * The times shown for a project *)
(* ================================================================== *)

Section TimesFacts.
Context {P : Platform}.

Lemma projects_saveGlobalSession start finish d w :
  projects (projectsState (saveGlobalSession start finish d w))
  = projects (projectsState w)
  /\ projectsStateRef (saveGlobalSession start finish d w) = projectsStateRef w.
Proof.
  unfold saveGlobalSession.
  destruct (negb (projectsStateRef w) || negb (saveProjectsRef w)); [now split|].
  cbv zeta. unfold generateSessionId.
  destruct (isCurrentMonthSession start _).
  - split; reflexivity.
  - cbn [projects projectsState projectsStateRef saveProjects State_set_projects
         with_projectsState with_save_calls with_globalTimesCache].
    split; [reflexivity|].
    pose proof (runtime_appendToArchive (Some (getFullYear start)) (Some (getMonth start))
                  [newSession (session_id (clock w) (random w (random_pos w)))
                     start finish d] []
                  (with_random_pos (S (random_pos w)) w)) as [_ Hs].
    unfold setup in Hs. injection Hs as _ _ _ Hr _. exact Hr.
Qed.

Lemma projects_stopGlobalTimer w :
  projects (projectsState (stopGlobalTimer w)) = projects (projectsState w)
  /\ projectsStateRef (stopGlobalTimer w) = projectsStateRef w.
Proof.
  unfold stopGlobalTimer. cbv zeta.
  match goal with
  | |- context [clearTimeout (globalIdleTimer ?w1) ?w1] =>
      assert (H : projects (projectsState w1) = projects (projectsState w)
                  /\ projectsStateRef w1 = projectsStateRef w)
        by (destruct (global_running (trackingState w)); [|now split];
            destruct (_ >? 1000); [apply projects_saveGlobalSession|now split]);
      destruct (globalIdleTimer w1); exact H
  end.
Qed.

(** The first project with the id, after the map of [saveSession]. *)
Lemma find_saveSession_projects projectId today s start d ps :
  forall w p,
    find (fun q => String.eqb (p_id q) projectId) ps = Some p ->
    exists w0,
      find (fun q => String.eqb (p_id q) projectId)
           (fst (saveSession_projects projectId today s start d ps w))
      = Some (fst (saveSession_project projectId today s start d p w0)).
Proof.
  induction ps as [|q ps IH]; intros w p Hfind; [discriminate|].
  simpl in Hfind. simpl.
  destruct (saveSession_project projectId today s start d q w) as [q' w1] eqn:Eq.
  destruct (saveSession_projects projectId today s start d ps w1) as [rest' w2] eqn:Er.
  cbn [fst find].
  assert (Hid : p_id q' = p_id q).
  { pose proof (saveSession_project_rel projectId today s start d q w) as [H _].
    now rewrite Eq in H. }
  rewrite Hid.
  destruct (String.eqb (p_id q) projectId) eqn:E.
  - injection Hfind as <-. exists w. now rewrite Eq.
  - destruct (IH w1 p Hfind) as (w0 & Hw0). exists w0. now rewrite Er in Hw0.
Qed.

(** The projects of the dataset after [stopTracking] closed an interval of
    more than one second. *)
Lemma stopTracking_dataset projectId w start :
  initialised w = true ->
  running_since projectId start w -> clock w - start > 1000 ->
  projects (projectsState (stopTracking projectId w))
  = fst (saveSession_projects projectId (getTodayString w)
           (newSession (session_id (clock w) (random w (random_pos w)))
              start (clock w) (clock w - start))
           start (clock w - start) (projects (projectsState w))
           (with_random_pos (S (random_pos w)) w))
  /\ projectsStateRef (stopTracking projectId w) = true.
Proof.
  intros Hi (session & Hget & Hst & Hrun) Hlong.
  assert (Ht : truthy_time (sessionStartTime session) = true).
  { unfold session_running in Hrun. now apply andb_true_iff in Hrun. }
  assert (Href : projectsStateRef w = true).
  { unfold initialised in Hi. now apply andb_true_iff in Hi. }
  unfold stopTracking. rewrite Hget, Ht. cbn [negb].
  destruct session as [st la idle]. simpl in Hst. subst st. cbv zeta.
  assert (Hgt : (clock w - start >? 1000) = true) by (apply Z.gtb_lt; lia).
  rewrite Hgt.
  match goal with
  | |- context [if _ then stopGlobalTimer ?x else _] => set (w5 := x)
  end.
  assert (H5 : projects (projectsState w5)
               = projects (projectsState
                             (saveSession projectId start (clock w) (clock w - start) w))
               /\ projectsStateRef w5
                  = projectsStateRef
                      (saveSession projectId start (clock w) (clock w - start) w)).
  { unfold w5.
    destruct (JsMap.get projectId
                (idleTimers (saveSession projectId start (clock w) (clock w - start) w)));
      split; reflexivity. }
  destruct H5 as [H5 H5'].
  assert (Hs : projects (projectsState
                           (saveSession projectId start (clock w) (clock w - start) w))
               = fst (saveSession_projects projectId (getTodayString w)
                        (newSession (session_id (clock w) (random w (random_pos w)))
                           start (clock w) (clock w - start))
                        start (clock w - start) (projects (projectsState w))
                        (with_random_pos (S (random_pos w)) w))
               /\ projectsStateRef
                    (saveSession projectId start (clock w) (clock w - start) w) = true).
  { unfold saveSession. rewrite (initialised_guard w Hi). unfold generateSessionId.
    cbv zeta.
    pose proof (runtime_saveSession_projects projectId (getTodayString w)
                  (newSession (session_id (clock w) (random w (random_pos w)))
                     start (clock w) (clock w - start))
                  start (clock w - start)
                  (projects (projectsState (with_random_pos (S (random_pos w)) w)))
                  (with_random_pos (S (random_pos w)) w)) as [_ Hset].
    destruct (saveSession_projects _ _ _ _ _ _ _) as [projects_now w2].
    cbn [projects projectsState projectsStateRef saveProjects State_set_projects
         with_projectsState with_save_calls fst snd] in *.
    split; [reflexivity|].
    unfold setup in Hset. injection Hset as _ _ _ Hr _.
    cbn [projectsStateRef with_random_pos] in Hr. congruence. }
  destruct Hs as [Hs Hs'].
  destruct (Nat.eqb (getActiveNonIdleCount w5) 0).
  - destruct (projects_stopGlobalTimer w5) as [G1 G2]. rewrite G1, G2.
    split; congruence.
  - split; congruence.
Qed.

End TimesFacts.

(** X20.  [getProjectTimes] answers zero for both times when init has not
    run, when the dataset has no project with the id, and when the project
    has no time-tracking record. *)
Theorem getProjectTimes_without_a_record :
  forall (P : Platform) (projectId : string) (w : World),
    (projectsStateRef w = false -> getProjectTimes projectId w = (Num 0, Num 0))
    /\ (~ has_project projectId w -> getProjectTimes projectId w = (Num 0, Num 0))
    /\ (forall p, getProjectById projectId w = Some p -> timeTracking p = None ->
                  getProjectTimes projectId w = (Num 0, Num 0)).
Proof.
  intros P projectId w. split; [|split].
  - intros H. unfold getProjectTimes, getProjectById. now rewrite H.
  - intros H. unfold getProjectTimes, getProjectById.
    destruct (negb (projectsStateRef w)); [reflexivity|].
    destruct (find _ _) as [p|] eqn:E; [|reflexivity].
    exfalso. apply H. apply find_some in E. destruct E as [Hin Hid].
    exists p. split; [exact Hin|]. now apply String.eqb_eq.
  - intros p Hp Ht. unfold getProjectTimes. now rewrite Hp, Ht.
Qed.

(** X21.  The total that [getProjectTimes] shows for a running project is
    its stored [totalTime] plus the length of the running interval, and it
    is exactly the total shown once [stopTracking] has closed the interval
    (an interval of more than one second; init has run): stopping does not
    change the total on display. *)
Theorem getProjectTimes_total_survives_the_stop :
  forall (P : Platform) (projectId : string) (w : World) (p : Project)
         (tracking : ProjectTimeTracking) (total start : Z),
    initialised w = true ->
    getProjectById projectId w = Some p ->
    timeTracking p = Some tracking ->
    totalTime tracking = Some (Num total) ->
    running_since projectId start w ->
    clock w - start > 1000 ->
    snd (getProjectTimes projectId w) = Num (total + (clock w - start))
    /\ snd (getProjectTimes projectId (stopTracking projectId w))
       = Num (total + (clock w - start)).
Proof.
  intros P projectId w p tracking total start Hi Hp Ht Htotal Hrun Hlong.
  split.
  - destruct Hrun as (session & Hget & Hst & Hr).
    unfold getProjectTimes. rewrite Hp, Ht, Hget, Hr, Hst, Htotal. reflexivity.
  - destruct (stopTracking_dataset projectId w start Hi Hrun Hlong) as [Hd Href].
    assert (Hfind : find (fun q => String.eqb (p_id q) projectId)
                         (projects (projectsState w)) = Some p).
    { unfold getProjectById in Hp. destruct (negb (projectsStateRef w)); [discriminate|].
      exact Hp. }
    destruct (find_saveSession_projects projectId (getTodayString w)
                (newSession (session_id (clock w) (random w (random_pos w)))
                   start (clock w) (clock w - start))
                start (clock w - start) (projects (projectsState w))
                (with_random_pos (S (random_pos w)) w) p Hfind) as (w0 & Hfound).
    unfold getProjectTimes, getProjectById. rewrite Href, Hd, Hfound. cbn [negb].
    assert (Hid : String.eqb (p_id p) projectId = true).
    { apply find_some in Hfind. now destruct Hfind. }
    unfold saveSession_project. rewrite Hid. cbn [negb]. rewrite Ht.
    destruct (if isCurrentMonthSession start w0 then _ else _) as [sessions_now w3].
    cbn [fst timeTracking totalTime]. rewrite Htotal.
    assert (Hnone : JsMap.get projectId
                      (activeSessions (trackingState (stopTracking projectId w))) = None).
    { rewrite stopTracking_sessions. apply JsMapFacts.get_delete_eq. }
    rewrite Hnone. cbn [snd or_zero js_add]. f_equal. lia.
Qed.

Lemma getProjectTimes_total_survives_the_stop_witness :
  initialised (with_clock 1769900700000 (startTracking "proj-1"%string workedWorld))
  = true
  /\ running_since "proj-1" 1769900400000
       (with_clock 1769900700000 (startTracking "proj-1"%string workedWorld))
  /\ snd (@getProjectTimes utc "proj-1"%string
            (with_clock 1769900700000 (startTracking "proj-1"%string workedWorld)))
     = Num 7500000
  /\ snd (@getProjectTimes utc "proj-1"%string
            (@stopTracking utc "proj-1"%string
               (with_clock 1769900700000 (startTracking "proj-1"%string workedWorld))))
     = Num 7500000.
Proof.
  set (w := with_clock 1769900700000 (startTracking "proj-1"%string workedWorld)).
  assert (H1 : initialised w = true) by reflexivity.
  assert (H2 : getProjectById "proj-1"%string w = Some workedProject) by reflexivity.
  assert (H3 : running_since "proj-1" 1769900400000 w).
  { eexists. split; [vm_compute; reflexivity|]. split; reflexivity. }
  assert (H4 : clock w - 1769900400000 > 1000) by reflexivity.
  split; [exact H1|]. split; [exact H3|].
  exact (getProjectTimes_total_survives_the_stop utc "proj-1"%string w workedProject
           workedTracking 7200000 1769900400000 H1 H2 eq_refl eq_refl H3 H4).
Defined.

(* ================================================================== *)
(** * The boundary detectors and the idle projects *)
(* ================================================================== *)

Lemma filter_none {A} (f : A -> bool) (l : list A) :
  List.length (filter f l) = 0%nat -> forall a, In a l -> f a = false.
Proof.
  induction l as [|x l IH]; simpl; [tauto|].
  destruct (f x) eqn:E; [discriminate|].
  intros H a [<-|Ha]; [exact E|now apply IH].
Qed.

Lemma get_cut_entries restart activity projectId session
    (m : list (string * ActiveSession)) :
  JsMap.get projectId m = Some session -> session_running session = false ->
  JsMap.get projectId (map (cut_entry restart activity) m) = Some session.
Proof.
  intros Hget Hrun.
  rewrite (get_map_entries (cut_entry restart activity) projectId m
             (fst_cut_entry restart activity)).
  rewrite Hget. cbn [option_map]. unfold cut_entry. cbn [snd]. now rewrite Hrun.
Qed.

Section DetectorFacts.
Context {P : Platform}.

Lemma cut_sessions_idle boundary restart activity entries :
  forall w,
    (forall e, In e entries -> session_running (snd e) = false) ->
    cut_sessions boundary restart activity entries w = (entries, w).
Proof.
  induction entries as [|entry rest IH]; intros w Hidle; [reflexivity|].
  cbn [cut_sessions]. unfold cut_session.
  rewrite (Hidle entry) by now left.
  rewrite IH; [reflexivity|]. intros e He. apply Hidle. now right.
Qed.

Lemma boundary_cut_idle boundary restart activity w :
  getActiveNonIdleCount w = 0%nat -> global_running (trackingState w) = false ->
  boundary_cut boundary restart activity w
  = State_set_tracking
      (with_activeSessions (activeSessions (trackingState w)) (trackingState w)) w.
Proof.
  intros Hnone Hg. unfold boundary_cut, cut_global. rewrite Hg.
  rewrite cut_sessions_idle; [reflexivity|].
  intros e He. now apply (filter_none (fun e => session_running (snd e)) _ Hnone).
Qed.

Lemma boundary_cut_keeps_idle boundary restart activity w projectId session :
  JsMap.get projectId (activeSessions (trackingState w)) = Some session ->
  session_running session = false ->
  JsMap.get projectId
    (activeSessions (trackingState (boundary_cut boundary restart activity w)))
  = Some session.
Proof.
  intros Hget Hrun.
  destruct (boundary_cut_runtime boundary restart activity w) as (_ & _ & _ & E & _).
  rewrite E. now apply get_cut_entries.
Qed.

End DetectorFacts.

(** X22.  The boundary detectors and the checkpoint leave idle projects
    alone: an entry of the table that is not running (idle, or without a
    start time) is the same after [checkSleepWake], [checkMidnightReset] and
    [saveCheckpoints].  When no project runs and the global interval does
    not run either, the sleep/wake check, the midnight split and the
    checkpoint persist nothing. *)
Theorem detectors_leave_idle_projects_alone :
  forall (P : Platform) (w : World),
    (forall projectId session,
       JsMap.get projectId (activeSessions (trackingState w)) = Some session ->
       session_running session = false ->
       JsMap.get projectId (activeSessions (trackingState (checkSleepWake w)))
       = Some session
       /\ JsMap.get projectId (activeSessions (trackingState (checkMidnightReset w)))
          = Some session
       /\ JsMap.get projectId (activeSessions (trackingState (saveCheckpoints w)))
          = Some session)
    /\ (getActiveNonIdleCount w = 0%nat -> global_running (trackingState w) = false ->
        persisted (checkSleepWake w) = persisted w
        /\ persisted (splitSessionsAtMidnight w) = persisted w
        /\ persisted (saveCheckpoints w) = persisted w).
Proof.
  intros P w. split.
  - intros projectId session Hget Hrun. split; [|split].
    + unfold checkSleepWake. cbv zeta.
      destruct (_ >? SLEEP_GAP_THRESHOLD); [|exact Hget].
      rewrite handleSleepWake_cut. now apply boundary_cut_keeps_idle.
    + unfold checkMidnightReset. cbv zeta.
      destruct (truthy_string (lastKnownDate w)
                && string_neq (lastKnownDate w) (getTodayString w)); [|exact Hget].
      assert (Hsplit : JsMap.get projectId
                         (activeSessions
                            (trackingState
                               (splitSessionsAtMidnight
                                  (with_globalTimesCache None
                                     (with_lastKnownDate (Some (getTodayString w)) w)))))
                       = Some session).
      { rewrite splitSessionsAtMidnight_cut. now apply boundary_cut_keeps_idle. }
      destruct (_ || _); [|exact Hsplit].
      pose proof (runtime_archivePastMonthSessions
                    (splitSessionsAtMidnight
                       (with_globalTimesCache None
                          (with_lastKnownDate (Some (getTodayString w)) w)))) as R.
      apply runtime_fields in R. destruct R as (R & _). now rewrite R.
    + pose proof (saveCheckpoints_steps w) as H. cbv zeta in H.
      destruct H as (_ & _ & _ & _ & _ & _ & _ & Htrack). rewrite Htrack.
      cbn [activeSessions].
      rewrite (get_map_entries (checkpoint_entry (clock w)) projectId _
                 (fst_checkpoint_entry (clock w))).
      rewrite Hget. cbn [option_map]. unfold checkpoint_entry, checkpoint_due.
      cbn [snd]. now rewrite Hrun.
  - intros Hnone Hg. split; [|split].
    + unfold checkSleepWake. cbv zeta.
      destruct (_ >? SLEEP_GAP_THRESHOLD); [|reflexivity].
      rewrite handleSleepWake_cut, boundary_cut_idle; [reflexivity|exact Hnone|exact Hg].
    + rewrite splitSessionsAtMidnight_cut, boundary_cut_idle;
        [reflexivity|exact Hnone|exact Hg].
    + pose proof (saveCheckpoints_steps w) as H. cbv zeta in H.
      destruct H as (_ & _ & _ & _ & Hsame & _).
      rewrite cut_sessions_idle in Hsame.
      * cbn [snd] in Hsame. rewrite Hg in Hsame. cbn [andb] in Hsame.
        now destruct Hsame as (Hp & _).
      * intros e He.
        now apply (filter_none (fun e => session_running (snd e)) _ Hnone).
Qed.

(* ================================================================== *)
(** * The archival pass *)
(* ================================================================== *)

Lemma set_not_nil {V} (k : string) (v : V) (m : list (string * V)) : JsMap.set k v m <> [].
Proof. destruct m as [|[k' v'] m]; simpl; [discriminate|]. now destruct (String.eqb k k'). Qed.

Section ArchivalFacts.
Context {P : Platform}.

Lemma partition_global_fold w l :
  forall acc,
    fst (fold_left (partition_global w) l acc) = fst acc ++ filter (session_is_current w) l
    /\ (snd (fold_left (partition_global w) l acc) = [] ->
        snd acc = [] /\ filter (session_is_current w) l = l)
    /\ ((forall s, In s l -> session_is_current w s = true) ->
        snd (fold_left (partition_global w) l acc) = snd acc).
Proof.
  induction l as [|s l IH]; intros acc; cbn [fold_left filter].
  - rewrite app_nil_r. repeat split; auto.
  - destruct (IH (partition_global w acc s)) as (I1 & I2 & I3).
    unfold partition_global in *. fold (session_is_current w s) in *.
    destruct (session_is_current w s) eqn:E; cbn [fst snd] in *.
    + split; [rewrite I1, <- app_assoc; reflexivity|]. split.
      * intros H. destruct (I2 H) as [J1 J2]. split; [exact J1|now rewrite J2].
      * intros Hall. apply I3. intros x Hx. apply Hall. now right.
    + split; [exact I1|]. split.
      * intros H. destruct (I2 H) as [J1 _]. exfalso. now apply set_not_nil in J1.
      * intros Hall. specialize (Hall s (or_introl eq_refl)). congruence.
Qed.

Lemma partition_project_fold w p l :
  forall acc,
    fst (fold_left (partition_project w p) l acc)
    = fst acc ++ filter (session_is_current w) l
    /\ ((forall s, In s l -> session_is_current w s = true) ->
        snd (fold_left (partition_project w p) l acc) = snd acc).
Proof.
  induction l as [|s l IH]; intros acc; cbn [fold_left filter].
  - rewrite app_nil_r. split; auto.
  - destruct (IH (partition_project w p acc s)) as (I1 & I3).
    unfold partition_project in *. fold (session_is_current w s) in *.
    destruct (session_is_current w s) eqn:E; cbn [fst snd] in *.
    + split; [rewrite I1, <- app_assoc; reflexivity|].
      intros Hall. apply I3. intros x Hx. apply Hall. now right.
    + split; [exact I1|].
      intros Hall. specialize (Hall s (or_introl eq_refl)). congruence.
Qed.

(** One step of the map over the projects. *)
Lemma archive_project_step w done past changes p :
  exists past' changes',
    archive_project w (done, past, changes) p
    = (done ++ [current_only w p], past', changes')
    /\ (changes' = false -> changes = false /\ current_only w p = p)
    /\ ((forall s, In s (sessions_of_project p) -> session_is_current w s = true) ->
        past' = past /\ changes' = changes).
Proof.
  unfold archive_project, current_only, sessions_of_project.
  destruct p as [pid name [tracking|]]; cbn [timeTracking p_id p_name];
    [|exists past, changes; repeat split; auto].
  destruct tracking as [total today lastActive [[|s l]|]];
    cbn [sessions totalTime todayTime lastActiveDate or_empty];
    try (exists past, changes; repeat split; auto; fail).
  destruct (partition_project_fold w
              {| p_id := pid; p_name := name;
                 timeTracking := Some {| totalTime := total; todayTime := today;
                                         lastActiveDate := lastActive;
                                         sessions := Some (s :: l) |} |}
              (s :: l) ([], past)) as [F1 F2].
  destruct (fold_left _ (s :: l) ([], past)) as [currentMonthSessions past'].
  cbn [fst snd app] in F1, F2. subst currentMonthSessions.
  destruct (Nat.eqb (List.length (filter (session_is_current w) (s :: l)))
                    (List.length (s :: l))) eqn:El; cbn [negb].
  - apply Nat.eqb_eq, filter_same_length in El.
    exists past', changes. rewrite El. split; [reflexivity|].
    split; [intros ->; now split|].
    intros Hall. split; [now apply F2|reflexivity].
  - exists past', true. split; [reflexivity|]. split; [discriminate|].
    intros Hall. exfalso. apply Nat.eqb_neq in El. apply El.
    f_equal. clear El F2.
    assert (Hf : forall l0 : list Session,
               (forall x, In x l0 -> session_is_current w x = true) ->
               filter (session_is_current w) l0 = l0).
    { induction l0 as [|x l0 IH]; simpl; [reflexivity|]. intros H.
      rewrite (H x) by now left. f_equal. apply IH. intros y Hy. apply H. now right. }
    now apply Hf.
Qed.

Lemma archive_projects_fold w ps :
  forall done past changes,
    exists past' changes',
      fold_left (archive_project w) ps (done, past, changes)
      = (done ++ map (current_only w) ps, past', changes')
      /\ (changes' = false -> changes = false /\ map (current_only w) ps = ps)
      /\ ((forall p s, In p ps -> In s (sessions_of_project p) ->
                       session_is_current w s = true) ->
          past' = past /\ changes' = changes).
Proof.
  induction ps as [|p ps IH]; intros done past changes; cbn [fold_left map].
  - exists past, changes. rewrite app_nil_r. repeat split; auto.
  - destruct (archive_project_step w done past changes p) as (past1 & ch1 & E1 & N1 & A1).
    rewrite E1.
    destruct (IH (done ++ [current_only w p]) past1 ch1) as (past2 & ch2 & E2 & N2 & A2).
    exists past2, ch2. rewrite E2, <- app_assoc. split; [reflexivity|]. split.
    + intros H. destruct (N2 H) as [H1 H2]. destruct (N1 H1) as [H3 H4].
      split; [exact H3|]. now rewrite H4, H2.
    + intros Hall.
      destruct (A1 (fun s Hs => Hall p s (or_introl eq_refl) Hs)) as [-> ->].
      apply A2. intros q s Hq. apply Hall. now right.
Qed.

Lemma fold_append_ledger {X} (f : World -> X -> World) :
  (forall w e, ledger (f w e) = ledger w) ->
  forall l w, ledger (fold_left f l w) = ledger w.
Proof.
  intros Hf. induction l as [|e l IH]; intros w; simpl; [reflexivity|].
  now rewrite IH, Hf.
Qed.

(** The live dataset after the archival pass. *)
Lemma archivePastMonthSessions_dataset w :
  initialised w = true ->
  projects (projectsState (archivePastMonthSessions w))
  = map (current_only w) (projects (projectsState w))
  /\ globalTimeTracking (projectsState (archivePastMonthSessions w))
     = option_map (current_only_global w) (globalTimeTracking (projectsState w)).
Proof.
  intros Hi. unfold archivePastMonthSessions. rewrite (initialised_guard w Hi). cbv zeta.
  assert (Hg : forall l w0,
             projectsState
               (fold_left
                  (fun w' (entry : string * list Session) =>
                     let (year, month) := parse_month_key (fst entry) in
                     appendToArchive year month (snd entry) [] w') l w0)
             = projectsState w0).
  { intros l w0.
    assert (L : ledger (fold_left
                          (fun w' (entry : string * list Session) =>
                             let (year, month) := parse_month_key (fst entry) in
                             appendToArchive year month (snd entry) [] w') l w0)
                = ledger w0).
    { apply fold_append_ledger. intros w1 e. destruct (parse_month_key (fst e)).
      apply ledger_appendToArchive. }
    unfold ledger in L. congruence. }
  assert (Hp : forall l w0,
             projectsState
               (fold_left
                  (fun w' (entry : string * list (string * ProjectArchive)) =>
                     let (year, month) := parse_month_key (fst entry) in
                     appendToArchive year month [] (snd entry) w') l w0)
             = projectsState w0).
  { intros l w0.
    assert (L : ledger (fold_left
                          (fun w' (entry : string * list (string * ProjectArchive)) =>
                             let (year, month) := parse_month_key (fst entry) in
                             appendToArchive year month [] (snd entry) w') l w0)
                = ledger w0).
    { apply fold_append_ledger. intros w1 e. destruct (parse_month_key (fst e)).
      apply ledger_appendToArchive. }
    unfold ledger in L. congruence. }
  assert (Hfinal : forall (updated : option GlobalTimeTracking) (changes : bool) w1
                          projects_now pastProjectsByMonth hasChanges',
             projectsState w1 = projectsState w ->
             updated = option_map (current_only_global w)
                         (globalTimeTracking (projectsState w)) ->
             (changes = false -> updated = globalTimeTracking (projectsState w)) ->
             fold_left (archive_project w) (projects (projectsState w))
                       ([], [], changes)
             = (projects_now, pastProjectsByMonth, hasChanges') ->
             forall w',
               w' = (if hasChanges'
                     then saveProjects
                            (State_set_projects
                               {| projects := projects_now;
                                  globalTimeTracking := updated |}
                               (fold_left
                                  (fun w' (entry : string * list (string * ProjectArchive)) =>
                                     let (year, month) := parse_month_key (fst entry) in
                                     appendToArchive year month [] (snd entry) w')
                                  pastProjectsByMonth w1))
                     else fold_left
                            (fun w' (entry : string * list (string * ProjectArchive)) =>
                               let (year, month) := parse_month_key (fst entry) in
                               appendToArchive year month [] (snd entry) w')
                            pastProjectsByMonth w1) ->
               projects (projectsState w')
               = map (current_only w) (projects (projectsState w))
               /\ globalTimeTracking (projectsState w')
                  = option_map (current_only_global w)
                      (globalTimeTracking (projectsState w))).
  { intros updated changes w1 pn pp ch' H1 Hu Hsame Hfold w' ->.
    destruct (archive_projects_fold w (projects (projectsState w)) [] [] changes)
      as (past' & ch2 & E & N & _).
    rewrite E in Hfold. cbn [app] in Hfold. injection Hfold as <- <- <-.
    destruct ch2.
    - cbn [projects globalTimeTracking projectsState saveProjects State_set_projects
           with_projectsState with_save_calls]. now split.
    - destruct (N eq_refl) as [Hc Hm]. rewrite Hp, H1, Hm.
      split; [reflexivity|]. rewrite <- Hu. symmetry. now apply Hsame. }
  destruct (globalTimeTracking (projectsState w)) as [g|] eqn:Eg.
  - destruct (g_sessions g) as [[|s l]|] eqn:Es.
    + destruct (fold_left (archive_project w) (projects (projectsState w))
                  ([], [], false)) as [[pn pp] ch'] eqn:E.
      apply (Hfinal (Some g) false w pn pp ch' eq_refl); [| |exact E|reflexivity].
      * cbn [option_map]. unfold current_only_global. now rewrite Es.
      * reflexivity.
    + destruct (partition_global_fold w (s :: l) ([], [])) as (F1 & F2 & _).
      destruct (fold_left (partition_global w) (s :: l) ([], []))
        as [currentMonthGlobal pastByMonth].
      cbn [fst snd app] in F1, F2. subst currentMonthGlobal.
      destruct pastByMonth as [|e rest]; cbn [fst snd].
      * destruct (fold_left (archive_project w) (projects (projectsState w))
                    ([], [], false)) as [[pn pp] ch'] eqn:E.
        apply (Hfinal (Some g) false w pn pp ch' eq_refl); [| |exact E|reflexivity].
        -- cbn [option_map]. unfold current_only_global. rewrite Es.
           destruct (F2 eq_refl) as [_ ->]. f_equal. destruct g. cbn in Es. now subst.
        -- reflexivity.
      * destruct (fold_left (archive_project w) (projects (projectsState w))
                    ([], [], true)) as [[pn pp] ch'] eqn:E.
        eapply (Hfinal _ true _ pn pp ch'); [apply Hg| |discriminate|exact E|reflexivity].
        cbn [option_map]. unfold current_only_global. now rewrite Es.
    + destruct (fold_left (archive_project w) (projects (projectsState w))
                  ([], [], false)) as [[pn pp] ch'] eqn:E.
      apply (Hfinal (Some g) false w pn pp ch' eq_refl); [| |exact E|reflexivity].
      * cbn [option_map]. unfold current_only_global. now rewrite Es.
      * reflexivity.
  - destruct (fold_left (archive_project w) (projects (projectsState w))
                ([], [], false)) as [[pn pp] ch'] eqn:E.
    apply (Hfinal None false w pn pp ch' eq_refl); [reflexivity|reflexivity|exact E|].
    reflexivity.
Qed.

End ArchivalFacts.


(** Nothing to archive: the pass returns the world it was given. *)
Lemma archivePastMonthSessions_all_current {P : Platform} (w : World) :
  (forall s, In s (sessions_of_global (projectsState w)) ->
             in_current_month (session_date s) w = true) ->
  (forall p s, In p (projects (projectsState w)) -> In s (sessions_of_project p) ->
               in_current_month (session_date s) w = true) ->
  archivePastMonthSessions w = w.
Proof.
  intros Hglobal Hprojects. unfold archivePastMonthSessions.
  destruct (negb (projectsStateRef w) || negb (saveProjectsRef w)); [reflexivity|].
  cbv zeta.
  destruct (archive_projects_fold w (projects (projectsState w)) [] [] false)
    as (past' & ch' & E & _ & A).
  destruct (A Hprojects) as [-> ->].
  unfold sessions_of_global in Hglobal.
  destruct (globalTimeTracking (projectsState w)) as [g|].
  - destruct (g_sessions g) as [[|s l]|].
    + now rewrite E.
    + destruct (partition_global_fold w (s :: l) ([], [])) as (_ & _ & F3).
      specialize (F3 Hglobal).
      destruct (fold_left (partition_global w) (s :: l) ([], []))
        as [currentMonthGlobal pastByMonth].
      cbn [snd] in F3. subst pastByMonth. cbn [fst snd fold_left]. now rewrite E.
    + now rewrite E.
  - now rewrite E.
Qed.

Lemma current_only_global_In {P : Platform} (w : World) g s :
  In s (or_empty (g_sessions (current_only_global w g))) ->
  in_current_month (session_date s) w = true.
Proof.
  unfold current_only_global.
  destruct (g_sessions g) as [[|x l]|] eqn:Es; rewrite ?Es; cbn [g_sessions or_empty];
    try (now intros []).
  intros H. apply filter_In in H. exact (proj2 H).
Qed.

Lemma current_only_In {P : Platform} (w : World) p s :
  In s (sessions_of_project (current_only w p)) ->
  in_current_month (session_date s) w = true.
Proof.
  unfold current_only, sessions_of_project.
  destruct (timeTracking p) as [t|] eqn:Et; rewrite ?Et; [|now intros []].
  destruct (sessions t) as [[|x l]|] eqn:Es; rewrite ?Et, ?Es;
    cbn [timeTracking sessions or_empty]; try (now intros []).
  intros H. apply filter_In in H. exact (proj2 H).
Qed.





(** ** The archival pass and the disk *)

Section ArchivalDisk.
Context {P : Platform}.



(** A property of the world that every append to an archive and the final
    save keep is kept by the archival pass. *)
Lemma archivePastMonthSessions_keeps (Q : World -> Prop) (w : World) :
  Q w ->
  (forall year month globals projectSessionsMap w',
     Q w' -> Q (appendToArchive year month globals projectSessionsMap w')) ->
  (forall s w', Q w' -> Q (saveProjects (State_set_projects s w'))) ->
  Q (archivePastMonthSessions w).
Proof.
  intros H0 Happend Hsave. unfold archivePastMonthSessions.
  destruct (negb (projectsStateRef w) || negb (saveProjectsRef w)); [exact H0|].
  cbv zeta.
  assert (Hg : forall l w0,
             Q w0 ->
             Q (fold_left
                  (fun w' (entry : string * list Session) =>
                     let (year, month) := parse_month_key (fst entry) in
                     appendToArchive year month (snd entry) [] w') l w0)).
  { induction l as [|e l IH]; intros w0 Hw0; cbn [fold_left]; [exact Hw0|].
    apply IH. destruct (parse_month_key (fst e)). now apply Happend. }
  assert (Hp : forall l w0,
             Q w0 ->
             Q (fold_left
                  (fun w' (entry : string * list (string * ProjectArchive)) =>
                     let (year, month) := parse_month_key (fst entry) in
                     appendToArchive year month [] (snd entry) w') l w0)).
  { induction l as [|e l IH]; intros w0 Hw0; cbn [fold_left]; [exact Hw0|].
    apply IH. destruct (parse_month_key (fst e)). now apply Happend. }
  assert (Hfinal : forall (updated : option GlobalTimeTracking) (changes : bool) w1,
             Q w1 ->
             Q (let '(projects_now, pastProjectsByMonth, hasChanges') :=
                  fold_left (archive_project w) (projects (projectsState w))
                            ([], [], changes) in
                if hasChanges'
                then saveProjects
                       (State_set_projects
                          {| projects := projects_now;
                             globalTimeTracking := updated |}
                          (fold_left
                             (fun w' (entry : string * list (string * ProjectArchive)) =>
                                let (year, month) := parse_month_key (fst entry) in
                                appendToArchive year month [] (snd entry) w')
                             pastProjectsByMonth w1))
                else fold_left
                       (fun w' (entry : string * list (string * ProjectArchive)) =>
                          let (year, month) := parse_month_key (fst entry) in
                          appendToArchive year month [] (snd entry) w')
                       pastProjectsByMonth w1)).
  { intros updated changes w1 H1.
    destruct (fold_left (archive_project w) (projects (projectsState w))
                ([], [], changes)) as [[pn pp] ch'].
    destruct ch'; [apply Hsave|]; now apply Hp. }
  destruct (globalTimeTracking (projectsState w)) as [g|].
  - destruct (g_sessions g) as [[|s l]|].
    + now apply Hfinal.
    + destruct (fold_left (partition_global w) (s :: l) ([], []))
        as [currentMonthGlobal pastByMonth].
      cbn [fst snd]. apply Hfinal. now apply Hg.
    + now apply Hfinal.
  - now apply Hfinal.
Qed.

Lemma setup_archivePastMonthSessions w :
  setup (archivePastMonthSessions w) = setup w.
Proof.
  apply (archivePastMonthSessions_keeps (fun w' => setup w' = setup w)).
  - reflexivity.
  - intros year month globals projectSessionsMap w' H.
    now rewrite (proj2 (runtime_appendToArchive year month globals projectSessionsMap w')).
  - intros s w' H. exact H.
Qed.

Lemma in_current_month_setup d w w' :
  setup w' = setup w -> in_current_month d w' = in_current_month d w.
Proof.
  intros H. unfold in_current_month.
  assert (E : clock w' = clock w) by (unfold setup in H; congruence).
  now rewrite E.
Qed.

End ArchivalDisk.



(** X28.  Running [archivePastMonthSessions] a second time changes nothing:
    the first pass leaves only sessions of the current month, so the second
    finds nothing to archive, writes no file and requests no save. *)
Theorem archival_twice_is_once :
  forall (P : Platform) (w : World),
    archivePastMonthSessions (archivePastMonthSessions w) = archivePastMonthSessions w.
Proof.
  intros P w. destruct (initialised w) eqn:Hi.
  - pose proof (setup_archivePastMonthSessions w) as Hs.
    destruct (archivePastMonthSessions_dataset w Hi) as [Hp Hg].
    apply archivePastMonthSessions_all_current.
    + intros s. rewrite (in_current_month_setup _ _ _ Hs).
      unfold sessions_of_global. rewrite Hg.
      destruct (globalTimeTracking (projectsState w)) as [g|]; [|now intros []].
      apply current_only_global_In.
    + intros p s. rewrite (in_current_month_setup _ _ _ Hs). rewrite Hp.
      intros Hin. apply in_map_iff in Hin. destruct Hin as (q & <- & _).
      apply current_only_In.
  - assert (E : archivePastMonthSessions w = w).
    { unfold archivePastMonthSessions. unfold initialised in Hi.
      destruct (projectsStateRef w), (saveProjectsRef w); try discriminate; reflexivity. }
    now rewrite !E.
Qed.

(** ** The key of a month, written and read back *)

Lemma string_append_nil_r (s : string) : (s ++ "")%string = s.
Proof. induction s as [|c s IH]; cbn; [reflexivity|now rewrite IH]. Qed.

Lemma split_dash_aux_no_dash (a rest piece : string) :
  no_dash a = true ->
  split_dash_aux (a ++ rest) piece = split_dash_aux rest (piece ++ a).
Proof.
  revert piece. induction a as [|c a IH]; intros piece H; cbn [String.append].
  - now rewrite string_append_nil_r.
  - cbn [no_dash] in H. apply andb_prop in H. destruct H as [Hc Ha].
    cbn [split_dash_aux]. apply negb_true_iff in Hc. rewrite Hc.
    rewrite (IH _ Ha), string_append_assoc. reflexivity.
Qed.

Lemma no_dash_string_of_uint (d : Decimal.uint) :
  no_dash (NilEmpty.string_of_uint d) = true.
Proof. induction d; cbn; auto. Qed.

Lemma string_of_Z_nonneg (z : Z) :
  0 <= z ->
  exists u, string_of_Z z = NilEmpty.string_of_uint u /\ Z.of_uint u = z.
Proof.
  intros Hz. destruct z as [|p|p]; [| |lia].
  - exists (Decimal.D0 Decimal.Nil). split; reflexivity.
  - exists (Pos.to_uint p). split.
    + unfold string_of_Z. cbn [Z.to_int NilZero.string_of_int].
      unfold NilZero.string_of_uint.
      destruct (Pos.to_uint p) eqn:E; try reflexivity.
      exfalso. exact (DecimalPos.Unsigned.to_uint_nonnil p E).
    + unfold Z.of_uint. now rewrite DecimalPos.Unsigned.of_to.
Qed.

Lemma parse_month_key_written (year month : Z) :
  0 <= year -> 0 <= month ->
  parse_month_key (string_of_Z year ++ "-" ++ string_of_Z month)
  = (Some year, Some month).
Proof.
  intros Hy Hm.
  destruct (string_of_Z_nonneg year Hy) as (u & -> & Eu).
  destruct (string_of_Z_nonneg month Hm) as (v & -> & Ev).
  unfold parse_month_key, split_dash.
  rewrite split_dash_aux_no_dash by apply no_dash_string_of_uint.
  cbn [String.append split_dash_aux Ascii.eqb Bool.eqb].
  rewrite <- (string_append_nil_r (NilEmpty.string_of_uint v)) at 1.
  rewrite split_dash_aux_no_dash by apply no_dash_string_of_uint.
  cbn [String.append split_dash_aux]. unfold js_Number.
  rewrite !NilEmpty.usu. now rewrite Eu, Ev.
Qed.

Section ArchivalFiles.
Context {P : Platform}.

Lemma parse_month_key_of (d : Z) :
  0 <= getFullYear d -> 0 <= getMonth d ->
  parse_month_key (month_key_of (Some d)) = (Some (getFullYear d), Some (getMonth d)).
Proof. intros Hy Hm. now apply parse_month_key_written. Qed.

(** ** What the partition files under a month *)

Lemma push_past_same key s past :
  exists l, JsMap.get key (push_past key s past) = Some l /\ In s l.
Proof.
  unfold push_past. eexists. split; [apply JsMapFacts.get_set_eq|].
  apply in_or_app. right. now left.
Qed.

Lemma push_past_keeps key key' s past l :
  JsMap.get key past = Some l ->
  exists l', JsMap.get key (push_past key' s past) = Some l' /\ incl l l'.
Proof.
  intros H. unfold push_past. destruct (String.eqb key' key) eqn:E.
  - apply String.eqb_eq in E. subst key'. rewrite H. eexists.
    split; [apply JsMapFacts.get_set_eq|]. now apply incl_appl, incl_refl.
  - apply String.eqb_neq in E. exists l. split; [|apply incl_refl].
    rewrite JsMapFacts.get_set_ne by exact E. exact H.
Qed.

Lemma partition_global_keeps w l :
  forall acc key ss,
    JsMap.get key (snd acc) = Some ss ->
    exists ss', JsMap.get key (snd (fold_left (partition_global w) l acc)) = Some ss'
                /\ incl ss ss'.
Proof.
  induction l as [|x l IH]; intros acc key ss H; cbn [fold_left].
  - exists ss. split; [exact H|apply incl_refl].
  - assert (H1 : exists ss1, JsMap.get key (snd (partition_global w acc x)) = Some ss1
                             /\ incl ss ss1).
    { unfold partition_global. destruct (in_current_month _ w); cbn [snd].
      - exists ss. split; [exact H|apply incl_refl].
      - now apply push_past_keeps. }
    destruct H1 as (ss1 & G1 & I1).
    destruct (IH _ key ss1 G1) as (ss2 & G2 & I2).
    exists ss2. split; [exact G2|]. eapply incl_tran; eassumption.
Qed.

Lemma partition_global_files w l :
  forall acc s,
    In s l -> in_current_month (session_date s) w = false ->
    exists ss,
      JsMap.get (month_key_of (session_date s))
                (snd (fold_left (partition_global w) l acc)) = Some ss
      /\ In s ss.
Proof.
  induction l as [|x l IH]; intros acc s Hin Hpast; [destruct Hin|].
  cbn [fold_left]. destruct Hin as [->|Hin].
  - assert (H1 : exists ss1,
               JsMap.get (month_key_of (session_date s))
                         (snd (partition_global w acc s)) = Some ss1 /\ In s ss1).
    { unfold partition_global. rewrite Hpast. cbn [snd]. apply push_past_same. }
    destruct H1 as (ss1 & G1 & I1).
    destruct (partition_global_keeps w l _ _ ss1 G1) as (ss2 & G2 & I2).
    exists ss2. split; [exact G2|]. now apply I2.
  - now apply IH.
Qed.

(** ** What the appends leave on disk *)

Lemma storage_writable_appendToArchive year month globals projectSessionsMap w :
  storage_writable w ->
  storage_writable (appendToArchive year month globals projectSessionsMap w).
Proof.
  intros H path. unfold appendToArchive.
  change (disk (invalidateArchiveCache year month ?x)) with (disk x).
  rewrite unwritable_writeArchive. apply H.
Qed.

(** An archived id stays archived, whatever the disk lets through. *)
Lemma appendToArchive_keeps_global_id year month y' m' globals projectSessionsMap w i :
  In i (ids (stored_global (stored_archive year month w))) ->
  In i (ids (stored_global
               (stored_archive year month
                  (appendToArchive y' m' globals projectSessionsMap w)))).
Proof.
  intros Hin.
  destruct (appendToArchive_keeps year month y' m' globals projectSessionsMap w)
    as [E|[Esame E]]; rewrite E; [exact Hin|].
  rewrite Esame in Hin. unfold stored_global.
  rewrite globalSessions_json, ids_json, merged_archive_global.
  rewrite <- base_archive_global in Hin.
  unfold ids in *. apply in_map_iff in Hin. destruct Hin as (s & <- & Hs).
  apply in_map. now apply push_new_incl.
Qed.

Lemma appendToArchive_keeps_project_id year month y' m' globals projectSessionsMap w
    projectId i :
  In i (ids (stored_project projectId (stored_archive year month w))) ->
  In i (ids (stored_project projectId
               (stored_archive year month
                  (appendToArchive y' m' globals projectSessionsMap w)))).
Proof.
  intros Hin.
  destruct (appendToArchive_keeps year month y' m' globals projectSessionsMap w)
    as [E|[Esame E]]; rewrite E; [exact Hin|].
  rewrite Esame in Hin. rewrite stored_project_json, ids_json.
  unfold stored_project. rewrite merged_archive_projects.
  rewrite <- base_archive_project in Hin. unfold sessions_under in *.
  destruct (JsMap.get projectId (projectSessions (base_archive y' m' w)))
    as [e|] eqn:G; [|destruct Hin].
  destruct (fold_merge_grows projectSessionsMap _ _ _ G) as (e' & G' & I').
  rewrite G'. unfold ids in *. apply in_map_iff in Hin. destruct Hin as (s & <- & Hs).
  apply in_map. now apply I'.
Qed.

End ArchivalFiles.

Section ArchivalFold.
Context {P : Platform}.

(** ** The appends of the archival pass *)

Lemma append_global_keeps_id year month i l :
  forall w,
    In i (ids (stored_global (stored_archive year month w))) ->
    In i (ids (stored_global (stored_archive year month (fold_left append_global l w)))).
Proof.
  induction l as [|e l IH]; intros w H; cbn [fold_left]; [exact H|].
  apply IH. unfold append_global. destruct (parse_month_key (fst e)).
  now apply appendToArchive_keeps_global_id.
Qed.

Lemma append_projects_keeps_id year month projectId i l :
  forall w,
    In i (ids (stored_project projectId (stored_archive year month w))) ->
    In i (ids (stored_project projectId
                 (stored_archive year month (fold_left append_projects l w)))).
Proof.
  induction l as [|e l IH]; intros w H; cbn [fold_left]; [exact H|].
  apply IH. unfold append_projects. destruct (parse_month_key (fst e)).
  now apply appendToArchive_keeps_project_id.
Qed.

Lemma append_projects_keeps_global_id year month i l :
  forall w,
    In i (ids (stored_global (stored_archive year month w))) ->
    In i (ids (stored_global (stored_archive year month (fold_left append_projects l w)))).
Proof.
  induction l as [|e l IH]; intros w H; cbn [fold_left]; [exact H|].
  apply IH. unfold append_projects. destruct (parse_month_key (fst e)).
  now apply appendToArchive_keeps_global_id.
Qed.

Lemma storage_writable_append_global l :
  forall w, storage_writable w -> storage_writable (fold_left append_global l w).
Proof.
  induction l as [|e l IH]; intros w H; cbn [fold_left]; [exact H|].
  apply IH. unfold append_global. destruct (parse_month_key (fst e)).
  now apply storage_writable_appendToArchive.
Qed.

(** With a writable disk, every session of an entry of the per-month map
    is, after the loop, in the archive of the month its key names. *)
Lemma append_global_files past :
  forall w key ss year month s,
    storage_writable w ->
    In (key, ss) past -> parse_month_key key = (year, month) -> In s ss ->
    In (id s)
       (ids (stored_global (stored_archive year month (fold_left append_global past w)))).
Proof.
  induction past as [|e past IH]; intros w key ss year month s Hw Hin Hkey Hs;
    [destruct Hin|].
  cbn [fold_left]. destruct Hin as [->|Hin].
  - apply append_global_keeps_id. unfold append_global. cbn [fst snd]. rewrite Hkey.
    rewrite appendToArchive_written by now apply storage_writable_can_write.
    unfold stored_global. now apply merged_archive_has_global.
  - apply (IH _ key ss); auto. unfold append_global.
    destruct (parse_month_key (fst e)). now apply storage_writable_appendToArchive.
Qed.

Lemma append_projects_files past :
  forall w key forKey projectId data year month s,
    storage_writable w ->
    In (key, forKey) past -> parse_month_key key = (year, month) ->
    In (projectId, data) forKey -> In s (pa_sessions data) ->
    In (id s)
       (ids (stored_project projectId
               (stored_archive year month (fold_left append_projects past w)))).
Proof.
  induction past as [|e past IH];
    intros w key forKey projectId data year month s Hw Hin Hkey Hd Hs; [destruct Hin|].
  cbn [fold_left]. destruct Hin as [->|Hin].
  - apply append_projects_keeps_id. unfold append_projects. cbn [fst snd]. rewrite Hkey.
    rewrite appendToArchive_written by now apply storage_writable_can_write.
    now apply (merged_archive_has_project year month [] forKey w projectId data).
  - apply (IH _ key forKey projectId data); auto. unfold append_projects.
    destruct (parse_month_key (fst e)). now apply storage_writable_appendToArchive.
Qed.

(** ** What the partition of the projects files under a month *)

Lemma filed_under_push_same key projectId name s past :
  filed_under key projectId s (push_past_project key projectId name s past).
Proof.
  unfold filed_under, push_past_project. eexists. eexists.
  split; [apply JsMapFacts.get_set_eq|]. split; [apply JsMapFacts.get_set_eq|].
  cbn [pa_sessions]. apply in_or_app. right. now left.
Qed.

Lemma filed_under_push_keeps key projectId s key' projectId' name s' past :
  filed_under key projectId s past ->
  filed_under key projectId s (push_past_project key' projectId' name s' past).
Proof.
  intros (forKey & data & G1 & G2 & Hs). unfold filed_under, push_past_project.
  destruct (String.eqb key' key) eqn:Ek.
  - apply String.eqb_eq in Ek. subst key'. rewrite G1.
    destruct (String.eqb projectId' projectId) eqn:Ep.
    + apply String.eqb_eq in Ep. subst projectId'. rewrite G2.
      eexists. eexists. split; [apply JsMapFacts.get_set_eq|].
      split; [apply JsMapFacts.get_set_eq|].
      cbn [pa_sessions]. apply in_or_app. now left.
    + apply String.eqb_neq in Ep.
      eexists. exists data. split; [apply JsMapFacts.get_set_eq|].
      split; [|exact Hs]. rewrite JsMapFacts.get_set_ne by exact Ep. exact G2.
  - apply String.eqb_neq in Ek. exists forKey, data.
    split; [|now split]. rewrite JsMapFacts.get_set_ne by exact Ek. exact G1.
Qed.

Lemma partition_project_keeps w p key projectId s l :
  forall acc,
    filed_under key projectId s (snd acc) ->
    filed_under key projectId s (snd (fold_left (partition_project w p) l acc)).
Proof.
  induction l as [|x l IH]; intros acc H; cbn [fold_left]; [exact H|].
  apply IH. unfold partition_project.
  destruct (in_current_month _ w); cbn [snd]; [exact H|].
  now apply filed_under_push_keeps.
Qed.

Lemma partition_project_files w p l :
  forall acc s,
    In s l -> in_current_month (session_date s) w = false ->
    filed_under (month_key_of (session_date s)) (p_id p) s
                (snd (fold_left (partition_project w p) l acc)).
Proof.
  induction l as [|x l IH]; intros acc s Hin Hpast; [destruct Hin|].
  cbn [fold_left]. destruct Hin as [->|Hin].
  - apply partition_project_keeps. unfold partition_project. rewrite Hpast.
    cbn [snd]. apply filed_under_push_same.
  - now apply IH.
Qed.

Lemma archive_project_keeps w key projectId s acc p :
  filed_under key projectId s (snd (fst acc)) ->
  filed_under key projectId s (snd (fst (archive_project w acc p))).
Proof.
  destruct acc as [[done past] changes]. cbn [fst snd]. intros H.
  unfold archive_project.
  destruct (timeTracking p) as [t|]; [|exact H].
  destruct (sessions t) as [[|x l]|]; try exact H.
  pose proof (partition_project_keeps w p key projectId s (x :: l) ([], past) H) as K.
  destruct (fold_left (partition_project w p) (x :: l) ([], past)) as [cur past'].
  cbn [snd] in K. now destruct (negb _).
Qed.

Lemma archive_project_files w acc p s :
  In s (sessions_of_project p) -> in_current_month (session_date s) w = false ->
  filed_under (month_key_of (session_date s)) (p_id p) s
              (snd (fst (archive_project w acc p))).
Proof.
  destruct acc as [[done past] changes]. intros Hin Hpast.
  unfold sessions_of_project in Hin. unfold archive_project.
  destruct (timeTracking p) as [t|]; [|destruct Hin].
  destruct (sessions t) as [[|x l]|]; cbn [or_empty] in Hin; try (now destruct Hin).
  pose proof (partition_project_files w p (x :: l) ([], past) s Hin Hpast) as K.
  destruct (fold_left (partition_project w p) (x :: l) ([], past)) as [cur past'].
  cbn [snd] in K. now destruct (negb _).
Qed.

Lemma archive_projects_keeps w key projectId s ps :
  forall acc,
    filed_under key projectId s (snd (fst acc)) ->
    filed_under key projectId s (snd (fst (fold_left (archive_project w) ps acc))).
Proof.
  induction ps as [|p ps IH]; intros acc H; cbn [fold_left]; [exact H|].
  apply IH. now apply archive_project_keeps.
Qed.

Lemma archive_projects_files w ps :
  forall acc p s,
    In p ps -> In s (sessions_of_project p) ->
    in_current_month (session_date s) w = false ->
    filed_under (month_key_of (session_date s)) (p_id p) s
                (snd (fst (fold_left (archive_project w) ps acc))).
Proof.
  induction ps as [|q ps IH]; intros acc p s Hp Hs Hpast; [destruct Hp|].
  cbn [fold_left]. destruct Hp as [->|Hp].
  - apply archive_projects_keeps. now apply archive_project_files.
  - now apply IH.
Qed.

(** ** The pass, phase by phase *)

(** A property that the global phase establishes and that the appends of
    the project phase and the final save keep holds after the pass. *)
Lemma archivePastMonthSessions_after_global (Q : World -> Prop) w g s l :
  initialised w = true ->
  globalTimeTracking (projectsState w) = Some g ->
  g_sessions g = Some (s :: l) ->
  Q (fold_left append_global (snd (fold_left (partition_global w) (s :: l) ([], []))) w) ->
  (forall past w', Q w' -> Q (fold_left append_projects past w')) ->
  (forall st w', Q w' -> Q (saveProjects (State_set_projects st w'))) ->
  Q (archivePastMonthSessions w).
Proof.
  intros Hi Eg Es H0 Hp Hsave. unfold archivePastMonthSessions.
  rewrite (initialised_guard w Hi). cbv zeta. rewrite Eg, Es.
  destruct (fold_left (partition_global w) (s :: l) ([], []))
    as [currentMonthGlobal pastByMonth].
  cbn [fst snd] in *.
  match goal with
  | |- context [fold_left (archive_project w) _ ([], [], ?c)] =>
      destruct (fold_left (archive_project w) (projects (projectsState w)) ([], [], c))
        as [[pn pp] ch']
  end.
  destruct ch'; [apply Hsave|]; apply (Hp pp); exact H0.
Qed.

(** A property that the project phase establishes from what the global
    phase keeps, and that the final save keeps, holds after the pass. *)
Lemma archivePastMonthSessions_after_projects (R Q : World -> Prop) w :
  initialised w = true ->
  R w ->
  (forall past w', R w' -> R (fold_left append_global past w')) ->
  (forall changes w1,
     R w1 ->
     Q (fold_left append_projects
          (snd (fst (fold_left (archive_project w) (projects (projectsState w))
                       ([], [], changes)))) w1)) ->
  (forall st w', Q w' -> Q (saveProjects (State_set_projects st w'))) ->
  Q (archivePastMonthSessions w).
Proof.
  intros Hi H0 Hg Hp Hsave. unfold archivePastMonthSessions.
  rewrite (initialised_guard w Hi). cbv zeta.
  assert (Hfinal : forall (updated : option GlobalTimeTracking) (changes : bool) w1,
             R w1 ->
             Q (let '(projects_now, pastProjectsByMonth, hasChanges') :=
                  fold_left (archive_project w) (projects (projectsState w))
                            ([], [], changes) in
                if hasChanges'
                then saveProjects
                       (State_set_projects
                          {| projects := projects_now;
                             globalTimeTracking := updated |}
                          (fold_left append_projects pastProjectsByMonth w1))
                else fold_left append_projects pastProjectsByMonth w1)).
  { intros updated changes w1 H1. specialize (Hp changes w1 H1).
    destruct (fold_left (archive_project w) (projects (projectsState w))
                ([], [], changes)) as [[pn pp] ch'].
    cbn [fst snd] in Hp. destruct ch'; [apply Hsave|]; exact Hp. }
  destruct (globalTimeTracking (projectsState w)) as [g|].
  - destruct (g_sessions g) as [[|s l]|].
    + now apply Hfinal.
    + destruct (fold_left (partition_global w) (s :: l) ([], []))
        as [currentMonthGlobal pastByMonth].
      cbn [fst snd]. apply Hfinal. now apply (Hg pastByMonth).
    + now apply Hfinal.
  - now apply Hfinal.
Qed.

End ArchivalFold.

(** X26.  With a writable disk (init having run), every session of the
    global record that started in a month other than the current one is,
    after [archivePastMonthSessions], in the archive file of the month it
    started in: its id is among the ids of the global sessions stored
    there.  The year of the start must not be negative, as the key of the
    month is split at its dashes. *)
Theorem archival_files_past_global_sessions :
  forall (P : Platform) (w : World) (s : Session) (d : Z),
    initialised w = true ->
    storage_writable w ->
    In s (sessions_of_global (projectsState w)) ->
    session_date s = Some d ->
    in_current_month (Some d) w = false ->
    0 <= getFullYear d -> 0 <= getMonth d ->
    In (id s)
       (ids (stored_global
               (stored_archive (Some (getFullYear d)) (Some (getMonth d))
                  (archivePastMonthSessions w)))).
Proof.
  intros P w s d Hi Hw Hin Hd Hpast Hy Hm.
  unfold sessions_of_global in Hin.
  destruct (globalTimeTracking (projectsState w)) as [g|] eqn:Eg; [|destruct Hin].
  destruct (g_sessions g) as [[|x l]|] eqn:Es; cbn [or_empty] in Hin;
    try (now destruct Hin).
  apply (archivePastMonthSessions_after_global
           (fun w' => In (id s)
                         (ids (stored_global
                                 (stored_archive (Some (getFullYear d))
                                    (Some (getMonth d)) w'))))
           w g x l Hi Eg Es).
  - destruct (partition_global_files w (x :: l) ([], []) s Hin) as (ss & G & Hs).
    { now rewrite Hd. }
    rewrite Hd in G. apply JsMapFacts.get_In in G.
    apply (append_global_files _ w (month_key_of (Some d)) ss); auto.
    now apply parse_month_key_of.
  - intros past w' H. now apply append_projects_keeps_global_id.
  - intros st w' H. exact H.
Qed.

Lemma archival_files_past_global_sessions_witness :
  In twiceSession (sessions_of_global (projectsState yearEndWorld))
  /\ @stored_archive utc (Some 2025) (Some 11) yearEndWorld = None
  /\ In "sess-7"%string
        (ids (stored_global
                (@stored_archive utc (Some 2025) (Some 11)
                   (@archivePastMonthSessions utc yearEndWorld)))).
Proof.
  split; [left; reflexivity|]. split; [reflexivity|].
  apply (archival_files_past_global_sessions utc yearEndWorld twiceSession
           1767175200000).
  - reflexivity.
  - intros path. reflexivity.
  - left. reflexivity.
  - vm_compute. reflexivity.
  - vm_compute. reflexivity.
  - vm_compute. discriminate.
  - vm_compute. discriminate.
Defined.

(** X27.  With a writable disk (init having run), every session of a
    project that started in a month other than the current one is, after
    [archivePastMonthSessions], in the archive file of the month it started
    in, in the list of the project: its id is among the ids stored there
    under the id of the project.  The year of the start must not be
    negative. *)
Theorem archival_files_past_project_sessions :
  forall (P : Platform) (w : World) (p : Project) (s : Session) (d : Z),
    initialised w = true ->
    storage_writable w ->
    In p (projects (projectsState w)) ->
    In s (sessions_of_project p) ->
    session_date s = Some d ->
    in_current_month (Some d) w = false ->
    0 <= getFullYear d -> 0 <= getMonth d ->
    In (id s)
       (ids (stored_project (p_id p)
               (stored_archive (Some (getFullYear d)) (Some (getMonth d))
                  (archivePastMonthSessions w)))).
Proof.
  intros P w p s d Hi Hw Hp Hin Hd Hpast Hy Hm.
  apply (archivePastMonthSessions_after_projects
           storage_writable
           (fun w' => In (id s)
                         (ids (stored_project (p_id p)
                                 (stored_archive (Some (getFullYear d))
                                    (Some (getMonth d)) w'))))
           w Hi Hw).
  - intros past w' H. now apply storage_writable_append_global.
  - intros changes w1 H1.
    destruct (archive_projects_files w (projects (projectsState w)) ([], [], changes)
                p s Hp Hin) as (forKey & data & G1 & G2 & Hs).
    { now rewrite Hd. }
    rewrite Hd in G1. apply JsMapFacts.get_In in G1. apply JsMapFacts.get_In in G2.
    apply (append_projects_files _ w1 (month_key_of (Some d)) forKey (p_id p) data);
      auto.
    now apply parse_month_key_of.
  - intros st w' H. exact H.
Qed.

Lemma archival_files_past_project_sessions_witness :
  In otherSession (sessions_of_project pastProject)
  /\ @stored_archive utc (Some 2025) (Some 11) yearEndWorld = None
  /\ In "sess-8"%string
        (ids (stored_project "proj-1"
                (@stored_archive utc (Some 2025) (Some 11)
                   (@archivePastMonthSessions utc yearEndWorld)))).
Proof.
  split; [left; reflexivity|]. split; [reflexivity|].
  apply (archival_files_past_project_sessions utc yearEndWorld pastProject otherSession
           1767178800000).
  - reflexivity.
  - intros path. reflexivity.
  - left. reflexivity.
  - left. reflexivity.
  - vm_compute. reflexivity.
  - vm_compute. reflexivity.
  - vm_compute. discriminate.
  - vm_compute. discriminate.
Defined.
